(** * The Athena memory bridge of openclaw_codebase

    A shallow embedding of
    - [openclaw/extensions/memory-athena/config.ts] (configuration parsing),
    - [src/mcp/athena-client.ts] (the [AthenaClient] session),
    - [openclaw/extensions/memory-athena/index.ts] (message analysis and the
      two lifecycle hooks),
    and the properties of these that the specification states.

    JavaScript strings are sequences of UTF-16 code units, numbers are IEEE
    binary64 floats, values of type [unknown] are a tagged union, exceptions
    are a result type, and the mutable [AthenaClient] object together with
    the calls it makes is an explicit world that every operation threads. *)

From Stdlib Require Import String Ascii.
From Stdlib Require Import List NArith ZArith Bool Arith Lia.
From Stdlib Require Import DecimalString.
From Stdlib Require Import Floats.PrimFloat Floats.SpecFloat Floats.FloatOps.
Import ListNotations.

Set Implicit Arguments.
#[local] Set Warnings "-register-all,-inexact-float".

(* ===================================================================== *)
(** * JavaScript values                                                   *)
(* ===================================================================== *)

Module Js.

(** A string is a list of UTF-16 code units; [length] is JavaScript's
    [.length] and [firstn n] is [.slice(0, n)]. *)
Definition codeunit := N.
Definition jsstr := list codeunit.

(** An ASCII literal of the source, as code units. *)
Definition lit (s : string) : jsstr :=
  map N_of_ascii (list_ascii_of_string s).
Arguments lit s%_string.

Fixpoint str_eqb (a b : jsstr) : bool :=
  match a, b with
  | [], [] => true
  | x :: a', y :: b' => N.eqb x y && str_eqb a' b'
  | _, _ => false
  end.

(** [xs.join(sep)] on strings. *)
Fixpoint join (sep : jsstr) (xs : list jsstr) : jsstr :=
  match xs with
  | [] => []
  | [x] => x
  | x :: rest => x ++ sep ++ join sep rest
  end.

Fixpoint has_prefix (p s : jsstr) : bool :=
  match p, s with
  | [], _ => true
  | x :: p', y :: s' => N.eqb x y && has_prefix p' s'
  | _ :: _, [] => false
  end.

(** [s.endsWith(suffix)]. *)
Definition endsWith (s suffix : jsstr) : bool :=
  has_prefix (rev suffix) (rev s).

(** WhiteSpace and LineTerminator code points of ECMAScript: what [trim]
    strips and what [\s] matches. *)
Definition is_space (c : codeunit) : bool :=
  ((9 <=? c) && (c <=? 13) || (c =? 32) || (c =? 160) || (c =? 5760)
   || (8192 <=? c) && (c <=? 8202) || (c =? 8232) || (c =? 8233)
   || (c =? 8239) || (c =? 8287) || (c =? 12288) || (c =? 65279))%N.

Fixpoint trimStart (s : jsstr) : jsstr :=
  match s with
  | c :: s' => if is_space c then trimStart s' else s
  | [] => []
  end.

Definition trim (s : jsstr) : jsstr := rev (trimStart (rev (trimStart s))).

(** Decimal digits of a natural number, as in a template literal. *)
Definition nat_to_str (n : nat) : jsstr :=
  lit (NilZero.string_of_uint (Nat.to_uint n)).

(** A thrown [Error] object: its [name] and its [message]. *)
Record exn := JsError { exn_name : jsstr; exn_message : jsstr }.

(** [new Error(msg)]. *)
Definition Error (msg : jsstr) : exn := JsError (lit "Error") msg.
Definition TypeError (msg : jsstr) : exn := JsError (lit "TypeError") msg.

(** [String(err)], that is [Error.prototype.toString]. *)
Definition exn_toString (e : exn) : jsstr :=
  match exn_name e, exn_message e with
  | [], m => m
  | n, [] => n
  | n, m => n ++ lit ": " ++ m
  end.

(** The outcome of an evaluation that may throw. *)
Inductive result (A : Type) : Type :=
| Ok (a : A)
| Throw (e : exn).
Arguments Ok {A} a.
Arguments Throw {A} e.

Definition rbind {A B} (r : result A) (k : A -> result B) : result B :=
  match r with
  | Ok a => k a
  | Throw e => Throw e
  end.

(** [xs.map(f)] for an [f] that may throw: [f] runs on the elements in
    order and the first throw ends the loop. *)
Fixpoint map_result {A B} (f : A -> result B) (xs : list A) : result (list B) :=
  match xs with
  | [] => Ok []
  | x :: xs' =>
      rbind (f x) (fun y => rbind (map_result f xs') (fun ys => Ok (y :: ys)))
  end.

(** [xs.filter(f)] for an [f] that may throw. *)
Fixpoint filter_result {A} (f : A -> result bool) (xs : list A) : result (list A) :=
  match xs with
  | [] => Ok []
  | x :: xs' =>
      rbind (f x) (fun keep =>
      rbind (filter_result f xs') (fun ys => Ok (if keep then x :: ys else ys)))
  end.

(** A value of type [unknown]: what [JSON.parse] can produce, and
    [undefined]. An object keeps its properties in insertion order; a key
    that is written again is shadowed by its first occurrence. *)
Inductive value : Type :=
| VUndefined
| VNull
| VBool (b : bool)
| VNum (x : float)
| VStr (s : jsstr)
| VArr (items : list value)
| VObj (props : list (jsstr * value)).

Fixpoint lookup (k : jsstr) (props : list (jsstr * value)) : option value :=
  match props with
  | [] => None
  | (k', v) :: rest => if str_eqb k' k then Some v else lookup k rest
  end.

(** The value of a decimal digit. *)
Definition digit (c : codeunit) : option N :=
  if ((48 <=? c) && (c <=? 57))%N then Some (c - 48)%N else None.

(** The number a string of decimal digits denotes, on top of [acc]. *)
Fixpoint decimal (acc : N) (s : jsstr) : option N :=
  match s with
  | [] => Some acc
  | c :: s' =>
      match digit c with
      | Some d => decimal (10 * acc + d) s'
      | None => None
      end
  end.

(** The array index that a property key is, if it is one: a key that is
    the decimal rendering, without leading zeros, of an integer below
    2^32 - 1. *)
Definition array_index (k : jsstr) : option N :=
  match k with
  | [] => None
  | c :: rest =>
      if (c =? 48)%N && negb (match rest with [] => true | _ => false end)
      then None
      else match decimal 0 k with
           | Some n => if (n <? 4294967295)%N then Some n else None
           | None => None
           end
  end.

(** The keys of a list, each once, in the order of their first
    occurrences. *)
Fixpoint distinct (seen ks : list jsstr) : list jsstr :=
  match ks with
  | [] => []
  | k :: rest =>
      if existsb (str_eqb k) seen then distinct seen rest
      else k :: distinct (k :: seen) rest
  end.

(** An index key put at its place among index keys in ascending order. *)
Fixpoint insert_index (n : N) (k : jsstr) (sorted : list (N * jsstr))
  : list (N * jsstr) :=
  match sorted with
  | [] => [(n, k)]
  | (m, k') :: rest =>
      if (n <=? m)%N then (n, k) :: sorted else (m, k') :: insert_index n k rest
  end.

(** The index keys among [ks], in ascending order of their indices. *)
Definition index_keys (ks : list jsstr) : list jsstr :=
  map snd
    (fold_right (fun k sorted => match array_index k with
                                 | Some n => insert_index n k sorted
                                 | None => sorted
                                 end) [] ks).

(** The keys among [ks] that are not array indices, in the order of [ks]. *)
Definition name_keys (ks : list jsstr) : list jsstr :=
  filter (fun k => match array_index k with Some _ => false | None => true end) ks.

(** [Object.keys(o)], in the order of OrdinaryOwnPropertyKeys: the keys
    that are array indices first, in ascending numeric order, then the
    other keys in insertion order. *)
Definition keys (props : list (jsstr * value)) : list jsstr :=
  let own := distinct [] (map fst props) in
  index_keys own ++ name_keys own.

(** [o.k] where [o] is known to be an object: [undefined] when absent. *)
Definition field (k : jsstr) (props : list (jsstr * value)) : value :=
  match lookup k props with
  | Some v => v
  | None => VUndefined
  end.

(** [v.k] for a named property [k] that no prototype defines: a
    [TypeError] on [null] and [undefined], the own property of an object,
    [undefined] on everything else. *)
Definition get (v : value) (k : jsstr) : result value :=
  match v with
  | VUndefined =>
      Throw (TypeError (lit "Cannot read properties of undefined (reading '"
                          ++ k ++ lit "')"))
  | VNull =>
      Throw (TypeError (lit "Cannot read properties of null (reading '"
                          ++ k ++ lit "')"))
  | VObj props => Ok (field k props)
  | _ => Ok VUndefined
  end.

(** [v?.k] on any value, and [v.k] on a value known to be neither [null]
    nor [undefined]. *)
Definition member (v : value) (k : jsstr) : value :=
  match v with
  | VObj props => field k props
  | _ => VUndefined
  end.

(** ToBoolean. *)
Definition truthy (v : value) : bool :=
  match v with
  | VUndefined | VNull => false
  | VBool b => b
  | VNum x => negb (PrimFloat.eqb x 0 || is_nan x)
  | VStr s => match s with [] => false | _ => true end
  | VArr _ | VObj _ => true
  end.

(** [typeof v === "object"]. *)
Definition typeof_object (v : value) : bool :=
  match v with
  | VNull | VArr _ | VObj _ => true
  | _ => false
  end.

(** [k in v] once [typeof v === "object"] holds: a [TypeError] on [null]. *)
Definition has_property (k : jsstr) (v : value) : result bool :=
  match v with
  | VObj props => Ok (match lookup k props with Some _ => true | None => false end)
  | VArr _ => Ok false
  | _ =>
      Throw (TypeError (lit "Cannot use 'in' operator to search for '"
                          ++ k ++ lit "' in null"))
  end.

(** The built-ins of the engine and of the process that the code calls and
    that are taken as given. *)
Record Runtime := {
  (** [JSON.parse(text)], which throws a [SyntaxError] on malformed text *)
  JSON_parse : jsstr -> result value;
  (** [JSON.stringify(v)] *)
  JSON_stringify : value -> jsstr;
  (** Number::toString, the shortest round-trip rendering of a number *)
  Number_toString : float -> jsstr;
  (** StringToNumber, the numeric value of a string *)
  StringToNumber : jsstr -> float;
  (** [process.env]: the variables that are set *)
  process_env : jsstr -> option jsstr;
  (** [Object.prototype]: its properties of a truthy value ([toString],
      [constructor], [valueOf], [hasOwnProperty] and the like in every
      engine), each as [String] renders it; an object that has no property
      of such a name of its own inherits this one, [process.env]
      included *)
  Object_prototype : jsstr -> option jsstr;
  (** [process.cwd()] *)
  process_cwd : jsstr;
  (** [os.homedir()] *)
  homedir : jsstr;
  (** [path.join(...segments)] *)
  path_join : list jsstr -> jsstr;
  (** [new URL(s)]: the [TypeError] it throws on an invalid URL, if any *)
  URL_invalid : jsstr -> option exn
}.

Section Coercions.
Variable rt : Runtime.

(** ToString on the values above; an array renders as its elements
    joined by commas, [null] and [undefined] elements as nothing. *)
Fixpoint ToString (v : value) : jsstr :=
  match v with
  | VUndefined => lit "undefined"
  | VNull => lit "null"
  | VBool true => lit "true"
  | VBool false => lit "false"
  | VNum x => Number_toString rt x
  | VStr s => s
  | VArr items =>
      join (lit ",")
        (map (fun e => match e with
                       | VUndefined | VNull => []
                       | _ => ToString e
                       end) items)
  | VObj _ => lit "[object Object]"
  end.

(** ToNumber. *)
Definition ToNumber (v : value) : float :=
  match v with
  | VUndefined => nan
  | VNull => 0%float
  | VBool true => 1%float
  | VBool false => 0%float
  | VNum x => x
  | VStr s => StringToNumber rt s
  | VArr _ | VObj _ => StringToNumber rt (ToString v)
  end.

(** [v > c] for a number [c]. *)
Definition gt (v : value) (c : float) : bool := PrimFloat.ltb c (ToNumber v).

(** [xs.join(sep)] on an array of values. *)
Definition join_values (sep : jsstr) (xs : list value) : jsstr :=
  join sep (map (fun e => match e with
                          | VUndefined | VNull => []
                          | _ => ToString e
                          end) xs).

(** The integer [n] closest to [10 * x], the larger one on a tie, for a
    finite [x >= 0] given as [m * 2^e]. *)
Definition tenths (m : positive) (e : Z) : Z :=
  (if 0 <=? e then Z.pos m * 2 ^ e * 10
   else (20 * Z.pos m + 2 ^ (- e)) / (2 * 2 ^ (- e)))%Z.

(** The decimal digits of [n] with a point before the last one. *)
Definition one_decimal (n : Z) : jsstr :=
  nat_to_str (Z.to_nat (n / 10)) ++ lit "." ++ nat_to_str (Z.to_nat (n mod 10)).

(** [x.toFixed(1)]. *)
Definition toFixed1 (x : float) : jsstr :=
  match Prim2SF x with
  | S754_nan | S754_infinity _ => Number_toString rt x
  | S754_zero _ => lit "0.0"
  | S754_finite s m e =>
      if (10 ^ 21 <=? (if 0 <=? e then Z.pos m * 2 ^ e
                       else Z.pos m / 2 ^ (- e)))%Z
      then Number_toString rt x
      else (if s then lit "-" else []) ++ one_decimal (tenths m e)
  end.
End Coercions.

End Js.

(* ===================================================================== *)
(** * config.ts: the plugin configuration                                 *)
(* ===================================================================== *)

Module Config.
Import Js.

Inductive AthenaTransport := stdio | sse.

Record AthenaMemoryConfig := {
  enabled : bool;
  transport : AthenaTransport;
  pythonPath : jsstr;
  athenaProjectDir : jsstr;
  sseUrl : jsstr;
  toolPrefix : jsstr
}.

Definition DEFAULT_TOOL_PREFIX : jsstr := lit "athena_".
Definition DEFAULT_PYTHON_PATH : jsstr := lit "python3".
Definition DEFAULT_SSE_URL : jsstr := lit "http://localhost:8765".

Definition allowed_keys : list jsstr :=
  [lit "enabled"; lit "transport"; lit "pythonPath"; lit "athenaProjectDir";
   lit "sseUrl"; lit "toolPrefix"].

(** [allowed.includes(key)]. *)
Definition includes (allowed : list jsstr) (key : jsstr) : bool :=
  existsb (str_eqb key) allowed.

Definition assertAllowedKeys (value : list (jsstr * value))
    (allowed : list jsstr) (label : jsstr) : result unit :=
  let unknown := filter (fun key => negb (includes allowed key)) (keys value) in
  match unknown with
  | [] => Ok tt
  | _ => Throw (Error (label ++ lit " has unknown keys: "
                         ++ join (lit ", ") unknown))
  end.

(** The match of [[^}]+\}] at the head of [s]: the characters before the
    first closing brace, which must be at least one, and what follows the
    brace. *)
Fixpoint match_name (s : jsstr) : option (jsstr * jsstr) :=
  match s with
  | [] => None
  | c :: s' =>
      if (c =? 125)%N then None
      else match s' with
           | d :: s'' =>
               if (d =? 125)%N then Some ([c], s'')
               else match match_name s' with
                    | Some (name, rest) => Some (c :: name, rest)
                    | None => None
                    end
           | [] => None
           end
  end.

(** The match of [/\$\{([^}]+)\}/] at the head of [s]: the captured
    name and the rest of the string. *)
Definition match_reference (s : jsstr) : option (jsstr * jsstr) :=
  match s with
  | c :: d :: s' => if ((c =? 36) && (d =? 123))%N then match_name s' else None
  | _ => None
  end.

(** What the global pattern cuts a string into: its matches, from left to
    right and without overlap, and the characters between them. *)
Inductive segment :=
| Plain (c : codeunit)
| Reference (envVar : jsstr).

(** [fuel] bounds the number of positions visited. *)
Fixpoint segments (fuel : nat) (s : jsstr) : list segment :=
  match fuel with
  | O => []
  | S fuel' =>
      match s with
      | [] => []
      | c :: s' =>
          match match_reference s with
          | Some (envVar, rest) => Reference envVar :: segments fuel' rest
          | None => Plain c :: segments fuel' s'
          end
      end
  end.

Section WithRuntime.
Variable rt : Runtime.

Definition resolveDefaultAthenaProjectDir : jsstr :=
  let home := homedir rt in
  let workspace := path_join rt [home; lit "Desktop"; lit "openclaw_codebase"] in
  let athenaDir := path_join rt [workspace; lit "Athena-Public"] in
  athenaDir.

(** The replacer callback of [resolveEnvVars]. The read
    [process.env[envVar]] gives the variable of that name when it is set,
    and otherwise what [process.env] inherits under that name; [replace]
    makes a string of what the callback returns. *)
Definition replacer (envVar : jsstr) : result jsstr :=
  let not_set :=
    Throw (Error (lit "Environment variable " ++ envVar ++ lit " is not set")) in
  match process_env rt envVar with
  | Some (c :: envValue) => Ok (c :: envValue)
  | Some [] => not_set
  | None =>
      match Object_prototype rt envVar with
      | Some inherited => Ok inherited
      | None => not_set
      end
  end.

(** [value.replace(/\$\{([^}]+)\}/g, replacer)]: the replacer runs at
    each match in turn, and its results take the place of the matches. *)
Definition resolveEnvVars (value : jsstr) : result jsstr :=
  rbind (map_result
           (fun seg => match seg with
                       | Plain c => Ok [c]
                       | Reference envVar => replacer envVar
                       end)
           (segments (length value) value))
    (fun parts => Ok (concat parts)).

(** [athenaMemoryConfigSchema.parse]. *)
Definition parse (value : Js.value) : result AthenaMemoryConfig :=
  match value with
  | VObj cfg =>
      rbind (assertAllowedKeys cfg allowed_keys (lit "Athena memory config"))
        (fun _ =>
      let enabled :=
        match field (lit "enabled") cfg with VBool true => true | _ => false end in
      let transport :=
        match field (lit "transport") cfg with
        | VStr s => if str_eqb s (lit "sse") then sse else stdio
        | _ => stdio
        end in
      rbind (match field (lit "pythonPath") cfg with
             | VStr s => resolveEnvVars s
             | _ => Ok DEFAULT_PYTHON_PATH
             end) (fun pythonPath =>
      rbind (match field (lit "athenaProjectDir") cfg with
             | VStr s => resolveEnvVars s
             | _ => Ok resolveDefaultAthenaProjectDir
             end) (fun athenaProjectDir =>
      rbind (match field (lit "sseUrl") cfg with
             | VStr s => resolveEnvVars s
             | _ => Ok DEFAULT_SSE_URL
             end) (fun sseUrl =>
      let toolPrefix :=
        match field (lit "toolPrefix") cfg with
        | VStr s => s
        | _ => DEFAULT_TOOL_PREFIX
        end in
      Ok {| enabled := enabled; transport := transport;
            pythonPath := pythonPath; athenaProjectDir := athenaProjectDir;
            sseUrl := sseUrl; toolPrefix := toolPrefix |}))))
  | _ => Throw (Error (lit "Athena memory config required"))
  end.
End WithRuntime.

End Config.

(* ===================================================================== *)
(** * athena-client.ts: the session with the memory server                *)
(* ===================================================================== *)

Module Client.
Import Js.

Record AthenaClientConfig := {
  cfg_transport : Config.AthenaTransport;
  cfg_pythonPath : option jsstr;
  cfg_athenaProjectDir : option jsstr;
  cfg_sseUrl : option jsstr
}.

(** One text block of a tool result, [{ type: "text", text }]. *)
Record TextContent := { text : jsstr }.

Record AthenaToolResult := {
  content : list TextContent;
  isError : option bool
}.

(** The transport objects of the MCP SDK, by the arguments they were
    constructed with. The subprocess inherits [process.env] and gets
    [PYTHONPATH] on top. *)
Inductive Transport :=
| StdioClientTransport (command : jsstr) (args : list jsstr) (cwd : jsstr)
    (PYTHONPATH : jsstr)
| SSEClientTransport (url : jsstr).

(** [new Client({ name, version }, { capabilities: {} })]. *)
Record SdkClient := { client_name : jsstr; client_version : jsstr }.

(** A content block as the SDK returns it. *)
Inductive McpBlock :=
| McpText (t : jsstr)
| McpOther (block : value).

(** What [client.callTool] of the SDK resolves to. *)
Record McpResult := {
  mcp_content : option (list McpBlock);
  mcp_isError : option bool
}.

(** The private fields of an [AthenaClient]. *)
Record AthenaClient := {
  client : option SdkClient;
  transport : option Transport;
  config : AthenaClientConfig;
  connected : bool
}.

(** [new AthenaClient(config)]. *)
Definition new (config : AthenaClientConfig) : AthenaClient :=
  {| client := None; transport := None; config := config; connected := false |}.

Inductive Level := info | warn.

(** What is observable of a run: the methods of the [AthenaClient] that
    were entered, the calls that reached the SDK, and the log lines. *)
Inductive Event :=
| Invoked_connect
| Invoked_callTool (name : jsstr) (args : value)
| Invoked_disconnect
| Sdk_connect (c : SdkClient) (t : Transport)
| Sdk_callTool (name : jsstr) (args : value)
| Sdk_close
| Logged (l : Level) (msg : jsstr).

(** The memory server and the SDK in front of it: how each call ends,
    given everything that happened before it. *)
Record Sdk := {
  (** [client.connect(transport)]: the fault it rejects with, if any *)
  on_connect : list Event -> SdkClient -> Transport -> option exn;
  (** [client.callTool({ name, arguments })] *)
  on_callTool : list Event -> jsstr -> value -> result McpResult;
  (** [client.close()]: the fault it rejects with, if any *)
  on_close : list Event -> option exn
}.

Record World := {
  session : AthenaClient;
  trace : list Event
}.

(** A computation on the world that returns or throws; what it did to the
    world before throwing stays done. *)
Definition M (A : Type) : Type := World -> result A * World.

Definition ret {A} (a : A) : M A := fun w => (Ok a, w).

Definition throw {A} (e : exn) : M A := fun w => (Throw e, w).

Definition bind {A B} (m : M A) (k : A -> M B) : M B :=
  fun w => match m w with
           | (Ok a, w') => k a w'
           | (Throw e, w') => (Throw e, w')
           end.

(** [try { m } catch (e) { handler(e) }]. *)
Definition try_catch {A} (m : M A) (handler : exn -> M A) : M A :=
  fun w => match m w with
           | (Ok a, w') => (Ok a, w')
           | (Throw e, w') => handler e w'
           end.

Definition lift {A} (r : result A) : M A := fun w => (r, w).

Declare Scope m_scope.
Delimit Scope m_scope with m.
Notation "x <- m ;; k" := (bind m (fun x => k))
  (at level 61, m at next level, right associativity) : m_scope.
Notation "m ;; k" := (bind m (fun _ => k))
  (at level 61, right associativity) : m_scope.
Local Open Scope m_scope.

Definition emit (e : Event) : M unit :=
  fun w => (Ok tt, {| session := session w; trace := trace w ++ [e] |}).

Definition this : M AthenaClient := fun w => (Ok (session w), w).

Definition update (f : AthenaClient -> AthenaClient) : M unit :=
  fun w => (Ok tt, {| session := f (session w); trace := trace w |}).

Definition set_client (c : option SdkClient) : M unit :=
  update (fun s => {| client := c; transport := transport s;
                      config := config s; connected := connected s |}).

Definition set_transport (t : option Transport) : M unit :=
  update (fun s => {| client := client s; transport := t;
                      config := config s; connected := connected s |}).

Definition set_connected (b : bool) : M unit :=
  update (fun s => {| client := client s; transport := transport s;
                      config := config s; connected := b |}).

(** [o || d] on an optional string. *)
Definition or_default (o : option jsstr) (d : jsstr) : jsstr :=
  match o with
  | Some (c :: s) => c :: s
  | _ => d
  end.

Definition the_client : SdkClient :=
  {| client_name := lit "openclaw-athena-client"; client_version := lit "1.0.0" |}.

Section WithSdk.
Variable rt : Runtime.
Variable sdk : Sdk.

(** [await client.connect(transport)]. *)
Definition sdk_connect (c : SdkClient) (t : Transport) : M unit :=
  fun w =>
    let w' := {| session := session w; trace := trace w ++ [Sdk_connect c t] |} in
    match on_connect sdk (trace w) c t with
    | None => (Ok tt, w')
    | Some e => (Throw e, w')
    end.

(** [await client.callTool({ name, arguments: args })]. *)
Definition sdk_callTool (name : jsstr) (args : value) : M McpResult :=
  fun w =>
    (on_callTool sdk (trace w) name args,
     {| session := session w; trace := trace w ++ [Sdk_callTool name args] |}).

(** [await client.close()]. *)
Definition sdk_close : M unit :=
  fun w =>
    let w' := {| session := session w; trace := trace w ++ [Sdk_close] |} in
    match on_close sdk (trace w) with
    | None => (Ok tt, w')
    | Some e => (Throw e, w')
    end.

Definition connectStdio : M unit :=
  s <- this ;;
  let pythonPath := or_default (cfg_pythonPath (config s)) (lit "python3") in
  let cwd := or_default (cfg_athenaProjectDir (config s)) (process_cwd rt) in
  let srcPath := if endsWith cwd (lit "/src") then cwd else cwd ++ lit "/src" in
  let transport :=
    StdioClientTransport pythonPath [lit "-m"; lit "athena.mcp_server"] cwd srcPath in
  set_transport (Some transport) ;;
  set_client (Some the_client) ;;
  sdk_connect the_client transport.

Definition connectSSE : M unit :=
  s <- this ;;
  let sseUrl := or_default (cfg_sseUrl (config s)) (lit "http://localhost:8765") in
  match URL_invalid rt sseUrl with
  | Some e => throw e
  | None =>
      let transport := SSEClientTransport sseUrl in
      set_transport (Some transport) ;;
      set_client (Some the_client) ;;
      sdk_connect the_client transport
  end.

Definition connect : M unit :=
  emit Invoked_connect ;;
  s <- this ;;
  if connected s then ret tt
  else
    try_catch
      ((match cfg_transport (config s) with
        | Config.stdio => connectStdio
        | Config.sse => connectSSE
        end) ;;
       set_connected true)
      (fun error =>
         set_connected false ;;
         throw (Error (lit "Failed to connect to Athena MCP server: "
                         ++ exn_toString error))).

(** The conversion of one block in [callTool]. *)
Definition convert_block (block : McpBlock) : TextContent :=
  match block with
  | McpText t => {| text := t |}
  | McpOther b => {| text := JSON_stringify rt b |}
  end.

Definition callTool (name : jsstr) (args : value) : M AthenaToolResult :=
  emit (Invoked_callTool name args) ;;
  s <- this ;;
  match client s, connected s with
  | Some _, true =>
      try_catch
        (result <- sdk_callTool name args ;;
         match mcp_content result with
         | Some blocks =>
             ret {| content := map convert_block blocks;
                    isError := mcp_isError result |}
         | None =>
             throw (TypeError
                      (lit "Cannot read properties of undefined (reading 'map')"))
         end)
        (fun error =>
           ret {| content := [ {| text := lit "Error: " ++ exn_toString error |} ];
                  isError := Some true |})
  | _, _ => throw (Error (lit "AthenaClient not connected. Call connect() first."))
  end.

Definition disconnect : M unit :=
  emit Invoked_disconnect ;;
  s <- this ;;
  (match client s with
   | Some _ => sdk_close ;; set_client None
   | None => ret tt
   end) ;;
  set_transport None ;;
  set_connected false.

Definition isConnected (s : AthenaClient) : bool := connected s.
End WithSdk.

End Client.

(* ===================================================================== *)
(** * The regular expressions of [extractKeyFacts]                        *)
(* ===================================================================== *)

Module Regex.
Import Js.

(** The pieces the six patterns are made of. *)
Inductive atom :=
| Lit (s : jsstr)                        (** the characters of [s] *)
| OneOf (alternatives : list jsstr)      (** [(a|b|c)] *)
| Rep (min : nat) (class : codeunit -> bool).  (** [class{min,}], greedy *)

Record pattern := { atoms : list atom; ignoreCase : bool }.

Definition is_digit (c : codeunit) : bool := ((48 <=? c) && (c <=? 57))%N.

(** [\w]. *)
Definition is_word (c : codeunit) : bool :=
  ((97 <=? c) && (c <=? 122) || (65 <=? c) && (c <=? 90) || is_digit c
   || (c =? 95))%N.

(** [[\w.-]]. *)
Definition is_word_dot_dash (c : codeunit) : bool :=
  (is_word c || (c =? 46) || (c =? 45))%N.

(** Canonicalize of a pattern without the [u] flag: with [i], a character
    compares as its upper case; the characters of the patterns are ASCII
    and no character outside ASCII canonicalizes into ASCII. *)
Definition canonicalize (i : bool) (c : codeunit) : codeunit :=
  if i && (97 <=? c)%N && (c <=? 122)%N then (c - 32)%N else c.

(** The literal [l] at the head of [s]: the characters of [s] it matched
    and the rest. *)
Fixpoint match_lit (i : bool) (l s : jsstr) : option (jsstr * jsstr) :=
  match l, s with
  | [], _ => Some ([], s)
  | x :: l', y :: s' =>
      if (canonicalize i x =? canonicalize i y)%N then
        match match_lit i l' s' with
        | Some (m, rest) => Some (y :: m, rest)
        | None => None
        end
      else None
  | _ :: _, [] => None
  end.

(** The backtracking matcher at the head of [s]: the matched text. *)
Fixpoint match_here (i : bool) (atoms : list atom) (s : jsstr) : option jsstr :=
  match atoms with
  | [] => Some []
  | Lit l :: atoms' =>
      match match_lit i l s with
      | Some (m, rest) =>
          match match_here i atoms' rest with
          | Some m' => Some (m ++ m')
          | None => None
          end
      | None => None
      end
  | OneOf alternatives :: atoms' =>
      (fix try (alts : list jsstr) : option jsstr :=
         match alts with
         | [] => None
         | l :: alts' =>
             match match_lit i l s with
             | Some (m, rest) =>
                 match match_here i atoms' rest with
                 | Some m' => Some (m ++ m')
                 | None => try alts'
                 end
             | None => try alts'
             end
         end) alternatives
  | Rep min class :: atoms' =>
      (fix rep (s : jsstr) (count : nat) : option jsstr :=
         let stop := if min <=? count then match_here i atoms' s else None in
         match s with
         | c :: s' =>
             if class c then
               match rep s' (S count) with
               | Some m => Some (c :: m)
               | None => stop
               end
             else stop
         | [] => stop
         end) s 0
  end.

(** [text.match(pattern)] for a pattern without the [g] flag: the text of
    the leftmost match, [match[0]], or nothing. *)
Fixpoint match_ (p : pattern) (text : jsstr) : option jsstr :=
  match match_here (ignoreCase p) (atoms p) text with
  | Some m => Some m
  | None =>
      match text with
      | [] => None
      | _ :: text' => match_ p text'
      end
  end.

End Regex.

(* ===================================================================== *)
(** * index.ts: message analysis                                          *)
(* ===================================================================== *)

Module Plugin.
Import Js.
Import Client.
Local Open Scope m_scope.

(** The guard [!msg || typeof msg !== "object"] does not skip [msg]. *)
Definition is_object (msg : value) : bool := truthy msg && typeof_object msg.

(** [msgObj.role === "user"]. *)
Definition role_is_user (msgObj : value) : bool :=
  match member msgObj (lit "role") with
  | VStr s => str_eqb s (lit "user")
  | _ => false
  end.

(** The test on a block in [extractMessageTexts]. *)
Definition is_text_block (block : value) : option jsstr :=
  match block with
  | VObj props =>
      match lookup (lit "type") props, lookup (lit "text") props with
      | Some (VStr ty), Some (VStr t) =>
          if str_eqb ty (lit "text") then Some t else None
      | _, _ => None
      end
  | _ => None
  end.

Definition extractMessageTexts (messages : list value) : list jsstr :=
  fold_left
    (fun texts msg =>
       if negb (is_object msg) then texts
       else
         match member msg (lit "content") with
         | VStr content => texts ++ [content]
         | VArr content =>
             fold_left
               (fun texts block =>
                  match is_text_block block with
                  | Some t => texts ++ [t]
                  | None => texts
                  end) content texts
         | _ => texts
         end)
    messages [].

Definition hasEnoughExchanges (messages : list value) : bool :=
  let userMessageCount :=
    fold_left
      (fun userMessageCount msg =>
         if negb (is_object msg) then userMessageCount
         else if role_is_user msg then S userMessageCount
         else userMessageCount)
      messages 0 in
  2 <=? userMessageCount.

(** The separator of [generateSummary] as the source file has it: a space,
    the code units U+00E2 U+2020 U+2019, a space. *)
Definition separator : jsstr := [32; 226; 8224; 8217; 32]%N.

Definition patterns : list Regex.pattern :=
  let alt (i : bool) (words : list jsstr) (tail : list Regex.atom) :=
    {| Regex.atoms := Regex.OneOf words :: Regex.Rep 1 is_space :: tail;
       Regex.ignoreCase := i |} in
  [ (* /\+\d{10,}/ *)
    {| Regex.atoms := [Regex.Lit (lit "+"); Regex.Rep 10 Regex.is_digit];
       Regex.ignoreCase := false |};
    (* /[\w.-]+@[\w.-]+\.\w+/ *)
    {| Regex.atoms := [Regex.Rep 1 Regex.is_word_dot_dash; Regex.Lit (lit "@");
                       Regex.Rep 1 Regex.is_word_dot_dash; Regex.Lit (lit ".");
                       Regex.Rep 1 Regex.is_word];
       Regex.ignoreCase := false |};
    (* /(my|name is|i'm|i am)\s+\w+/i *)
    alt true [lit "my"; lit "name is"; lit "i'm"; lit "i am"]
        [Regex.Rep 1 Regex.is_word];
    (* /(prefer|like|love|hate|want|need)\s+/i *)
    alt true [lit "prefer"; lit "like"; lit "love"; lit "hate"; lit "want";
              lit "need"] [];
    (* /(remember|don't forget|make sure)\s+/i *)
    alt true [lit "remember"; lit "don't forget"; lit "make sure"] [];
    (* /(decided|will use|going to)\s+/i *)
    alt true [lit "decided"; lit "will use"; lit "going to"] [] ].

(** [[...new Set(facts)]]: the first occurrence of each string, in order. *)
Definition unique (facts : list jsstr) : list jsstr :=
  fold_left
    (fun set fact => if existsb (str_eqb fact) set then set else set ++ [fact])
    facts [].

Section WithRuntime.
Variable rt : Runtime.

(** The loop over the blocks of an array content shared by
    [generateSummary] ([suffix] empty) and [extractKeyFacts] ([suffix] a
    space): [if (typeof block === "object" && "text" in block)
    text += block.text + suffix]. *)
Definition append_blocks (suffix : jsstr) (content : list value) : result jsstr :=
  fold_left
    (fun acc block =>
       rbind acc (fun text =>
       if typeof_object block then
         rbind (has_property (lit "text") block) (fun present =>
         if present
         then Ok (text ++ ToString rt (member block (lit "text")) ++ suffix)
         else Ok text)
       else Ok text))
    content (Ok []).

(** The [text] that [generateSummary] computes for one user message. *)
Definition summary_text (content : value) : result jsstr :=
  match content with
  | VStr s => Ok (trim s)
  | VArr blocks => rbind (append_blocks [] blocks) (fun text => Ok (trim text))
  | _ => Ok []
  end.

(** One iteration of the loop of [generateSummary] on the pair
    [(firstUserMsg, lastUserMsg)]. *)
Definition summary_step (st : jsstr * jsstr) (msg : value) : result (jsstr * jsstr) :=
  if negb (is_object msg) then Ok st
  else if negb (role_is_user msg) then Ok st
  else
    rbind (summary_text (member msg (lit "content"))) (fun text =>
    match text with
    | [] => Ok st
    | _ =>
        let firstUserMsg :=
          match fst st with [] => firstn 80 text | f => f end in
        Ok (firstUserMsg, firstn 80 text)
    end).

Definition generateSummary (messages : list value) : result jsstr :=
  rbind (fold_left (fun acc msg => rbind acc (fun st => summary_step st msg))
           messages (Ok ([], [])))
    (fun st =>
       let (firstUserMsg, lastUserMsg) := st in
       match firstUserMsg with
       | [] => Ok (lit "Conversation with user")
       | _ =>
           if str_eqb firstUserMsg lastUserMsg then Ok firstUserMsg
           else Ok (firstUserMsg ++ separator ++ lastUserMsg)
       end).

(** The [text] that [extractKeyFacts] computes for one user message. *)
Definition facts_text (content : value) : result jsstr :=
  match content with
  | VStr s => Ok s
  | VArr blocks => append_blocks (lit " ") blocks
  | _ => Ok []
  end.

(** The inner loop of [extractKeyFacts]: the matches of [text], one
    pattern after the other, pushed on [facts]. *)
Definition push_matches (facts : list jsstr) (text : jsstr) : list jsstr :=
  fold_left
    (fun facts pattern =>
       match Regex.match_ pattern text with
       | Some m => facts ++ [m]
       | None => facts
       end)
    patterns facts.

(** One iteration of the outer loop of [extractKeyFacts]. *)
Definition facts_step (facts : list jsstr) (msg : value) : result (list jsstr) :=
  if negb (is_object msg) then Ok facts
  else if negb (role_is_user msg) then Ok facts
  else
    rbind (facts_text (member msg (lit "content"))) (fun text =>
    Ok (push_matches facts text)).

Definition extractKeyFacts (messages : list value) : result (list jsstr) :=
  rbind (fold_left (fun acc msg => rbind acc (fun facts => facts_step facts msg))
           messages (Ok []))
    (fun facts => Ok (firstn 5 (unique facts))).

(** [parsed.results?.results || []]. *)
Definition results_of (parsed : value) : result value :=
  rbind (get parsed (lit "results")) (fun outer =>
  let inner := member outer (lit "results") in
  Ok (if truthy inner then inner else VArr [])).

(** One line of [parseSearchResults]:
    [[${(r.rrf_score * 100).toFixed(1)}%] ${r.id}: ${r.content}]. *)
Definition format_result (r : value) : result jsstr :=
  rbind (get r (lit "rrf_score")) (fun rrf_score =>
  rbind (get r (lit "id")) (fun id =>
  rbind (get r (lit "content")) (fun content =>
  Ok (lit "[" ++ toFixed1 rt (PrimFloat.mul (ToNumber rt rrf_score) 100)
        ++ lit "%] " ++ ToString rt id ++ lit ": " ++ ToString rt content)))).

(** [results.m(...)] for an array method [m]: a [TypeError] unless
    [results] is an array. *)
Definition as_array (method : jsstr) (results : value) : result (list value) :=
  match results with
  | VArr items => Ok items
  | _ => Throw (TypeError (lit "results." ++ method ++ lit " is not a function"))
  end.

Definition parseSearchResults (resultText : jsstr) : list jsstr :=
  match
    rbind (JSON_parse rt resultText) (fun parsed =>
    rbind (results_of parsed) (fun results =>
    rbind (as_array (lit "map") results) (fun items =>
    map_result format_result items)))
  with
  | Ok lines => lines
  | Throw _ => [resultText]
  end.

(** [results.filter((r) => r.rrf_score > 0.01)]. *)
Definition meaningful (results : value) : result (list value) :=
  rbind (as_array (lit "filter") results) (fun items =>
  filter_result
    (fun r => rbind (get r (lit "rrf_score")) (fun rrf_score =>
              Ok (gt rt rrf_score 0.01)))
    items).
End WithRuntime.

(* ===================================================================== *)
(** * index.ts: the lifecycle hooks                                       *)
(* ===================================================================== *)

(** The event of [before_agent_start]. *)
Record StartEvent := { prompt : value }.

(** The event of [agent_end]. *)
Record EndEvent := { success : bool; messages : option (list value) }.

(** [api.logger.info(msg)] and [api.logger.warn(msg)]. *)
Definition log (l : Level) (msg : jsstr) : M unit := emit (Logged l msg).

(** [event.prompt && event.prompt.length > 0]. *)
Definition has_prompt (rt : Runtime) (prompt : value) : bool :=
  truthy prompt &&
  match prompt with
  | VStr s => 0 <? length s
  | VArr xs => 0 <? length xs
  | _ => gt rt (member prompt (lit "length")) 0
  end.

(** The arguments of the search call. *)
Definition search_args (userPrompt : jsstr) : value :=
  VObj [(lit "query", VStr userPrompt); (lit "limit", VNum 3);
        (lit "strict", VBool false); (lit "rerank", VBool false)].

(** The arguments of the save call. *)
Definition save_args (summary : jsstr) (facts : list jsstr) : value :=
  VObj [(lit "summary", VStr summary);
        (lit "bullets", if 0 <? length facts then VArr (map VStr facts) else VNull)].

Definition context_header : jsstr :=
  lit "[Athena Memory] Relevant context from past sessions:" ++ [10%N].

Section Hooks.
Variable rt : Runtime.
Variable sdk : Sdk.

(** The handler of [before_agent_start]; its result is the
    [prependContext] of the object it returns, if it returns one. The
    variable [athenaClient] is assigned once and is never [null]. *)
Definition before_agent_start (event : StartEvent) : M (option jsstr) :=
  try_catch
    (connect rt sdk ;;
     log info (lit "memory-athena: connected to MCP server") ;;
     if has_prompt rt (prompt event) then
       let userPrompt :=
         match prompt event with
         | VArr xs => join_values rt (lit " ") xs
         | p => ToString rt p
         end in
       if 10 <? length userPrompt then
         log info (lit "memory-athena: auto-recall for: "
                     ++ firstn 50 userPrompt ++ lit "...") ;;
         searchResult <- callTool rt sdk (lit "smart_search")
                           (search_args userPrompt) ;;
         match isError searchResult, content searchResult with
         | (None | Some false), block :: _ =>
             let resultText := text block in
             parsed <- lift (JSON_parse rt resultText) ;;
             results <- lift (results_of parsed) ;;
             meaningfulResults <- lift (meaningful rt results) ;;
             if 0 <? length meaningfulResults then
               let formattedResults := parseSearchResults rt resultText in
               let contextMessage :=
                 context_header ++ join [10%N] formattedResults in
               log info (lit "memory-athena: injecting "
                           ++ nat_to_str (length meaningfulResults)
                           ++ lit " memories") ;;
               ret (Some contextMessage)
             else ret None
         | _, _ => ret None
         end
       else ret None
     else ret None)
    (fun err =>
       log warn (lit "memory-athena: auto-recall failed: " ++ exn_toString err) ;;
       ret None).

(** [saveResult.content[0]?.text] in a template literal. *)
Definition first_text (r : AthenaToolResult) : jsstr :=
  match content r with
  | block :: _ => text block
  | [] => lit "undefined"
  end.

(** The handler of [agent_end]. *)
Definition agent_end (event : EndEvent) : M unit :=
  try_catch
    (match success event, messages event with
     | true, Some (msg :: rest) =>
         let messages := msg :: rest in
         if negb (hasEnoughExchanges messages) then
           log info (lit "memory-athena: skipping capture (not enough exchanges)") ;;
           disconnect sdk
         else
           summary <- lift (generateSummary rt messages) ;;
           facts <- lift (extractKeyFacts rt messages) ;;
           log info (lit "memory-athena: auto-capturing: "
                       ++ firstn 50 summary ++ lit "...") ;;
           saveResult <- callTool rt sdk (lit "quicksave")
                           (save_args summary facts) ;;
           (match isError saveResult with
            | Some true =>
                log warn (lit "memory-athena: auto-capture failed: "
                            ++ first_text saveResult)
            | _ => log info (lit "memory-athena: auto-capture completed")
            end) ;;
           disconnect sdk ;;
           log info (lit "memory-athena: disconnected")
     | _, _ => disconnect sdk
     end)
    (fun err =>
       log warn (lit "memory-athena: agent_end error: " ++ exn_toString err) ;;
       try_catch (disconnect sdk) (fun _ => ret tt)).
End Hooks.

End Plugin.

(* ===================================================================== *)
(** * index.ts: registration and the tools                                *)
(* ===================================================================== *)

Module Tools.
Import Js.
Import Client.
Local Open Scope m_scope.

(** What the [execute] of a tool returns: [{ content, isError, details }]. *)
Record ToolResponse := {
  response_content : list TextContent;
  response_isError : option bool;
  details : jsstr
}.

(** [const { first, ... } = params]: a [TypeError] on [null] and
    [undefined], where [first] is the first property of the pattern. *)
Definition destructure (first : jsstr) (params : value) : result value :=
  match params with
  | VUndefined =>
      Throw (TypeError (lit "Cannot destructure property '" ++ first
                          ++ lit "' of 'params' as it is undefined."))
  | VNull =>
      Throw (TypeError (lit "Cannot destructure property '" ++ first
                          ++ lit "' of 'params' as it is null."))
  | _ => Ok params
  end.

(** A property of the pattern with a default, [k = d]: the default stands
    in for [undefined] only. *)
Definition with_default (params : value) (k : jsstr) (d : value) : value :=
  match member params k with
  | VUndefined => d
  | v => v
  end.

(** The object every [execute] returns from the result of [callTool]. *)
Definition respond (result : AthenaToolResult) : ToolResponse :=
  {| response_content := content result;
     response_isError := isError result;
     details := join [10%N] (map text (content result)) |}.

(** The arguments of the five calls. *)
Definition smart_search_args (params : value) : value :=
  VObj [(lit "query", member params (lit "query"));
        (lit "limit", with_default params (lit "limit") (VNum 10));
        (lit "strict", with_default params (lit "strict") (VBool false));
        (lit "rerank", with_default params (lit "rerank") (VBool false))].

Definition quicksave_args (params : value) : value :=
  let bullets := member params (lit "bullets") in
  VObj [(lit "summary", member params (lit "summary"));
        (lit "bullets", if truthy bullets then bullets else VNull)].

Definition recall_session_args (params : value) : value :=
  VObj [(lit "lines", with_default params (lit "lines") (VNum 50))].

(** The suffixes of the names the tools are registered under, in the
    order of registration. *)
Definition tool_suffixes : list jsstr :=
  [lit "search"; lit "save"; lit "recall_session"; lit "list_paths";
   lit "health"].

(** The names [register] registers the tools under,
    [`${cfg.toolPrefix}search`] and so on. *)
Definition tool_names (cfg : Config.AthenaMemoryConfig) : list jsstr :=
  map (fun suffix => Config.toolPrefix cfg ++ suffix) tool_suffixes.

(** The configuration [register] hands to [new AthenaClient]. *)
Definition client_config (cfg : Config.AthenaMemoryConfig) : AthenaClientConfig :=
  {| cfg_transport := Config.transport cfg;
     cfg_pythonPath := Some (Config.pythonPath cfg);
     cfg_athenaProjectDir := Some (Config.athenaProjectDir cfg);
     cfg_sseUrl := Some (Config.sseUrl cfg) |}.

Section WithSdk.
Variable rt : Runtime.
Variable sdk : Sdk.

(** What [register] sets up before it registers anything: the parsed
    configuration of [api.pluginConfig || {}], the client and the names of
    the tools. A configuration that does not parse makes it throw. *)
Definition register (pluginConfig : value)
  : result (Config.AthenaMemoryConfig * AthenaClient * list jsstr) :=
  rbind (Config.parse rt (if truthy pluginConfig then pluginConfig else VObj []))
    (fun cfg => Ok (cfg, new (client_config cfg), tool_names cfg)).

(** [if (!athenaClient?.isConnected()) await athenaClient?.connect()]. *)
Definition ensure_connected : M unit :=
  s <- this ;;
  if isConnected s then ret tt else connect rt sdk.

(** The body the five [execute] functions share once the arguments are
    built: connect if needed, call the tool, shape the response. *)
Definition call (name : jsstr) (args : value) : M ToolResponse :=
  ensure_connected ;;
  result <- callTool rt sdk name args ;;
  ret (respond result).

(** [execute] of [search]. *)
Definition search_execute (params : value) : M ToolResponse :=
  p <- lift (destructure (lit "query") params) ;;
  call (lit "smart_search") (smart_search_args p).

(** [execute] of [save]. *)
Definition save_execute (params : value) : M ToolResponse :=
  p <- lift (destructure (lit "summary") params) ;;
  call (lit "quicksave") (quicksave_args p).

(** [execute] of [recall_session]. *)
Definition recall_session_execute (params : value) : M ToolResponse :=
  p <- lift (destructure (lit "lines") params) ;;
  call (lit "recall_session") (recall_session_args p).

(** [execute] of [list_paths]. *)
Definition list_paths_execute : M ToolResponse :=
  call (lit "list_memory_paths") (VObj []).

(** [execute] of [health]. *)
Definition health_execute : M ToolResponse :=
  call (lit "health_check") (VObj []).
End WithSdk.

End Tools.

(* ===================================================================== *)
(** * The vocabulary of the specification                                 *)
(* ===================================================================== *)

Module Spec.
Import Js.

(** The environment variables a string refers to, as [${NAME}]. *)
Definition references (s : jsstr) : list jsstr :=
  flat_map (fun seg => match seg with
                       | Config.Reference envVar => [envVar]
                       | Config.Plain _ => []
                       end)
           (Config.segments (length s) s).

(** A [${NAME}] reference, written out. *)
Definition reference (name : jsstr) : jsstr := lit "${" ++ name ++ lit "}".

(** An environment variable is unset. *)
Definition unset (rt : Runtime) (name : jsstr) : Prop :=
  process_env rt name = None.

(** No property of that name is inherited by [process.env]. *)
Definition not_inherited (rt : Runtime) (name : jsstr) : Prop :=
  Object_prototype rt name = None.

(** The keys of the settings object that hold strings. *)
Definition string_keys : list jsstr :=
  [lit "pythonPath"; lit "athenaProjectDir"; lit "sseUrl"; lit "toolPrefix"].

(** The string keys whose value goes through [resolveEnvVars]. *)
Definition interpolated_keys : list jsstr :=
  [lit "pythonPath"; lit "athenaProjectDir"; lit "sseUrl"].

(** The parsed setting that belongs to a string key of the settings
    object. *)
Definition setting (key : jsstr) (c : Config.AthenaMemoryConfig) : jsstr :=
  if str_eqb key (lit "pythonPath") then Config.pythonPath c
  else if str_eqb key (lit "athenaProjectDir") then Config.athenaProjectDir c
  else if str_eqb key (lit "sseUrl") then Config.sseUrl c
  else Config.toolPrefix c.

(** The settings object has a key the schema does not know. *)
Definition has_unrecognized_key (cfg : list (jsstr * value)) : Prop :=
  exists key, In key (keys cfg) /\ ~ In key Config.allowed_keys.

(** Parsing fails whenever the string under [key] refers to an unset
    variable. *)
Definition unset_reference_is_fatal (rt : Runtime) (key : jsstr) : Prop :=
  forall cfg s name,
    field key cfg = VStr s -> In name (references s) -> unset rt name ->
    exists e, Config.parse rt (VObj cfg) = Throw e.

(** Parsing succeeds on every object with recognized keys only and no
    reference to an unset variable. *)
Definition parse_accepts_when_nothing_unset (rt : Runtime)
    (cfg : list (jsstr * value)) : Prop :=
  (forall key, In key (keys cfg) -> In key Config.allowed_keys) ->
  (forall key s name,
      In key string_keys -> field key cfg = VStr s ->
      In name (references s) -> ~ unset rt name) ->
  exists c, Config.parse rt (VObj cfg) = Ok c.

Definition is_string (v : value) : Prop := exists s, v = VStr s.

(** ** Sessions *)

(** The world right after [new AthenaClient(config)]. *)
Definition initial (config : Client.AthenaClientConfig) : Client.World :=
  {| Client.session := Client.new config; Client.trace := [] |}.

Section Sessions.
Variable rt : Runtime.
Variable sdk : Client.Sdk.

(** The worlds a session can be in: whatever its methods lead to from
    a new client, in any order and with any arguments. *)
Inductive reachable : Client.World -> Prop :=
| reach_new config : reachable (initial config)
| reach_connect w : reachable w -> reachable (snd (Client.connect rt sdk w))
| reach_callTool w name args :
    reachable w -> reachable (snd (Client.callTool rt sdk name args w))
| reach_disconnect w : reachable w -> reachable (snd (Client.disconnect sdk w))
| reach_emit w e : reachable w -> reachable (snd (Client.emit e w)).

(** The worlds of a session on which no [connect()] has completed
    successfully so far. *)
Inductive never_connected : Client.World -> Prop :=
| never_new config : never_connected (initial config)
| never_failed_connect w e w' :
    never_connected w -> Client.connect rt sdk w = (Throw e, w') ->
    never_connected w'
| never_callTool w name args :
    never_connected w ->
    never_connected (snd (Client.callTool rt sdk name args w))
| never_disconnect w :
    never_connected w -> never_connected (snd (Client.disconnect sdk w))
| never_emit w e : never_connected w -> never_connected (snd (Client.emit e w)).
End Sessions.

(** The state of a session is sound: it is connected only with a client
    in hand. *)
Definition sound (s : Client.AthenaClient) : Prop :=
  Client.connected s = true -> Client.client s <> None.

(** The transport [connectStdio] builds from the configuration. *)
Definition stdio_transport (rt : Runtime) (c : Client.AthenaClientConfig)
  : Client.Transport :=
  let cwd := Client.or_default (Client.cfg_athenaProjectDir c) (process_cwd rt) in
  Client.StdioClientTransport
    (Client.or_default (Client.cfg_pythonPath c) (lit "python3"))
    [lit "-m"; lit "athena.mcp_server"] cwd
    (if endsWith cwd (lit "/src") then cwd else cwd ++ lit "/src").

(** The transport [connectSSE] builds from the configuration. *)
Definition sse_transport (c : Client.AthenaClientConfig) : Client.Transport :=
  Client.SSEClientTransport
    (Client.or_default (Client.cfg_sseUrl c) (lit "http://localhost:8765")).

(** The transport [connect] builds: by [connectStdio] or [connectSSE],
    as the configuration says. *)
Definition transport_of (rt : Runtime) (c : Client.AthenaClientConfig)
  : Client.Transport :=
  match Client.cfg_transport c with
  | Config.stdio => stdio_transport rt c
  | Config.sse => sse_transport c
  end.

(** The world once the handshake was attempted with transport [t]: both
    handles are assigned. *)
Definition attempted (w : Client.World) (t : Client.Transport) : Client.World :=
  {| Client.session :=
       {| Client.client := Some Client.the_client;
          Client.transport := Some t;
          Client.config := Client.config (Client.session w);
          Client.connected := Client.connected (Client.session w) |};
     Client.trace := Client.trace w ++ [Client.Sdk_connect Client.the_client t] |}.

(** The session once [disconnect()] has run to its end. *)
Definition released (s : Client.AthenaClient) : Client.AthenaClient :=
  {| Client.client := None; Client.transport := None;
     Client.config := Client.config s; Client.connected := false |}.

(** The error of a call on a session that is not connected. *)
Definition NotConnectedError : exn :=
  Error (lit "AthenaClient not connected. Call connect() first.").

(** The error of a failed [connect()], carrying its cause. *)
Definition ConnectionError (cause : exn) : exn :=
  Error (lit "Failed to connect to Athena MCP server: " ++ exn_toString cause).

(** The session holds no handle. *)
Definition holds_no_handle (s : Client.AthenaClient) : Prop :=
  Client.client s = None /\ Client.transport s = None.


Definition is_connect (e : Client.Event) : bool :=
  match e with
  | Client.Invoked_connect | Client.Sdk_connect _ _ => true
  | _ => false
  end.

(** What a run added to the trace. *)
Definition added (before after : Client.World) : list Client.Event :=
  skipn (length (Client.trace before)) (Client.trace after).

(** Any call of a tool, at the session or at the SDK. *)
Definition is_any_tool_call (e : Client.Event) : bool :=
  match e with
  | Client.Invoked_callTool _ _ | Client.Sdk_callTool _ _ => true
  | _ => false
  end.

(** A turn-start run skipped recall entirely: it connected nothing, called
    no tool and returned no instruction. *)
Definition recall_skipped_entirely (before : Client.World)
    (run : result (option jsstr) * Client.World) : Prop :=
  fst run = Ok None
  /\ (forall e, In e (added before (snd run)) -> is_connect e = false)
  /\ (forall e, In e (added before (snd run)) -> is_any_tool_call e = false).

(** The prompt of a turn-start event is absent, empty or at most ten
    characters long. *)
Definition short_prompt (p : value) : Prop :=
  p = VUndefined \/ exists s, p = VStr s /\ length s <= 10.

(** On a short prompt, the turn-start handler skips recall entirely. *)
Definition short_prompt_skips_recall (rt : Runtime) (sdk : Client.Sdk)
    (w : Client.World) (event : Plugin.StartEvent) : Prop :=
  short_prompt (Plugin.prompt event) ->
  recall_skipped_entirely w (Plugin.before_agent_start rt sdk event w).

(** A candidate of a search reply, [{ id, content, rrf_score }]. *)
Record Candidate := {
  hit_id : jsstr;
  hit_content : jsstr;
  hit_rrf_score : float
}.

Definition candidate_value (c : Candidate) : value :=
  VObj [(lit "id", VStr (hit_id c)); (lit "content", VStr (hit_content c));
        (lit "rrf_score", VNum (hit_rrf_score c))].

(** [{ results: { results: candidates } }]. *)
Definition payload (candidates : list Candidate) : value :=
  VObj [(lit "results",
         VObj [(lit "results", VArr (map candidate_value candidates))])].

(** The candidate passes the relevance threshold. *)
Definition relevant (c : Candidate) : bool :=
  PrimFloat.ltb 0.01 (hit_rrf_score c).

(** The scored line of a candidate. *)
Definition scored_line (rt : Runtime) (c : Candidate) : jsstr :=
  lit "[" ++ toFixed1 rt (PrimFloat.mul (hit_rrf_score c) 100) ++ lit "%] "
    ++ hit_id c ++ lit ": " ++ hit_content c.

(** ** Messages *)

(** A message of role user. *)
Definition is_user_message (msg : value) : bool :=
  Plugin.is_object msg && Plugin.role_is_user msg.

(** The number of messages of role user. *)
Definition user_messages (messages : list value) : nat :=
  length (filter is_user_message messages).


(** The log line of a capture that is skipped. *)
Definition skipping_capture : Client.Event :=
  Client.Logged Client.info
    (lit "memory-athena: skipping capture (not enough exchanges)").

(** The warning of the [catch] block of [agent_end]. *)
Definition agent_end_warning (err : exn) : Client.Event :=
  Client.Logged Client.warn
    (lit "memory-athena: agent_end error: " ++ exn_toString err).

(** No block list of a user message holds [null]. *)
Definition no_null_block (messages : list value) : Prop :=
  forall msg blocks,
    In msg messages -> is_user_message msg = true ->
    member msg (lit "content") = VArr blocks -> ~ In VNull blocks.

Section Messages.
Variable rt : Runtime.

(** The text a block contributes: its [text] property, if it has one,
    followed by [suffix]. *)
Definition block_text (suffix : jsstr) (block : value) : jsstr :=
  match block with
  | VObj props =>
      match lookup (lit "text") props with
      | Some v => ToString rt v ++ suffix
      | None => []
      end
  | _ => []
  end.

(** The text of a content: the content itself when it is a string, the
    texts of its blocks put together when it is a block list. *)
Definition content_text (suffix : jsstr) (content : value) : jsstr :=
  match content with
  | VStr s => s
  | VArr blocks => concat (map (block_text suffix) blocks)
  | _ => []
  end.







(** The first match of each pattern in [text], in the order of the
    patterns. *)
Definition first_matches (text : jsstr) : list jsstr :=
  flat_map (fun p => match Regex.match_ p text with
                     | Some m => [m]
                     | None => []
                     end) Plugin.patterns.

(** The candidate facts, in the order [extractKeyFacts] finds them: for
    each user message, the first match of each pattern in its text, the
    texts of blocks followed by a space each. *)
Definition candidate_facts (messages : list value) : list jsstr :=
  flat_map (fun msg => first_matches (content_text (lit " ") (member msg (lit "content"))))
    (filter is_user_message messages).
End Messages.

End Spec.

(* ===================================================================== *)
(** * Concrete runtimes, servers and inputs                               *)
(* ===================================================================== *)

Module Sample.
Import Js.

(** The functions of [Object.prototype], by name. *)
Definition prototype_functions : list jsstr :=
  [lit "toString"; lit "valueOf"; lit "hasOwnProperty"; lit "isPrototypeOf";
   lit "propertyIsEnumerable"; lit "toLocaleString"; lit "__defineGetter__";
   lit "__defineSetter__"; lit "__lookupGetter__"; lit "__lookupSetter__"].

(** [Object.prototype] in Node.js, each property as [String] renders
    it. *)
Definition node_Object_prototype : jsstr -> option jsstr :=
  fun name =>
    if str_eqb name (lit "__proto__") then Some (lit "[object Object]")
    else if str_eqb name (lit "constructor")
    then Some (lit "function Object() { [native code] }")
    else if existsb (str_eqb name) prototype_functions
    then Some (lit "function " ++ name ++ lit "() { [native code] }")
    else None.

(** A runtime whose [JSON.parse] is [parse] and whose environment is
    [env]; the other built-ins are not reached by the runs below. *)
Definition runtime (parse : jsstr -> result value)
    (env : jsstr -> option jsstr) : Runtime :=
  {| JSON_parse := parse;
     JSON_stringify := fun _ => lit "{}";
     Number_toString := fun _ => lit "NaN";
     StringToNumber := fun _ => nan;
     process_env := env;
     Object_prototype := node_Object_prototype;
     process_cwd := lit "/srv/athena";
     homedir := lit "/home/user";
     path_join := join (lit "/");
     URL_invalid := fun _ => None |}.

(** A [JSON.parse] that rejects every text. *)
Definition no_json : jsstr -> result value :=
  fun _ => Throw (JsError (lit "SyntaxError") (lit "Unexpected end of JSON input")).

(** A [JSON.parse] that knows the value of the one text [json]. *)
Definition parsing (json : jsstr) (v : value) : jsstr -> result value :=
  fun t => if str_eqb t json then Ok v else no_json t.

(** No variable is set. *)
Definition empty_env : jsstr -> option jsstr := fun _ => None.

(** [HOME=/home/user] and [EMPTY=], nothing else. *)
Definition home_env : jsstr -> option jsstr :=
  fun name =>
    if str_eqb name (lit "HOME") then Some (lit "/home/user")
    else if str_eqb name (lit "EMPTY") then Some []
    else None.

(** [{ toolPrefix: "${UNSET}" }]. *)
Definition cfg_prefix_reference : list (jsstr * value) :=
  [(lit "toolPrefix", VStr (lit "${UNSET}"))].

(** [{ pythonPath: "${EMPTY}" }]. *)
Definition cfg_empty_reference : list (jsstr * value) :=
  [(lit "pythonPath", VStr (lit "${EMPTY}"))].

(** [{ pythonPath: "${NOPE}/bin/python" }]. *)
Definition cfg_unset_reference : list (jsstr * value) :=
  [(lit "pythonPath", VStr (lit "${NOPE}/bin/python"))].

(** [{ pythonPath: "${toString}" }]. *)
Definition cfg_inherited_reference : list (jsstr * value) :=
  [(lit "pythonPath", VStr (lit "${toString}"))].

(** [{ zeta: 1, 10: 1, 2: 1 }]. *)
Definition cfg_numeric_keys : list (jsstr * value) :=
  [(lit "zeta", VNum 1); (lit "10", VNum 1); (lit "2", VNum 1)].

(** [{ pythonPath: "${NOPE}/bin/python", bogus: 1 }]. *)
Definition cfg_bad : list (jsstr * value) :=
  [(lit "pythonPath", VStr (lit "${NOPE}/bin/python")); (lit "bogus", VNum 1)].

(** [{ transport: "sse", enabled: true, athenaProjectDir: "${HOME}/athena",
       sseUrl: 8765 }]. *)
Definition cfg_good : list (jsstr * value) :=
  [(lit "transport", VStr (lit "sse")); (lit "enabled", VBool true);
   (lit "athenaProjectDir", VStr (lit "${HOME}/athena"));
   (lit "sseUrl", VNum 8765)].

(** ** Servers *)

Definition stdio_config : Client.AthenaClientConfig :=
  {| Client.cfg_transport := Config.stdio;
     Client.cfg_pythonPath := Some (lit "python3");
     Client.cfg_athenaProjectDir := Some (lit "/srv/athena");
     Client.cfg_sseUrl := Some (lit "http://localhost:8765") |}.

Definition text_reply (t : jsstr) : Client.McpResult :=
  {| Client.mcp_content := Some [Client.McpText t]; Client.mcp_isError := None |}.

(** A server that accepts the handshake, answers every tool call with
    [reply] and closes cleanly. *)
Definition server (reply : Client.McpResult) : Client.Sdk :=
  {| Client.on_connect := fun _ _ _ => None;
     Client.on_callTool := fun _ _ _ => Ok reply;
     Client.on_close := fun _ => None |}.

Definition spawn_failure : exn := Error (lit "spawn python3 ENOENT").

(** A server whose handshake fails. *)
Definition unreachable_server : Client.Sdk :=
  {| Client.on_connect := fun _ _ _ => Some spawn_failure;
     Client.on_callTool := fun _ _ _ => Throw spawn_failure;
     Client.on_close := fun _ => None |}.

(** A server that accepts the handshake and faults on every tool call. *)
Definition faulty_server : Client.Sdk :=
  {| Client.on_connect := fun _ _ _ => None;
     Client.on_callTool := fun _ _ _ => Throw (Error (lit "Request timed out"));
     Client.on_close := fun _ => None |}.

Definition plain_runtime : Runtime := runtime no_json empty_env.

(** ** Messages and events *)

(** [{ role, content }]. *)
Definition message (role : string) (content : value) : value :=
  VObj [(lit "role", VStr (lit role)); (lit "content", content)].

(** [[{ role: "user", content: "hi" }]]. *)
Definition one_user_message : list value := [message "user" (VStr (lit "hi"))].

(** [[{ role: "user", content: "" }, { role: "user", content: "  first" },
      { role: "user", content: "last" }]]. *)
Definition blank_then_padded : list value :=
  [message "user" (VStr []); message "user" (VStr (lit "  first"));
   message "user" (VStr (lit "last"))].

(** [[{ role: "user", content: [null] }]]. *)
Definition null_block_message : list value := [message "user" (VArr [VNull])].

(** [[{ role: "user", content: "My name is Sam" },
      { role: "assistant", content: [{ type: "text", text: "Hello Sam" }] },
      { role: "user", content: "Remember to call Sam" }]]. *)
Definition sam_messages : list value :=
  [message "user" (VStr (lit "My name is Sam"));
   message "assistant"
     (VArr [VObj [(lit "type", VStr (lit "text")); (lit "text", VStr (lit "Hello Sam"))]]);
   message "user" (VStr (lit "Remember to call Sam"))].

(** One candidate above the relevance threshold and one below it. *)
Definition mixed_candidates : list Spec.Candidate :=
  [ {| Spec.hit_id := lit "session-12";
       Spec.hit_content := lit "Sam's number is +15550100";
       Spec.hit_rrf_score := 0.25 |};
    {| Spec.hit_id := lit "session-3";
       Spec.hit_content := lit "small talk about the weather";
       Spec.hit_rrf_score := 0.001 |} ].

Definition mixed_payload : value := Spec.payload mixed_candidates.

(** A JSON string literal without escapes. *)
Definition quoted (s : string) : jsstr := [34%N] ++ lit s ++ [34%N].

(** The JSON text of [mixed_payload], which [JSON.parse] of
    [mixed_runtime] parses. *)
Definition reply_text : jsstr :=
  lit "{" ++ quoted "results" ++ lit ":{" ++ quoted "results" ++ lit ":[{"
    ++ quoted "id" ++ lit ":" ++ quoted "session-12" ++ lit ","
    ++ quoted "content" ++ lit ":" ++ quoted "Sam's number is +15550100" ++ lit ","
    ++ quoted "rrf_score" ++ lit ":0.25},{"
    ++ quoted "id" ++ lit ":" ++ quoted "session-3" ++ lit ","
    ++ quoted "content" ++ lit ":" ++ quoted "small talk about the weather" ++ lit ","
    ++ quoted "rrf_score" ++ lit ":0.001}]}}".

(** A runtime whose [JSON.parse] parses [reply_text] to [mixed_payload]. *)
Definition mixed_runtime : Runtime :=
  runtime (parsing reply_text mixed_payload) empty_env.

Definition phone_prompt : Plugin.StartEvent :=
  {| Plugin.prompt := VStr (lit "What's my phone number?") |}.

Definition hi_prompt : Plugin.StartEvent := {| Plugin.prompt := VStr (lit "hi") |}.

Definition one_message_end : Plugin.EndEvent :=
  {| Plugin.success := true; Plugin.messages := Some one_user_message |}.

End Sample.

(* ===================================================================== *)
(** * Further vocabulary                                                  *)
(* ===================================================================== *)

Module Terms.
Import Js.

(** [m] occurs in [text] as a run of consecutive characters. *)
Definition occurs_in (m text : jsstr) : Prop :=
  exists pre post, text = pre ++ m ++ post.

(** The texts one message contributes to [extractMessageTexts]: its
    content when that is a string, and the texts of its text blocks when it
    is a block list. *)
Definition texts_of (msg : value) : list jsstr :=
  if Plugin.is_object msg then
    match member msg (lit "content") with
    | VStr s => [s]
    | VArr blocks =>
        flat_map (fun block => match Plugin.is_text_block block with
                               | Some t => [t]
                               | None => []
                               end) blocks
    | _ => []
    end
  else [].

(** The length of the shortest of the alternatives. *)
Fixpoint shortest (alternatives : list jsstr) : nat :=
  match alternatives with
  | [] => 0
  | [l] => length l
  | l :: rest => Nat.min (length l) (shortest rest)
  end.

(** The least number of characters a match of the atoms takes. *)
Fixpoint min_length (atoms : list Regex.atom) : nat :=
  match atoms with
  | [] => 0
  | Regex.Lit l :: rest => length l + min_length rest
  | Regex.OneOf alternatives :: rest => shortest alternatives + min_length rest
  | Regex.Rep min _ :: rest => min + min_length rest
  end.

(** What [parse] yields when no key is given. *)
Definition defaults (rt : Runtime) : Config.AthenaMemoryConfig :=
  {| Config.enabled := false;
     Config.transport := Config.stdio;
     Config.pythonPath := Config.DEFAULT_PYTHON_PATH;
     Config.athenaProjectDir := Config.resolveDefaultAthenaProjectDir rt;
     Config.sseUrl := Config.DEFAULT_SSE_URL;
     Config.toolPrefix := Config.DEFAULT_TOOL_PREFIX |}.

(** A run of a tool calls the tool [name] of the server once, with
    [args], without connecting and without throwing, and shapes what comes
    back: the blocks of a reply as text, its error flag, and the texts
    joined by line feeds as [details]; a fault of the SDK as an error
    response whose details are ["Error: "] and the fault. *)
Definition calls_once (rt : Runtime) (sdk : Client.Sdk)
    (run : Client.M Tools.ToolResponse) (name : jsstr) (args : value)
    (w : Client.World) : Prop :=
  exists r,
    run w
    = (Ok r,
       {| Client.session := Client.session w;
          Client.trace := Client.trace w
                          ++ [Client.Invoked_callTool name args;
                              Client.Sdk_callTool name args] |})
    /\ (forall blocks flag,
          Client.on_callTool sdk
            (Client.trace w ++ [Client.Invoked_callTool name args]) name args
          = Ok {| Client.mcp_content := Some blocks;
                  Client.mcp_isError := flag |} ->
          Tools.response_content r = map (Client.convert_block rt) blocks
          /\ Tools.response_isError r = flag
          /\ Tools.details r
             = join [10%N]
                 (map (fun b => Client.text (Client.convert_block rt b)) blocks))
    /\ (forall fault,
          Client.on_callTool sdk
            (Client.trace w ++ [Client.Invoked_callTool name args]) name args
          = Throw fault ->
          Tools.response_isError r = Some true
          /\ Tools.details r = lit "Error: " ++ exn_toString fault).

(** A run of a tool on a session that is not connected connects first:
    when [connect()] throws, the run throws the same connection error and
    nothing more has happened; when [connect()] returns, the run calls the
    tool [name] of the server once, with [args], on the connected
    session. *)
Definition connects_first (rt : Runtime) (sdk : Client.Sdk)
    (run : Client.M Tools.ToolResponse) (name : jsstr) (args : value)
    (w : Client.World) : Prop :=
  (forall e w1,
      Client.connect rt sdk w = (Throw e, w1) ->
      run w = (Throw e, w1)
      /\ exists cause, e = Spec.ConnectionError cause)
  /\ (forall w1,
        Client.connect rt sdk w = (Ok tt, w1) ->
        Client.isConnected (Client.session w1) = true
        /\ exists r,
            run w
            = (Ok r,
               {| Client.session := Client.session w1;
                  Client.trace := Client.trace w1
                                  ++ [Client.Invoked_callTool name args;
                                      Client.Sdk_callTool name args] |})).

(** A server that accepts the handshake and the tool calls and faults on
    [close()]. *)
Definition unclosable_server : Client.Sdk :=
  {| Client.on_connect := fun _ _ _ => None;
     Client.on_callTool := fun _ _ _ => Ok (Sample.text_reply []);
     Client.on_close := fun _ => Some Sample.spawn_failure |}.

(** The world of a new stdio session once it is connected to [sdk]. *)
Definition connected_world (sdk : Client.Sdk) : Client.World :=
  snd (Client.connect Sample.plain_runtime sdk (Spec.initial Sample.stdio_config)).

(** The events of a session that is winding down: it enters
    [disconnect()], closes the SDK client, or logs. *)
Definition winds_down (e : Client.Event) : bool :=
  match e with
  | Client.Invoked_disconnect | Client.Sdk_close | Client.Logged _ _ => true
  | _ => false
  end.

(** A reply of the SDK to the search that the turn-start handler cannot
    use: a fault, a reply without content or flagged as an error, or a
    first block whose text is not JSON. *)
Definition unusable (rt : Runtime) (reply : result Client.McpResult) : Prop :=
  match reply with
  | Throw _ => True
  | Ok r =>
      Client.mcp_isError r = Some true
      \/ match Client.mcp_content r with
         | None | Some [] => True
         | Some (block :: _) =>
             exists e,
               JSON_parse rt (Client.text (Client.convert_block rt block)) = Throw e
         end
  end.

(** The statements of [agent_end] on a conversation worth saving, from the
    summary to the log line that follows the save: what it runs before it
    calls [disconnect()]. *)
Definition capture (rt : Runtime) (sdk : Client.Sdk) (messages : list value)
  : Client.M unit :=
  Client.bind (Client.lift (Plugin.generateSummary rt messages)) (fun summary =>
  Client.bind (Client.lift (Plugin.extractKeyFacts rt messages)) (fun facts =>
  Client.bind (Plugin.log Client.info (lit "memory-athena: auto-capturing: "
                                  ++ firstn 50 summary ++ lit "...")) (fun _ =>
  Client.bind (Client.callTool rt sdk (lit "quicksave")
                 (Plugin.save_args summary facts)) (fun saveResult =>
  match Client.isError saveResult with
  | Some true =>
      Plugin.log Client.warn (lit "memory-athena: auto-capture failed: "
                         ++ Plugin.first_text saveResult)
  | _ => Plugin.log Client.info (lit "memory-athena: auto-capture completed")
  end)))).

(** A step of a handler that leaves the session as it found it. *)
Definition keeps_session {A} (m : Client.M A) : Prop :=
  forall w, Client.session (snd (m w)) = Client.session w.

(** The warning of the [catch] block of [agent_end]. *)
Definition agent_end_error (err : exn) : jsstr :=
  lit "memory-athena: agent_end error: " ++ exn_toString err.


(** The end of a successful turn with two user messages, the first with
    a [null] among its blocks. *)
Definition null_block_end : Plugin.EndEvent :=
  {| Plugin.success := true;
     Plugin.messages :=
       Some (Sample.null_block_message ++ Sample.one_user_message) |}.

End Terms.

(* ===================================================================== *)
(** * Properties                                                          *)
(* ===================================================================== *)

Unset Implicit Arguments.

Module JsFacts.
Import Js.

Lemma str_eqb_eq (a b : jsstr) : str_eqb a b = true <-> a = b.
Proof.
  revert b. induction a as [|x a IH]; intros [|y b]; simpl; split;
    try congruence; try reflexivity.
  - intros H. apply andb_true_iff in H as [Hx Hab].
    apply N.eqb_eq in Hx. apply IH in Hab. congruence.
  - intros H. injection H as -> ->.
    apply andb_true_iff. split; [apply N.eqb_refl | now apply IH].
Qed.

Lemma str_eqb_refl (a : jsstr) : str_eqb a a = true.
Proof. now apply str_eqb_eq. Qed.


Lemma rbind_ok {A B} (r : result A) (k : A -> result B) (b : B) :
  rbind r k = Ok b -> exists a, r = Ok a /\ k a = Ok b.
Proof. destruct r as [a|e]; simpl; [eauto | discriminate]. Qed.

Lemma map_result_throws {A B} (f : A -> result B) (xs : list A) (x : A) (e : exn) :
  In x xs -> f x = Throw e -> exists e', map_result f xs = Throw e'.
Proof.
  induction xs as [|y xs IH]; simpl; [contradiction|].
  intros [->|Hin] Hf.
  - rewrite Hf. simpl. eauto.
  - destruct (f y); simpl; [|eauto].
    destruct (IH Hin Hf) as [e' ->]. simpl. eauto.
Qed.

Lemma map_result_returns {A B} (f : A -> result B) (xs : list A) :
  (forall x, In x xs -> exists y, f x = Ok y) ->
  exists ys, map_result f xs = Ok ys /\ length ys = length xs.
Proof.
  induction xs as [|x xs IH]; simpl; intros H; [eauto|].
  destruct (H x (or_introl eq_refl)) as [y ->]. simpl.
  destruct IH as [ys [-> Hlen]]; [auto|]. simpl. eexists. split; [reflexivity|].
  simpl. congruence.
Qed.

Lemma map_result_app {A B} (f : A -> result B) (xs ys : list A) (xs' ys' : list B) :
  map_result f xs = Ok xs' -> map_result f ys = Ok ys' ->
  map_result f (xs ++ ys) = Ok (xs' ++ ys').
Proof.
  revert xs'. induction xs as [|x xs IH]; simpl; intros xs' Hx Hy.
  - injection Hx as <-. exact Hy.
  - destruct (f x) as [y|]; simpl in *; [|discriminate].
    destruct (map_result f xs) as [zs|]; simpl in *; [|discriminate].
    injection Hx as <-. rewrite (IH zs eq_refl Hy). reflexivity.
Qed.

Lemma distinct_In (seen ks : list jsstr) (k : jsstr) :
  In k (distinct seen ks) <-> In k ks /\ ~ In k seen.
Proof.
  revert seen. induction ks as [|x ks IH]; intros seen; cbn [distinct].
  - simpl. tauto.
  - destruct (existsb (str_eqb x) seen) eqn:E.
    + apply existsb_exists in E as [y [Hy Heq]]. apply str_eqb_eq in Heq.
      subst y. rewrite IH. simpl. split; [tauto|].
      intros [[->|Hin] Hnot]; [contradiction | tauto].
    + assert (Hx : ~ In x seen).
      { intros Hin. apply Bool.not_true_iff_false in E. apply E.
        apply existsb_exists. exists x. split; [exact Hin | apply str_eqb_refl]. }
      cbn [In]. rewrite IH. simpl. split.
      * intros [->|[Hin Hnot]]; [tauto|]. split; [tauto|]. intros H. apply Hnot. now right.
      * intros [[->|Hin] Hnot]; [now left|].
        destruct (list_eq_dec N.eq_dec x k) as [->|Hne]; [now left|].
        right. split; [exact Hin|]. intros [H|H]; [contradiction | contradiction].
Qed.

Lemma distinct_NoDup (seen ks : list jsstr) :
  NoDup ks -> (forall k, In k ks -> ~ In k seen) -> distinct seen ks = ks.
Proof.
  revert seen. induction ks as [|x ks IH]; intros seen Hnd Hseen; [reflexivity|].
  cbn [distinct]. inversion Hnd as [|y ys Hx Hks]; subst.
  destruct (existsb (str_eqb x) seen) eqn:E.
  - apply existsb_exists in E as [y [Hy Heq]]. apply str_eqb_eq in Heq. subst y.
    exfalso. apply (Hseen x); [now left | exact Hy].
  - f_equal. apply IH; [exact Hks|]. intros k Hk [<-|Hin]; [contradiction|].
    apply (Hseen k); [now right | exact Hin].
Qed.

Lemma insert_index_In (n : N) (k : jsstr) (sorted : list (N * jsstr))
    (entry : N * jsstr) :
  In entry (insert_index n k sorted) <-> entry = (n, k) \/ In entry sorted.
Proof.
  induction sorted as [|[m k'] rest IH]; cbn [insert_index].
  - simpl. intuition congruence.
  - destruct (n <=? m)%N; cbn [In]; [intuition congruence|].
    rewrite IH. intuition congruence.
Qed.

Lemma index_keys_In (ks : list jsstr) (k : jsstr) :
  In k (index_keys ks) <-> In k ks /\ array_index k <> None.
Proof.
  unfold index_keys. rewrite in_map_iff.
  assert (H : forall entry,
             In entry (fold_right
                         (fun k sorted => match array_index k with
                                          | Some n => insert_index n k sorted
                                          | None => sorted
                                          end) [] ks)
             <-> In (snd entry) ks /\ array_index (snd entry) = Some (fst entry)).
  { induction ks as [|x ks IH]; intros entry; cbn [fold_right].
    - simpl. tauto.
    - destruct (array_index x) as [n|] eqn:E.
      + rewrite insert_index_In, IH. cbn [In]. split.
        * intros [->|[Hin Hidx]]; [cbn [fst snd]; auto | auto].
        * intros [[->|Hin] Hidx]; [|auto]. left. destruct entry as [m k0].
          cbn [fst snd] in *. congruence.
      + rewrite IH. cbn [In]. split; [tauto|].
        intros [[->|Hin] Hidx]; [congruence | auto]. }
  split.
  - intros [entry [<- Hin]]. apply H in Hin as [Hin Hidx]. split; [exact Hin|].
    congruence.
  - intros [Hin Hidx]. destruct (array_index k) as [n|] eqn:E; [|congruence].
    exists (n, k). split; [reflexivity|]. apply H. cbn [fst snd]. auto.
Qed.

(** [Object.keys] lists the keys of the object, all of them. *)
Lemma keys_In (props : list (jsstr * value)) (k : jsstr) :
  In k (keys props) <-> In k (map fst props).
Proof.
  unfold keys. cbv zeta. rewrite in_app_iff, index_keys_In.
  unfold name_keys. rewrite filter_In, !distinct_In. cbn [In].
  destruct (array_index k); intuition (try discriminate; try congruence).
Qed.

(** On an object without index keys, [Object.keys] is the insertion
    order. *)
Lemma keys_insertion_order (props : list (jsstr * value)) :
  NoDup (map fst props) ->
  (forall k, In k (map fst props) -> array_index k = None) ->
  keys props = map fst props.
Proof.
  intros Hnd Hnone. unfold keys. cbv zeta.
  rewrite distinct_NoDup by (auto; intros k _ []).
  clear Hnd. induction (map fst props) as [|k ks IH]; [reflexivity|].
  assert (Hk : array_index k = None) by (apply Hnone; now left).
  assert (Hks : forall k', In k' ks -> array_index k' = None).
  { intros k' Hk'. apply Hnone. now right. }
  specialize (IH Hks). unfold index_keys, name_keys in *.
  cbn [fold_right filter]. rewrite Hk.
  destruct (map snd _) as [|x xs] eqn:E in IH.
  - rewrite E. cbn [app] in *. now f_equal.
  - exfalso. assert (Hx : In x (index_keys ks)).
    { unfold index_keys. rewrite E. now left. }
    apply index_keys_In in Hx as [Hin Hidx]. apply Hidx, Hks, Hin.
Qed.

End JsFacts.

Module ConfigFacts.
Import Js Config Spec JsFacts.

Lemma includes_In (allowed : list jsstr) (key : jsstr) :
  includes allowed key = true <-> In key allowed.
Proof.
  unfold includes. rewrite existsb_exists. split.
  - intros [x [Hin Heq]]. apply str_eqb_eq in Heq. now subst.
  - intros Hin. exists key. split; [assumption | apply str_eqb_refl].
Qed.

Lemma assertAllowedKeys_returns cfg allowed label :
  (forall key, In key (keys cfg) -> In key allowed) ->
  assertAllowedKeys cfg allowed label = Ok tt.
Proof.
  intros H. unfold assertAllowedKeys.
  replace (filter _ (keys cfg)) with (@nil jsstr); [reflexivity|].
  symmetry. induction (keys cfg) as [|k ks IH]; simpl; [reflexivity|].
  assert (Hk : includes allowed k = true) by (apply includes_In, H; now left).
  rewrite Hk. simpl. apply IH. intros key Hin. apply H. now right.
Qed.

Lemma assertAllowedKeys_throws cfg allowed label key :
  In key (keys cfg) -> ~ In key allowed ->
  exists e, assertAllowedKeys cfg allowed label = Throw e.
Proof.
  intros Hin Hnot. unfold assertAllowedKeys.
  assert (Hf : In key (filter (fun key => negb (includes allowed key)) (keys cfg))).
  { apply filter_In. split; [assumption|].
    destruct (includes allowed key) eqn:E; [|reflexivity].
    apply includes_In in E. contradiction. }
  destruct (filter _ (keys cfg)); [contradiction | eauto].
Qed.

Lemma match_name_closed (name post : jsstr) :
  name <> [] -> ~ In 125%N name ->
  match_name (name ++ 125%N :: post) = Some (name, post).
Proof.
  induction name as [|c name IH]; [congruence|]. intros _ Hnot.
  assert (Hc : (c =? 125)%N = false).
  { apply N.eqb_neq. intros ->. apply Hnot. now left. }
  simpl. rewrite Hc. destruct name as [|d name]; simpl.
  - reflexivity.
  - assert (Hd : (d =? 125)%N = false).
    { apply N.eqb_neq. intros ->. apply Hnot. right. now left. }
    rewrite Hd. simpl in IH. rewrite Hd in IH.
    rewrite IH; [reflexivity | congruence |].
    intros Hin. apply Hnot. now right.
Qed.

Lemma match_name_shorter s name rest :
  match_name s = Some (name, rest) -> length rest < length s.
Proof.
  revert name rest. induction s as [|c s IH]; simpl; [discriminate|].
  intros name rest. destruct (c =? 125)%N; [discriminate|].
  destruct s as [|d s']; [discriminate|].
  destruct (d =? 125)%N.
  - intros H. injection H as <- <-. simpl. lia.
  - destruct (match_name (d :: s')) as [[n r]|] eqn:E; [|discriminate].
    intros H. injection H as <- <-. specialize (IH _ _ eq_refl). simpl in *. lia.
Qed.

Lemma match_reference_shorter s name rest :
  match_reference s = Some (name, rest) -> length rest < length s.
Proof.
  destruct s as [|c [|d s']]; simpl; try discriminate.
  destruct ((c =? 36) && (d =? 123))%N; [|discriminate].
  intros H. apply match_name_shorter in H. lia.
Qed.

Lemma segments_fuel fuel1 fuel2 s :
  length s <= fuel1 -> length s <= fuel2 -> segments fuel1 s = segments fuel2 s.
Proof.
  revert fuel2 s. induction fuel1 as [|fuel1 IH]; intros fuel2 s H1 H2.
  - destruct s; [|simpl in H1; lia]. destruct fuel2; reflexivity.
  - destruct s as [|c s']; [destruct fuel2; reflexivity|].
    destruct fuel2 as [|fuel2]; [simpl in H2; lia|].
    cbn [segments]. simpl in H1, H2.
    destruct (match_reference (c :: s')) as [[name rest]|] eqn:E.
    + apply match_reference_shorter in E. simpl in E.
      f_equal. apply IH; lia.
    + f_equal. apply IH; lia.
Qed.

Lemma match_reference_other c s :
  c <> 36%N -> match_reference (c :: s) = None.
Proof.
  intros Hc. apply N.eqb_neq in Hc. destruct s as [|d s']; simpl; [reflexivity|].
  rewrite Hc. reflexivity.
Qed.

Lemma segments_plain pre t :
  ~ In 36%N pre ->
  segments (length (pre ++ t)) (pre ++ t) = map Plain pre ++ segments (length t) t.
Proof.
  induction pre as [|c pre IH]; intros Hnot; [reflexivity|].
  cbn [app length segments map].
  rewrite match_reference_other by (intros ->; apply Hnot; now left).
  f_equal. apply IH. intros H. apply Hnot. now right.
Qed.

Lemma segments_step fuel c s :
  segments (S fuel) (c :: s) =
  match match_reference (c :: s) with
  | Some (envVar, rest) => Reference envVar :: segments fuel rest
  | None => Plain c :: segments fuel s
  end.
Proof. reflexivity. Qed.

Lemma segments_reference (name post : jsstr) :
  name <> [] -> ~ In 125%N name ->
  segments (length (reference name ++ post)) (reference name ++ post)
  = Reference name :: segments (length post) post.
Proof.
  intros Hne Hnot.
  assert (E : reference name ++ post = 36%N :: 123%N :: name ++ 125%N :: post).
  { unfold reference. rewrite <- !app_assoc. reflexivity. }
  rewrite E. cbn [length]. rewrite segments_step.
  cbn [match_reference]. change ((36 =? 36)%N && (123 =? 123)%N) with true.
  cbv iota. rewrite (match_name_closed name post Hne Hnot). f_equal. apply segments_fuel; [|lia].
  rewrite length_app. simpl. lia.
Qed.

Section WithRuntime.
Variable rt : Runtime.

Lemma resolveEnvVars_interpolates pre name post c v post' :
  ~ In 36%N pre -> name <> [] -> ~ In 125%N name ->
  process_env rt name = Some (c :: v) ->
  resolveEnvVars rt post = Ok post' ->
  resolveEnvVars rt (pre ++ reference name ++ post) = Ok (pre ++ (c :: v) ++ post').
Proof.
  intros Hpre Hne Hname Henv Hpost. unfold resolveEnvVars in *.
  rewrite segments_plain, segments_reference by assumption.
  set (f := fun seg => match seg with
                       | Plain c => Ok [c]
                       | Reference envVar => replacer rt envVar
                       end) in *.
  apply rbind_ok in Hpost as [parts [Hparts Hcat]]. injection Hcat as <-.
  assert (Hplain : map_result f (map Plain pre) = Ok (map (fun c => [c]) pre)).
  { clear. induction pre as [|x pre IH]; simpl; [reflexivity|].
    rewrite IH. reflexivity. }
  assert (Href : map_result f (Reference name :: segments (length post) post)
                 = Ok ((c :: v) :: parts)).
  { cbn [map_result]. rewrite Hparts. unfold f, replacer. rewrite Henv.
    reflexivity. }
  rewrite (map_result_app f _ _ _ _ Hplain Href). cbn [rbind].
  rewrite concat_app. cbn [concat]. do 2 f_equal.
  clear. induction pre as [|x pre IH]; [reflexivity|].
  cbn [map concat app]. now rewrite IH.
Qed.

Lemma resolveEnvVars_unset s name :
  In name (references s) -> unset rt name -> not_inherited rt name ->
  exists e, resolveEnvVars rt s = Throw e.
Proof.
  unfold references, unset, not_inherited, resolveEnvVars.
  intros Hin Hnone Hproto.
  apply in_flat_map in Hin as [seg [Hseg Hname]].
  destruct seg as [c|envVar]; simpl in Hname; [contradiction|].
  destruct Hname as [->|[]].
  edestruct (@map_result_throws segment jsstr) as [e' He'];
    [exact Hseg | | rewrite He'; simpl; eauto].
  simpl. unfold replacer. rewrite Hnone, Hproto. reflexivity.
Qed.

(** A string without a dollar sign resolves to itself. *)
Lemma resolveEnvVars_plain (s : jsstr) :
  ~ In 36%N s ->
  resolveEnvVars rt s = Ok s /\ segments (length s) s = map Plain s.
Proof.
  intros Hnot.
  assert (E : segments (length s) s = map Plain s).
  { pose proof (segments_plain s [] Hnot) as H. cbn [length segments] in H.
    rewrite !app_nil_r in H. exact H. }
  split; [|exact E]. unfold resolveEnvVars. rewrite E.
  assert (H : map_result
                (fun seg => match seg with
                            | Plain c => Ok [c]
                            | Reference envVar => replacer rt envVar
                            end) (map Plain s)
              = Ok (map (fun c => [c]) s)).
  { clear. induction s as [|c s IH]; simpl; [reflexivity|].
    rewrite IH. reflexivity. }
  rewrite H. cbn [rbind]. f_equal. clear.
  induction s as [|c s IH]; [reflexivity|]. cbn [map concat app].
  now rewrite IH.
Qed.

(** A reference to a variable that is set to the empty string makes
    [resolveEnvVars] throw. *)
Lemma resolveEnvVars_empty (pre name post : jsstr) :
  ~ In 36%N pre -> name <> [] -> ~ In 125%N name ->
  process_env rt name = Some [] ->
  exists e, resolveEnvVars rt (pre ++ reference name ++ post) = Throw e.
Proof.
  intros Hpre Hne Hname Henv. unfold resolveEnvVars.
  rewrite segments_plain, segments_reference by assumption.
  edestruct (@map_result_throws segment jsstr) as [e' He'];
    [| | rewrite He'; simpl; eauto].
  - apply in_app_iff. right. now left.
  - simpl. unfold replacer. rewrite Henv. reflexivity.
Qed.

Lemma resolveEnvVars_set s :
  (forall name, In name (references s) ->
                exists c v, process_env rt name = Some (c :: v)) ->
  exists r, resolveEnvVars rt s = Ok r.
Proof.
  unfold references, resolveEnvVars. intros H.
  edestruct (@map_result_returns segment jsstr) as [ys [Hys _]];
    [| rewrite Hys; simpl; eauto].
  intros [c|envVar] Hin; [eauto|].
  destruct (H envVar) as [c [v Hv]].
  - apply in_flat_map. eexists. split; [exact Hin | now left].
  - unfold replacer. rewrite Hv. eauto.
Qed.

(** What a successful [parse] says about the object it was given. *)
Lemma parse_returns_inv cfg c :
  parse rt (VObj cfg) = Ok c ->
  (forall key, In key (keys cfg) -> In key allowed_keys)
  /\ (forall s, field (lit "pythonPath") cfg = VStr s ->
                resolveEnvVars rt s = Ok (pythonPath c))
  /\ (forall s, field (lit "athenaProjectDir") cfg = VStr s ->
                resolveEnvVars rt s = Ok (athenaProjectDir c))
  /\ (forall s, field (lit "sseUrl") cfg = VStr s ->
                resolveEnvVars rt s = Ok (sseUrl c))
  /\ (forall s, field (lit "toolPrefix") cfg = VStr s -> toolPrefix c = s).
Proof.
  unfold parse. intros H.
  apply rbind_ok in H as [[] [Hkeys H]].
  apply rbind_ok in H as [pp [Hpp H]].
  apply rbind_ok in H as [dir [Hdir H]].
  apply rbind_ok in H as [url [Hurl H]].
  injection H as <-. cbn [pythonPath athenaProjectDir sseUrl toolPrefix].
  split; [|repeat split].
  - intros key Hin. destruct (in_dec (list_eq_dec N.eq_dec) key allowed_keys)
      as [Hok|Hbad]; [assumption|].
    destruct (assertAllowedKeys_throws cfg allowed_keys
                (lit "Athena memory config") key Hin Hbad) as [e He].
    congruence.
  - intros s E. now rewrite E in Hpp.
  - intros s E. now rewrite E in Hdir.
  - intros s E. now rewrite E in Hurl.
  - intros s E. now rewrite E.
Qed.

(** [parse] returns as soon as the keys are recognized and the three
    interpolated strings resolve. *)
Lemma parse_returns cfg :
  (forall key, In key (keys cfg) -> In key allowed_keys) ->
  (forall key s, In key interpolated_keys -> field key cfg = VStr s ->
                 exists r, resolveEnvVars rt s = Ok r) ->
  exists c,
    parse rt (VObj cfg) = Ok c
    /\ (transport c = sse <-> field (lit "transport") cfg = VStr (lit "sse"))
    /\ (enabled c = true <-> field (lit "enabled") cfg = VBool true)
    /\ (~ is_string (field (lit "pythonPath") cfg) ->
        pythonPath c = DEFAULT_PYTHON_PATH)
    /\ (~ is_string (field (lit "athenaProjectDir") cfg) ->
        athenaProjectDir c = resolveDefaultAthenaProjectDir rt)
    /\ (~ is_string (field (lit "sseUrl") cfg) -> sseUrl c = DEFAULT_SSE_URL)
    /\ (~ is_string (field (lit "toolPrefix") cfg) ->
        toolPrefix c = DEFAULT_TOOL_PREFIX).
Proof.
  intros Hkeys Hres. unfold parse.
  rewrite (assertAllowedKeys_returns _ _ _ Hkeys). cbn [rbind].
  assert (Hfield : forall key dflt, In key interpolated_keys ->
            exists r, match field key cfg with
                      | VStr s => resolveEnvVars rt s
                      | _ => Ok dflt
                      end = Ok r
                      /\ (~ is_string (field key cfg) -> r = dflt)).
  { intros key dflt Hin. specialize (Hres key).
    destruct (field key cfg) as [| |b|x|s|items|props];
      try (exists dflt; split; [reflexivity | auto]).
    destruct (Hres s Hin eq_refl) as [r Hr]. exists r. split; [assumption|].
    intros Hno. exfalso. apply Hno. now exists s. }
  destruct (Hfield (lit "pythonPath") DEFAULT_PYTHON_PATH) as [pp [-> Hpp]];
    [simpl; auto|].
  destruct (Hfield (lit "athenaProjectDir") (resolveDefaultAthenaProjectDir rt))
    as [dir [-> Hdir]]; [simpl; auto|].
  destruct (Hfield (lit "sseUrl") DEFAULT_SSE_URL) as [url [-> Hurl]];
    [simpl; auto|].
  cbn [rbind]. eexists. split; [reflexivity|].
  cbn [transport enabled pythonPath athenaProjectDir sseUrl toolPrefix].
  repeat split; try assumption.
  - destruct (field (lit "transport") cfg) as [| |b|x|s|items|props];
      try discriminate.
    destruct (str_eqb s (lit "sse")) eqn:E; [|discriminate].
    apply str_eqb_eq in E. now subst.
  - intros E. rewrite E. reflexivity.
  - destruct (field (lit "enabled") cfg) as [| |[|]|x|s|items|props];
      try discriminate. reflexivity.
  - intros E. rewrite E. reflexivity.
  - intros Hno. destruct (field (lit "toolPrefix") cfg) as [| |b|x|s|items|props];
      try reflexivity. exfalso. apply Hno. now exists s.
Qed.
End WithRuntime.
End ConfigFacts.

(* ------------------------------------------------------------------ *)
Module ConfigClaims.
Import Js Config Spec JsFacts ConfigFacts.

(** C6 (amended). Parsing a settings object fails whenever the object has
    an unrecognized key, and whenever the string under [pythonPath],
    [athenaProjectDir] or [sseUrl] refers to an environment variable that
    is unset and whose name [process.env] inherits nothing under. When
    parsing succeeds, each of these three settings is its input with the
    references resolved, a reference to a variable that is set being
    replaced by its value with the text around it kept, and [toolPrefix]
    is its input as written, references included. *)
Theorem parse_unknown_key_or_unset_reference_fails (rt : Runtime)
    (cfg : list (jsstr * value)) :
  (has_unrecognized_key cfg -> exists e, parse rt (VObj cfg) = Throw e)
  /\ (forall key s name,
        In key interpolated_keys -> field key cfg = VStr s ->
        In name (references s) -> unset rt name -> not_inherited rt name ->
        exists e, parse rt (VObj cfg) = Throw e)
  /\ (forall c, parse rt (VObj cfg) = Ok c ->
        (forall key s,
            In key interpolated_keys -> field key cfg = VStr s ->
            resolveEnvVars rt s = Ok (setting key c))
        /\ (forall (key pre name post val : jsstr),
              In key interpolated_keys ->
              field key cfg = VStr (pre ++ reference name ++ post) ->
              ~ In 36%N pre -> name <> [] -> ~ In 125%N name ->
              ~ In 36%N post ->
              process_env rt name = Some val ->
              val <> [] /\ setting key c = pre ++ val ++ post)
        /\ (forall s, field (lit "toolPrefix") cfg = VStr s -> toolPrefix c = s)).
Proof.
  assert (Hresolved : forall c, parse rt (VObj cfg) = Ok c ->
             forall key s,
               In key interpolated_keys -> field key cfg = VStr s ->
               resolveEnvVars rt s = Ok (setting key c)).
  { intros c E key s Hkey Hfield.
    apply parse_returns_inv in E as [_ [Hpp [Hdir [Hurl _]]]].
    simpl in Hkey. destruct Hkey as [<-|[<-|[<-|[]]]]; auto. }
  split; [|split].
  - intros [key [Hin Hbad]].
    destruct (parse rt (VObj cfg)) as [c|e] eqn:E; [|eauto].
    apply parse_returns_inv in E as [Hkeys _]. exfalso. auto.
  - intros key s name Hkey Hfield Hin Hunset Hproto.
    destruct (parse rt (VObj cfg)) as [c|e] eqn:E; [|eauto]. exfalso.
    destruct (resolveEnvVars_unset rt s name Hin Hunset Hproto) as [e He].
    specialize (Hresolved c eq_refl key s Hkey Hfield). congruence.
  - intros c E. split; [exact (Hresolved c E)|]. split.
    + intros key pre name post val Hkey Hfield Hpre Hne Hname Hpost Henv.
      specialize (Hresolved c E key _ Hkey Hfield).
      destruct val as [|x val].
      * exfalso.
        destruct (resolveEnvVars_empty rt pre name post Hpre Hne Hname Henv)
          as [e He].
        assert (Hsame : Ok (setting key c) = @Throw jsstr e).
        { etransitivity; [symmetry; exact Hresolved | exact He]. }
        discriminate Hsame.
      * split; [discriminate|].
        destruct (resolveEnvVars_plain rt post Hpost) as [Hplain _].
        pose proof (resolveEnvVars_interpolates rt pre name post x val post
                      Hpre Hne Hname Henv Hplain) as Hvalue.
        assert (Hsame : Ok (setting key c) = Ok (pre ++ (x :: val) ++ post)).
        { etransitivity; [symmetry; exact Hresolved | exact Hvalue]. }
        now injection Hsame.
    + apply parse_returns_inv in E. tauto.
Qed.

(** The theorem of C6 on an object with an unknown key, on a reference to
    a variable that is not set, on [${HOME}/athena] with
    [HOME=/home/user], and on a reference in [toolPrefix]. *)
Lemma parse_unknown_key_or_unset_reference_fails_witness :
  (exists e, parse (Sample.runtime Sample.no_json Sample.empty_env)
               (VObj Sample.cfg_bad) = Throw e)
  /\ (exists e, parse (Sample.runtime Sample.no_json Sample.empty_env)
                  (VObj Sample.cfg_unset_reference) = Throw e)
  /\ (exists c, parse (Sample.runtime Sample.no_json Sample.home_env)
                  (VObj Sample.cfg_good) = Ok c
                /\ athenaProjectDir c = lit "/home/user/athena")
  /\ (exists c, parse (Sample.runtime Sample.no_json Sample.empty_env)
                  (VObj Sample.cfg_prefix_reference) = Ok c
                /\ toolPrefix c = lit "${UNSET}").
Proof.
  split; [|split; [|split]].
  - apply (proj1 (parse_unknown_key_or_unset_reference_fails
                    (Sample.runtime Sample.no_json Sample.empty_env)
                    Sample.cfg_bad)).
    exists (lit "bogus"). split; [vm_compute; auto|].
    intros Hin. simpl in Hin.
    repeat (destruct Hin as [Hin|Hin]; [discriminate Hin|]). exact Hin.
  - apply (proj1 (proj2 (parse_unknown_key_or_unset_reference_fails
                           (Sample.runtime Sample.no_json Sample.empty_env)
                           Sample.cfg_unset_reference))
             (lit "pythonPath") (lit "${NOPE}/bin/python") (lit "NOPE")).
    + now left.
    + reflexivity.
    + vm_compute. auto.
    + reflexivity.
    + reflexivity.
  - destruct (parse (Sample.runtime Sample.no_json Sample.home_env)
                (VObj Sample.cfg_good)) as [c|e] eqn:E;
      [|vm_compute in E; discriminate E].
    exists c. split; [reflexivity|].
    apply (proj1 (proj2 (proj2 (proj2 (parse_unknown_key_or_unset_reference_fails
                                         (Sample.runtime Sample.no_json
                                            Sample.home_env)
                                         Sample.cfg_good)) c E))
             (lit "athenaProjectDir") [] (lit "HOME") (lit "/athena")
             (lit "/home/user")).
    + right. now left.
    + reflexivity.
    + intros [].
    + discriminate.
    + vm_compute. intuition discriminate.
    + vm_compute. intuition discriminate.
    + reflexivity.
  - destruct (parse (Sample.runtime Sample.no_json Sample.empty_env)
                (VObj Sample.cfg_prefix_reference)) as [c|e] eqn:E;
      [|vm_compute in E; discriminate E].
    exists c. split; [reflexivity|].
    apply (proj2 (proj2 (proj2 (proj2 (parse_unknown_key_or_unset_reference_fails
                                         (Sample.runtime Sample.no_json
                                            Sample.empty_env)
                                         Sample.cfg_prefix_reference)) c E))
             (lit "${UNSET}")).
    reflexivity.
Defined.

(** The name of a property that [process.env] inherits is not the name of
    an unset variable to [resolveEnvVars]: with no variable set,
    [{ pythonPath: "${toString}" }] parses, and the interpreter is the
    text of the inherited function. *)
Lemma parse_resolves_inherited_name :
  unset (Sample.runtime Sample.no_json Sample.empty_env) (lit "toString")
  /\ exists c,
      parse (Sample.runtime Sample.no_json Sample.empty_env)
        (VObj Sample.cfg_inherited_reference) = Ok c
      /\ pythonPath c = lit "function toString() { [native code] }".
Proof. split; [reflexivity|]. eexists. split; reflexivity. Qed.

(** C6 as stated fails on [toolPrefix]: [{ toolPrefix: "${UNSET}" }]
    parses although [UNSET] is not set. *)
Lemma toolPrefix_reference_is_not_resolved :
  ~ unset_reference_is_fatal (Sample.runtime Sample.no_json Sample.empty_env)
      (lit "toolPrefix").
Proof.
  intros H.
  destruct (H Sample.cfg_prefix_reference (lit "${UNSET}") (lit "UNSET"))
    as [e He].
  - reflexivity.
  - vm_compute. auto.
  - reflexivity.
  - vm_compute in He. discriminate He.
Qed.

(** C10 (amended). On a settings object with recognized keys only, in
    which every variable that [pythonPath], [athenaProjectDir] or [sseUrl]
    refers to is set to a non-empty string, parsing succeeds whatever the
    types of the values: [transport] is [sse] exactly when the input is
    the string ["sse"] and [stdio] otherwise, [enabled] is true exactly
    when the input is the boolean [true], and a [pythonPath],
    [athenaProjectDir], [sseUrl] or [toolPrefix] that is not a string
    becomes its default. *)
Theorem parse_accepts_any_value_types (rt : Runtime) (cfg : list (jsstr * value)) :
  (forall key, In key (keys cfg) -> In key allowed_keys) ->
  (forall key s name,
      In key interpolated_keys -> field key cfg = VStr s ->
      In name (references s) ->
      exists c v, process_env rt name = Some (c :: v)) ->
  exists c,
    parse rt (VObj cfg) = Ok c
    /\ (transport c = sse <-> field (lit "transport") cfg = VStr (lit "sse"))
    /\ (transport c = stdio <-> field (lit "transport") cfg <> VStr (lit "sse"))
    /\ (enabled c = true <-> field (lit "enabled") cfg = VBool true)
    /\ (~ is_string (field (lit "pythonPath") cfg) ->
        pythonPath c = DEFAULT_PYTHON_PATH)
    /\ (~ is_string (field (lit "athenaProjectDir") cfg) ->
        athenaProjectDir c = resolveDefaultAthenaProjectDir rt)
    /\ (~ is_string (field (lit "sseUrl") cfg) -> sseUrl c = DEFAULT_SSE_URL)
    /\ (~ is_string (field (lit "toolPrefix") cfg) ->
        toolPrefix c = DEFAULT_TOOL_PREFIX).
Proof.
  intros Hkeys Hset.
  destruct (parse_returns rt cfg Hkeys) as [c [Hc [Ht [He [H1 [H2 [H3 H4]]]]]]].
  { intros key s Hkey Hfield. apply resolveEnvVars_set.
    intros name Hin. eapply Hset; eassumption. }
  exists c. repeat split; try tauto.
  - intros Hs E. apply Ht in E. congruence.
  - intros Hne. destruct (transport c); [reflexivity|].
    exfalso. apply Hne. now apply Ht.
Qed.

(** The theorem of C10 at [{ transport: "sse", enabled: true,
    athenaProjectDir: "${HOME}/athena", sseUrl: 8765 }] with
    [HOME=/home/user]. *)
Lemma parse_accepts_any_value_types_witness :
  exists c,
    parse (Sample.runtime Sample.no_json Sample.home_env) (VObj Sample.cfg_good)
    = Ok c
    /\ transport c = sse /\ enabled c = true
    /\ sseUrl c = DEFAULT_SSE_URL /\ pythonPath c = DEFAULT_PYTHON_PATH.
Proof.
  destruct (parse_accepts_any_value_types
              (Sample.runtime Sample.no_json Sample.home_env) Sample.cfg_good)
    as [c [Hc [Ht [_ [He [Hpp [_ [Hurl _]]]]]]]].
  - intros key Hin. simpl in Hin. simpl.
    repeat (destruct Hin as [<-|Hin]; [tauto|]). contradiction.
  - intros key s name Hkey Hfield Hin. simpl in Hkey.
    destruct Hkey as [<-|[<-|[<-|[]]]]; vm_compute in Hfield;
      try discriminate Hfield.
    injection Hfield as <-. vm_compute in Hin. destruct Hin as [<-|[]].
    vm_compute. eauto.
  - exists c. split; [exact Hc|]. split; [now apply Ht|]. split; [now apply He|].
    split.
    + apply Hurl. intros [s Hs]. vm_compute in Hs. discriminate Hs.
    + apply Hpp. intros [s Hs]. vm_compute in Hs. discriminate Hs.
Defined.

(** C10 as stated fails on a variable that is set to the empty string:
    with [EMPTY=], [{ pythonPath: "${EMPTY}" }] has recognized keys only
    and refers to no unset variable, and parsing throws. *)
Lemma parse_rejects_empty_variable :
  ~ parse_accepts_when_nothing_unset
      (Sample.runtime Sample.no_json Sample.home_env) Sample.cfg_empty_reference.
Proof.
  intros H. destruct H as [c Hc].
  - intros key Hin. simpl in Hin. destruct Hin as [<-|[]]. simpl. tauto.
  - intros key s name Hkey Hfield Hin Hunset. simpl in Hkey.
    destruct Hkey as [<-|[<-|[<-|[<-|[]]]]]; vm_compute in Hfield;
      try discriminate Hfield.
    injection Hfield as <-. vm_compute in Hin. destruct Hin as [<-|[]].
    vm_compute in Hunset. discriminate Hunset.
  - vm_compute in Hc. discriminate Hc.
Qed.

End ConfigClaims.

(* ------------------------------------------------------------------ *)
Module ClientFacts.
Import Js Client Spec JsFacts.

(** Unfolds the operations of the session down to the world they act on. *)
Ltac run :=
  cbv beta delta [connect connectStdio connectSSE callTool disconnect
                  sdk_connect sdk_callTool sdk_close
                  bind ret throw try_catch lift emit this update
                  set_client set_transport set_connected].

Section WithSdk.
Variable rt : Runtime.
Variable sdk : Sdk.

Lemma connectStdio_spec w :
  connectStdio rt sdk w
  = let t := stdio_transport rt (config (session w)) in
    match on_connect sdk (trace w) the_client t with
    | None => (Ok tt, attempted w t)
    | Some e => (Throw e, attempted w t)
    end.
Proof.
  run. cbv zeta. cbn [session trace client transport config connected].
  unfold attempted, stdio_transport. cbv zeta.
  destruct (on_connect sdk _ _ _); reflexivity.
Qed.

Lemma connectSSE_spec w :
  connectSSE rt sdk w
  = let t := sse_transport (config (session w)) in
    match URL_invalid rt (or_default (cfg_sseUrl (config (session w)))
                            (lit "http://localhost:8765")) with
    | Some e => (Throw e, w)
    | None =>
        match on_connect sdk (trace w) the_client t with
        | None => (Ok tt, attempted w t)
        | Some e => (Throw e, attempted w t)
        end
    end.
Proof.
  run. cbv zeta. cbn [session trace client transport config connected].
  destruct (URL_invalid rt _) as [e|]; [reflexivity|].
  cbn [session trace client transport config connected].
  unfold attempted, sse_transport.
  destruct (on_connect sdk _ _ _); reflexivity.
Qed.

(** A [connect()] that throws leaves the session disconnected and throws
    a [ConnectionError] that carries the cause. *)
Lemma connect_failure w e w' :
  connect rt sdk w = (Throw e, w') ->
  isConnected (session w') = false /\ exists cause, e = ConnectionError cause.
Proof.
  unfold connect, bind at 1, emit. unfold bind at 1, this.
  cbn [session trace].
  destruct (connected (session w)) eqn:Hc; [unfold ret; discriminate|].
  unfold try_catch, bind at 1.
  set (w1 := {| session := session w; trace := trace w ++ [Invoked_connect] |}).
  assert (Hstep : forall m : M unit,
             (forall r w2, m w1 = (r, w2) -> True) ->
             forall r w2, m w1 = (r, w2) ->
             match r with
             | Ok _ => set_connected true w2
             | Throw e0 =>
                 (bind (set_connected false)
                    (fun _ => throw (ConnectionError e0))) w2
             end = (Throw e, w') ->
             isConnected (session w') = false
             /\ exists cause, e = ConnectionError cause).
  { intros m _ r w2 _. destruct r as [[]|e0].
    - unfold set_connected, update. discriminate.
    - unfold bind, set_connected, update, throw. intros H.
      injection H as <- <-. split; [reflexivity | eauto]. }
  destruct (cfg_transport (config (session w)));
    [destruct (connectStdio rt sdk w1) as [r w2] eqn:E
    |destruct (connectSSE rt sdk w1) as [r w2] eqn:E];
    intros H; eapply (Hstep _ (fun _ _ _ => I) r w2 E);
    destruct r as [[]|e0]; exact H.
Qed.

(** A handshake that the SDK refuses: [connect()] throws the connection
    error and leaves the session with the client and the transport it
    has just created. *)
Lemma connect_refused w cause :
  connected (session w) = false ->
  (cfg_transport (config (session w)) = Config.sse ->
   URL_invalid rt (or_default (cfg_sseUrl (config (session w)))
                     (lit "http://localhost:8765")) = None) ->
  on_connect sdk (trace w ++ [Invoked_connect]) the_client
    (transport_of rt (config (session w))) = Some cause ->
  connect rt sdk w
  = (Throw (ConnectionError cause),
     {| session := {| client := Some the_client;
                      transport := Some (transport_of rt (config (session w)));
                      config := config (session w);
                      connected := false |};
        trace := (trace w ++ [Invoked_connect])
                   ++ [Sdk_connect the_client
                         (transport_of rt (config (session w)))] |}).
Proof.
  intros Hc Hurl Hrefused.
  unfold connect, bind at 1, emit. unfold bind at 1, this. cbn [session trace].
  rewrite Hc. unfold try_catch, bind at 1. unfold transport_of in *.
  destruct (cfg_transport (config (session w))).
  - rewrite connectStdio_spec. cbv zeta. cbn [session trace config].
    rewrite Hrefused. reflexivity.
  - rewrite connectSSE_spec. cbv zeta. cbn [session trace config].
    rewrite (Hurl eq_refl), Hrefused. reflexivity.
Qed.

Lemma connect_sound w : sound (session w) -> sound (session (snd (connect rt sdk w))).
Proof.
  intros Hs. unfold connect, bind at 1, emit. unfold bind at 1, this.
  cbn [session trace].
  destruct (connected (session w)) eqn:Hc.
  - unfold ret. cbn [snd session]. exact Hs.
  - unfold try_catch, bind at 1.
    set (w1 := {| session := session w; trace := trace w ++ [Invoked_connect] |}).
    destruct (cfg_transport (config (session w))).
    + rewrite connectStdio_spec. cbv zeta.
      destruct (on_connect sdk _ _ _); cbn; discriminate.
    + rewrite connectSSE_spec. cbv zeta.
      destruct (URL_invalid rt _); [cbn; discriminate|].
      destruct (on_connect sdk _ _ _); cbn; discriminate.
Qed.

Lemma callTool_session w name args :
  session (snd (callTool rt sdk name args w)) = session w.
Proof.
  run. cbn [session trace].
  destruct (client (session w)), (connected (session w)); try reflexivity.
  destruct (on_callTool sdk _ _ _) as [r|e]; [|reflexivity].
  destruct (mcp_content r); reflexivity.
Qed.

Lemma disconnect_sound w :
  sound (session w) -> sound (session (snd (disconnect sdk w))).
Proof.
  intros Hs. run. cbn [session trace].
  destruct (client (session w)) eqn:Hcl.
  - destruct (on_close sdk _).
    + cbn. unfold sound. rewrite Hcl. discriminate.
    + cbn. discriminate.
  - cbn. discriminate.
Qed.

Lemma reachable_sound w : reachable rt sdk w -> sound (session w).
Proof.
  induction 1 as [cfg|w _ IH|w name args _ IH|w _ IH|w e _ IH].
  - discriminate.
  - now apply connect_sound.
  - now rewrite callTool_session.
  - now apply disconnect_sound.
  - exact IH.
Qed.

Lemma disconnect_session w :
  isConnected (session (snd (disconnect sdk w))) = false
  \/ session (snd (disconnect sdk w)) = session w.
Proof.
  run. cbn [session trace].
  destruct (client (session w)); [destruct (on_close sdk _)|]; cbn; auto.
Qed.

Lemma never_connected_disconnected w :
  never_connected rt sdk w -> isConnected (session w) = false.
Proof.
  induction 1 as [cfg|w e w' _ IH Hc|w name args _ IH|w _ IH|w e _ IH].
  - reflexivity.
  - now apply connect_failure in Hc.
  - now rewrite callTool_session.
  - destruct (disconnect_session w) as [H|H]; [assumption | now rewrite H].
  - exact IH.
Qed.

(** What [callTool] does on a session that is not connected. *)
Lemma callTool_disconnected w name args :
  isConnected (session w) = false ->
  callTool rt sdk name args w
  = (Throw NotConnectedError,
     {| session := session w; trace := trace w ++ [Invoked_callTool name args] |}).
Proof.
  unfold isConnected. intros H. run. cbn [session trace]. rewrite H.
  destruct (client (session w)); reflexivity.
Qed.

(** What [callTool] does on a session that is connected. *)
Lemma callTool_connected w name args :
  sound (session w) -> isConnected (session w) = true ->
  let w1 := {| session := session w;
               trace := trace w ++ [Invoked_callTool name args] |} in
  let w2 := {| session := session w;
               trace := trace w1 ++ [Sdk_callTool name args] |} in
  callTool rt sdk name args w
  = (Ok match on_callTool sdk (trace w1) name args with
        | Ok {| mcp_content := Some blocks; mcp_isError := flag |} =>
            {| content := map (convert_block rt) blocks; isError := flag |}
        | Ok {| mcp_content := None |} =>
            {| content :=
                 [ {| text := lit "Error: "
                        ++ exn_toString
                             (TypeError
                                (lit "Cannot read properties of undefined (reading 'map')")) |} ];
               isError := Some true |}
        | Throw fault =>
            {| content := [ {| text := lit "Error: " ++ exn_toString fault |} ];
               isError := Some true |}
        end, w2).
Proof.
  unfold isConnected. intros Hs Hc. specialize (Hs Hc).
  run. cbn [session trace]. rewrite Hc.
  destruct (client (session w)); [|congruence].
  destruct (on_callTool sdk _ _ _) as [[[blocks|] flag]|fault]; reflexivity.
Qed.
End WithSdk.
End ClientFacts.

(* ------------------------------------------------------------------ *)
Module ClientClaims.
Import Js Client Spec JsFacts ClientFacts.

(** C4, at the failing input: a stdio session whose handshake is refused.
    [connect()] throws the connection error with its cause and the session
    is not connected, but the client and the transport it created stay
    assigned. The same holds on every session that is not connected, for
    either transport, whenever the SDK refuses the handshake. *)
Theorem connect_failure_keeps_handles :
  (let (r, w) := connect Sample.plain_runtime Sample.unreachable_server
                   (initial Sample.stdio_config) in
   r = Throw (ConnectionError Sample.spawn_failure)
   /\ isConnected (session w) = false
   /\ client (session w) = Some the_client
   /\ transport (session w)
      = Some (StdioClientTransport (lit "python3")
                [lit "-m"; lit "athena.mcp_server"]
                (lit "/srv/athena") (lit "/srv/athena/src"))
   /\ ~ holds_no_handle (session w))
  /\ forall rt sdk w cause,
       connected (session w) = false ->
       (cfg_transport (config (session w)) = Config.sse ->
        URL_invalid rt (or_default (cfg_sseUrl (config (session w)))
                          (lit "http://localhost:8765")) = None) ->
       on_connect sdk (trace w ++ [Invoked_connect]) the_client
         (transport_of rt (config (session w))) = Some cause ->
       fst (connect rt sdk w) = Throw (ConnectionError cause)
       /\ isConnected (session (snd (connect rt sdk w))) = false
       /\ client (session (snd (connect rt sdk w))) = Some the_client
       /\ transport (session (snd (connect rt sdk w)))
          = Some (transport_of rt (config (session w)))
       /\ ~ holds_no_handle (session (snd (connect rt sdk w))).
Proof.
  split.
  - vm_compute. repeat split. intros [H _]. discriminate H.
  - intros rt sdk w cause Hc Hurl Hrefused.
    rewrite (connect_refused rt sdk w cause Hc Hurl Hrefused).
    cbn [fst snd session client transport connected isConnected].
    repeat split. intros [H _]. discriminate H.
Qed.

(** C5. On every connected session, for every tool name and argument
    object, [callTool] returns a result and throws nothing; when the call
    to the server faults, the result has the error flag set and exactly
    one text block, which renders the fault. *)
Theorem callTool_never_throws (rt : Runtime) (sdk : Sdk) (w : World)
    (name : jsstr) (args : value) :
  reachable rt sdk w -> isConnected (session w) = true ->
  exists r w',
    callTool rt sdk name args w = (Ok r, w')
    /\ session w' = session w
    /\ forall fault,
         on_callTool sdk (trace w ++ [Invoked_callTool name args]) name args
         = Throw fault ->
         isError r = Some true
         /\ content r = [ {| text := lit "Error: " ++ exn_toString fault |} ]
         /\ length (content r) = 1.
Proof.
  intros Hr Hc. apply reachable_sound in Hr.
  rewrite (callTool_connected rt sdk w name args Hr Hc). cbv zeta. cbn [trace].
  eexists. eexists. split; [reflexivity|]. split; [reflexivity|].
  intros fault Hf. rewrite Hf. cbn. auto.
Qed.

(** The theorem of C5 on a session connected to a server that faults on
    every tool call. *)
Lemma callTool_never_throws_witness :
  exists r w',
    callTool Sample.plain_runtime Sample.faulty_server (lit "smart_search") VNull
      (snd (connect Sample.plain_runtime Sample.faulty_server
              (initial Sample.stdio_config)))
    = (Ok r, w')
    /\ isError r = Some true /\ length (content r) = 1.
Proof.
  destruct (callTool_never_throws Sample.plain_runtime Sample.faulty_server
              (snd (connect Sample.plain_runtime Sample.faulty_server
                      (initial Sample.stdio_config)))
              (lit "smart_search") VNull)
    as [r [w' [Hcall [_ Hfault]]]].
  - apply reach_connect, reach_new.
  - reflexivity.
  - exists r, w'. split; [exact Hcall|].
    destruct (Hfault (Error (lit "Request timed out")) eq_refl) as [He [_ Hl]].
    split; assumption.
Defined.

(** C9. On every session on which no [connect()] has completed, whatever
    was called on it before, [callTool] throws the not-connected error; it
    calls neither [connect] nor the SDK, and it leaves the session as it
    was. *)
Theorem callTool_before_connect_throws (rt : Runtime) (sdk : Sdk) (w : World)
    (name : jsstr) (args : value) :
  never_connected rt sdk w ->
  callTool rt sdk name args w
  = (Throw NotConnectedError,
     {| session := session w; trace := trace w ++ [Invoked_callTool name args] |})
  /\ isConnected (session w) = false.
Proof.
  intros H. apply never_connected_disconnected in H.
  split; [now apply callTool_disconnected | assumption].
Qed.

(** The theorem of C9 on a new session, and on one whose [connect()] has
    failed. *)
Lemma callTool_before_connect_throws_witness :
  fst (callTool Sample.plain_runtime (Sample.server (Sample.text_reply []))
         (lit "quicksave") VNull (initial Sample.stdio_config))
  = Throw NotConnectedError
  /\ fst (callTool Sample.plain_runtime Sample.unreachable_server
            (lit "quicksave") VNull
            (snd (connect Sample.plain_runtime Sample.unreachable_server
                    (initial Sample.stdio_config))))
     = Throw NotConnectedError.
Proof.
  assert (Hfailed : never_connected Sample.plain_runtime Sample.unreachable_server
                      (snd (connect Sample.plain_runtime Sample.unreachable_server
                              (initial Sample.stdio_config)))).
  { apply (@never_failed_connect Sample.plain_runtime Sample.unreachable_server
             (initial Sample.stdio_config) (ConnectionError Sample.spawn_failure));
      [apply never_new | reflexivity]. }
  split.
  - rewrite (proj1 (callTool_before_connect_throws Sample.plain_runtime
                      (Sample.server (Sample.text_reply []))
                      (initial Sample.stdio_config) (lit "quicksave") VNull
                      (never_new _ _ _))).
    reflexivity.
  - rewrite (proj1 (callTool_before_connect_throws Sample.plain_runtime
                      Sample.unreachable_server _ (lit "quicksave") VNull Hfailed)).
    reflexivity.
Defined.

End ClientClaims.

(* ------------------------------------------------------------------ *)
Module AnalyzerFacts.
Import Js Plugin Spec JsFacts.

Lemma count_loop (messages : list value) (count : nat) :
  fold_left
    (fun userMessageCount msg =>
       if negb (is_object msg) then userMessageCount
       else if role_is_user msg then S userMessageCount
       else userMessageCount)
    messages count
  = count + user_messages messages.
Proof.
  unfold user_messages. revert count.
  induction messages as [|msg rest IH]; intros count; simpl; [lia|].
  rewrite IH. unfold is_user_message.
  destruct (is_object msg), (role_is_user msg); simpl; lia.
Qed.

Lemma hasEnoughExchanges_counts (messages : list value) :
  hasEnoughExchanges messages = (2 <=? user_messages messages).
Proof. unfold hasEnoughExchanges. now rewrite count_loop. Qed.

(** A loop whose state is already a throw stays one. *)
Lemma fold_thrown {A B} (step : A -> B -> result A) (xs : list B) (e : exn) :
  fold_left (fun acc x => rbind acc (fun a => step a x)) xs (Throw e) = Throw e.
Proof. induction xs as [|x xs IH]; simpl; [reflexivity | exact IH]. Qed.




Section WithRuntime.
Variable rt : Runtime.

Lemma append_blocks_loop (suffix : jsstr) (blocks : list value) (text : jsstr) :
~ In VNull blocks ->
fold_left
  (fun acc block =>
     rbind acc (fun text =>
     if typeof_object block then
       rbind (has_property (lit "text") block) (fun present =>
       if present
       then Ok (text ++ ToString rt (member block (lit "text")) ++ suffix)
       else Ok text)
     else Ok text))
  blocks (Ok text)
= Ok (text ++ concat (map (block_text rt suffix) blocks)).
Proof.
revert text. induction blocks as [|block rest IH]; intros text Hnull.
- simpl. now rewrite app_nil_r.
- cbn [fold_left map concat rbind].
  assert (Hrest : ~ In VNull rest) by (intros H; apply Hnull; now right).
  destruct block as [| |b|x|s|items|props];
    cbn [typeof_object has_property rbind block_text member field app];
    try exact (IH text Hrest).
  + exfalso. apply Hnull. now left.
  + unfold field. destruct (lookup (lit "text") props) as [v|].
    * rewrite IH by assumption. now rewrite <- !app_assoc.
    * now apply IH.
Qed.

Lemma append_blocks_returns (suffix : jsstr) (blocks : list value) :
~ In VNull blocks ->
append_blocks rt suffix blocks = Ok (concat (map (block_text rt suffix) blocks)).
Proof. intros H. unfold append_blocks. now rewrite append_blocks_loop. Qed.

Lemma append_blocks_loop_throws (suffix : jsstr) (blocks : list value)
  (acc : result jsstr) :
In VNull blocks ->
exists e,
  fold_left
    (fun acc block =>
       rbind acc (fun text =>
       if typeof_object block then
         rbind (has_property (lit "text") block) (fun present =>
         if present
         then Ok (text ++ ToString rt (member block (lit "text")) ++ suffix)
         else Ok text)
       else Ok text))
    blocks acc
  = Throw e.
Proof.
revert acc. induction blocks as [|block rest IH]; intros acc; [contradiction|].
intros [->|Hin].
- cbn [fold_left]. destruct acc as [text|e]; cbn [rbind typeof_object has_property];
    rewrite fold_thrown; eauto.
- cbn [fold_left]. now apply IH.
Qed.

(** A [null] block makes the loop over the blocks throw. *)
Lemma append_blocks_throws (suffix : jsstr) (blocks : list value) :
In VNull blocks -> exists e, append_blocks rt suffix blocks = Throw e.
Proof. apply append_blocks_loop_throws. Qed.


Lemma facts_text_returns (msg : value) :
(forall blocks, member msg (lit "content") = VArr blocks -> ~ In VNull blocks) ->
facts_text rt (member msg (lit "content"))
= Ok (content_text rt (lit " ") (member msg (lit "content"))).
Proof.
unfold facts_text, content_text. intros H.
destruct (member msg (lit "content")) as [| |b|x|s|blocks|props];
  try reflexivity.
now apply append_blocks_returns, H.
Qed.




Lemma is_user_message_inv (msg : value) :
is_user_message msg = true -> is_object msg = true /\ role_is_user msg = true.
Proof. unfold is_user_message. intros H. now apply andb_true_iff in H. Qed.

(** A [null] block in a user message makes [generateSummary] throw. *)
Lemma generateSummary_throws (messages : list value) (msg : value)
  (blocks : list value) :
In msg messages -> is_user_message msg = true ->
member msg (lit "content") = VArr blocks -> In VNull blocks ->
exists e, generateSummary rt messages = Throw e.
Proof.
intros Hin Huser Hcontent Hnull. unfold generateSummary.
apply is_user_message_inv in Huser as [Hobj Hrole].
destruct (append_blocks_throws [] blocks Hnull) as [e0 He0].
assert (H : forall acc, exists e,
           fold_left (fun acc msg => rbind acc (fun st => summary_step rt st msg))
             messages acc = Throw e).
{ induction messages as [|m rest IH]; [contradiction|]. intros acc.
  destruct Hin as [->|Hin]; [|cbn [fold_left]; now apply IH].
  cbn [fold_left]. destruct acc as [st|e]; cbn [rbind].
  - unfold summary_step. rewrite Hobj, Hrole, Hcontent. cbn [negb summary_text].
    rewrite He0. cbn [rbind]. rewrite fold_thrown. eauto.
  - rewrite fold_thrown. eauto. }
destruct (H (Ok ([], []))) as [e ->]. cbn [rbind]. eauto.
Qed.


Lemma push_matches_appends (facts : list jsstr) (text : jsstr) :
push_matches facts text = facts ++ first_matches text.
Proof.
unfold push_matches, first_matches. revert facts.
induction patterns as [|p ps IH]; intros facts; simpl;
  [now rewrite app_nil_r|].
rewrite IH. destruct (Regex.match_ p text); [|reflexivity].
now rewrite <- app_assoc.
Qed.

Lemma facts_loop (messages : list value) (facts : list jsstr) :
no_null_block messages ->
fold_left (fun acc msg => rbind acc (fun facts => facts_step rt facts msg))
  messages (Ok facts)
= Ok (facts ++ candidate_facts rt messages).
Proof.
revert facts. induction messages as [|msg rest IH]; intros facts Hnull.
- simpl. now rewrite app_nil_r.
- assert (Hrest : no_null_block rest).
  { intros m blocks Hin. apply Hnull. now right. }
  cbn [fold_left rbind]. unfold candidate_facts, facts_step. cbn [filter].
  unfold is_user_message at 1.
  destruct (is_object msg) eqn:Hobj; cbn [negb andb];
    [|now apply IH].
  destruct (role_is_user msg) eqn:Hrole; cbn [negb]; [|now apply IH].
  rewrite facts_text_returns.
  2:{ intros blocks. apply Hnull; [now left|].
      unfold is_user_message. now rewrite Hobj, Hrole. }
  cbn [rbind flat_map]. rewrite push_matches_appends, IH by assumption.
  now rewrite <- app_assoc.
Qed.

(** A [null] block in a user message makes [extractKeyFacts] throw. *)
Lemma extractKeyFacts_throws (messages : list value) (msg : value)
  (blocks : list value) :
In msg messages -> is_user_message msg = true ->
member msg (lit "content") = VArr blocks -> In VNull blocks ->
exists e, extractKeyFacts rt messages = Throw e.
Proof.
intros Hin Huser Hcontent Hnull. unfold extractKeyFacts.
apply is_user_message_inv in Huser as [Hobj Hrole].
destruct (append_blocks_throws (lit " ") blocks Hnull) as [e0 He0].
assert (H : forall acc, exists e,
           fold_left (fun acc msg => rbind acc (fun facts => facts_step rt facts msg))
             messages acc = Throw e).
{ induction messages as [|m rest IH]; [contradiction|]. intros acc.
  destruct Hin as [->|Hin]; [|cbn [fold_left]; now apply IH].
  cbn [fold_left]. destruct acc as [facts|e]; cbn [rbind].
  - unfold facts_step. rewrite Hobj, Hrole, Hcontent. cbn [negb facts_text].
    rewrite He0. cbn [rbind]. rewrite fold_thrown. eauto.
  - rewrite fold_thrown. eauto. }
destruct (H (Ok [])) as [e ->]. cbn [rbind]. eauto.
Qed.

(** What [extractKeyFacts] returns on messages without a [null] block:
  the first five distinct candidate facts. *)
Lemma extractKeyFacts_returns (messages : list value) :
no_null_block messages ->
extractKeyFacts rt messages
= Ok (firstn 5 (unique (candidate_facts rt messages))).
Proof.
intros Hnull. unfold extractKeyFacts. now rewrite facts_loop.
Qed.


End WithRuntime.
End AnalyzerFacts.

(* ------------------------------------------------------------------ *)
Module AnalyzerClaims.
Import Js Plugin Spec JsFacts AnalyzerFacts.




(** What [generateSummary] returns there. *)
Lemma generateSummary_of_blank_then_padded :
  generateSummary Sample.plain_runtime Sample.blank_then_padded
  = Ok (lit "first" ++ separator ++ lit "last").
Proof. reflexivity. Qed.

(** [generateSummary] throws on a [null] block, as [extractKeyFacts]
    does. *)
Lemma generateSummary_throws_on_null_block (rt : Runtime) :
  generateSummary rt Sample.null_block_message
  = Throw (TypeError (lit "Cannot use 'in' operator to search for 'text' in null")).
Proof. reflexivity. Qed.


(** [extractMessageTexts] has the guard the two functions above miss: a
    [null] block is skipped. *)
Lemma extractMessageTexts_skips_null_block :
  extractMessageTexts Sample.null_block_message = [].
Proof. reflexivity. Qed.

(** The conversation of Sam yields the identity match and the reminder
    match. *)
Lemma extractKeyFacts_of_sam :
  extractKeyFacts Sample.plain_runtime Sample.sam_messages
  = Ok [lit "My name"; lit "Remember "].
Proof. reflexivity. Qed.

End AnalyzerClaims.

(* ------------------------------------------------------------------ *)
Module HookFacts.
Import Js Client Plugin Spec JsFacts ClientFacts AnalyzerFacts.

Section WithSdk.
Variable rt : Runtime.
Variable sdk : Sdk.

Lemma connect_adds (w : World) :
exists delta,
  trace (snd (connect rt sdk w)) = trace w ++ Invoked_connect :: delta
  /\ forall e, In e delta -> is_any_tool_call e = false.
Proof.
unfold connect, bind at 1, emit. unfold bind at 1, this. cbn [session trace].
destruct (connected (session w)).
- exists []. split; [reflexivity | intros e []].
- unfold try_catch, bind at 1.
  set (w1 := {| session := session w; trace := trace w ++ [Invoked_connect] |}).
  assert (Hsdk : forall t ev, In ev [Sdk_connect the_client t] ->
                              is_any_tool_call ev = false).
  { intros t ev [<-|[]]. reflexivity. }
  destruct (cfg_transport (config (session w))).
  + rewrite connectStdio_spec. cbv zeta.
    destruct (on_connect sdk _ _ _); cbn; rewrite <- app_assoc;
      eexists; (split; [reflexivity | apply Hsdk]).
  + rewrite connectSSE_spec. cbv zeta.
    destruct (URL_invalid rt _).
    * cbn. exists []. split; [reflexivity | intros ev []].
    * destruct (on_connect sdk _ _ _); cbn; rewrite <- app_assoc;
        eexists; (split; [reflexivity | apply Hsdk]).
Qed.

Lemma disconnect_spec (w : World) :
disconnect sdk w
= let w1 := {| session := session w; trace := trace w ++ [Invoked_disconnect] |} in
  match client (session w) with
  | Some _ =>
      match on_close sdk (trace w1) with
      | None => (Ok tt, {| session := released (session w);
                           trace := trace w1 ++ [Sdk_close] |})
      | Some e => (Throw e, {| session := session w;
                               trace := trace w1 ++ [Sdk_close] |})
      end
  | None => (Ok tt, {| session := released (session w); trace := trace w1 |})
  end.
Proof.
run. cbv zeta. cbn [session trace]. unfold released.
destruct (client (session w)) eqn:Hcl; [destruct (on_close sdk _)|];
  cbn [session trace client transport config connected];
  rewrite ?Hcl; reflexivity.
Qed.

(** [disconnect()] in the [try]/[catch] of [agent_end]: whatever the SDK
  does, the handler returns, it has entered [disconnect], it has called
  no tool, and it has released the session unless [close()] faulted. *)
Lemma guarded_disconnect (w : World) (note : M unit) (r : result unit) (w' : World) :
(forall w0, exists l, note w0 = (Ok tt, {| session := session w0;
                                           trace := trace w0 ++ [Logged info l] |})) ->
try_catch (bind note (fun _ => disconnect sdk))
  (fun err =>
     bind (log warn (lit "memory-athena: agent_end error: " ++ exn_toString err))
       (fun _ => try_catch (disconnect sdk) (fun _ => ret tt))) w
= (r, w') ->
r = Ok tt
/\ (exists delta,
      trace w' = trace w ++ delta
      /\ In Invoked_disconnect delta
      /\ forall e, In e delta -> is_any_tool_call e = false)
/\ ((forall history, on_close sdk history = None) ->
    session w' = released (session w)).
Proof.
intros Hnote. unfold try_catch at 1, bind at 1.
destruct (Hnote w) as [l ->]. rewrite disconnect_spec. cbv zeta.
cbn [session trace].
assert (Hno : forall delta,
           Forall (fun e => is_any_tool_call e = false) delta ->
           forall e, In e delta -> is_any_tool_call e = false).
{ intros delta H. now apply Forall_forall. }
assert (Hdone : forall delta s,
           Forall (fun e => is_any_tool_call e = false) delta ->
           In Invoked_disconnect delta ->
           ((forall history, on_close sdk history = None) ->
            s = released (session w)) ->
           (Ok tt, {| session := s; trace := trace w ++ delta |}) = (r, w') ->
           r = Ok tt
           /\ (exists delta0,
                 trace w' = trace w ++ delta0
                 /\ In Invoked_disconnect delta0
                 /\ forall e, In e delta0 -> is_any_tool_call e = false)
           /\ ((forall history, on_close sdk history = None) ->
               session w' = released (session w))).
{ intros delta s Hd Hin Hs H. injection H as <- <-. cbn [session trace].
  split; [reflexivity|]. split; [|exact Hs].
  exists delta. split; [reflexivity|]. split; [exact Hin | now apply Hno]. }
destruct (client (session w)) eqn:Hcl.
- destruct (on_close sdk _) eqn:Hclose.
  + unfold bind, log, emit, try_catch, ret. rewrite disconnect_spec. cbv zeta.
    cbn [session trace]. rewrite Hcl.
    destruct (on_close sdk ((_ ++ [Logged warn _]) ++ _)) eqn:Hclose2;
      rewrite <- ?app_assoc; apply Hdone;
      try (repeat constructor);
      try (cbn; tauto);
      intros Hall; now rewrite Hall in Hclose.
  + rewrite <- ?app_assoc. apply Hdone;
      [repeat constructor | cbn; tauto | reflexivity].
- rewrite <- ?app_assoc. apply Hdone;
    [repeat constructor | cbn; tauto | reflexivity].
Qed.

Lemma connect_success (w w1 : World) :
connect rt sdk w = (Ok tt, w1) -> isConnected (session w1) = true.
Proof.
unfold connect, bind at 1, emit. unfold bind at 1, this. cbn [session trace].
destruct (connected (session w)) eqn:Hc.
- unfold ret. intros H. injection H as <-. exact Hc.
- unfold try_catch, bind at 1.
  destruct (cfg_transport (config (session w)));
    [rewrite connectStdio_spec | rewrite connectSSE_spec]; cbv zeta;
    try destruct (URL_invalid rt _); try destruct (on_connect sdk _ _ _);
    cbn; intros H; try discriminate H; now injection H as <-.
Qed.

Lemma results_of_payload (cs : list Candidate) :
results_of (payload cs) = Ok (VArr (map candidate_value cs)).
Proof. reflexivity. Qed.

(** The filter of the handler keeps the candidates above the threshold. *)
Lemma meaningful_of_candidates (cs : list Candidate) :
meaningful rt (VArr (map candidate_value cs))
= Ok (map candidate_value (filter relevant cs)).
Proof.
unfold meaningful. cbn [as_array rbind].
induction cs as [|c cs IH]; [reflexivity|].
cbn [map filter_result filter]. rewrite IH.
change (get (candidate_value c) (lit "rrf_score")) with (Ok (VNum (hit_rrf_score c))).
cbn [rbind]. change (gt rt (VNum (hit_rrf_score c)) 0.01) with (relevant c).
destruct (relevant c); reflexivity.
Qed.

(** [parseSearchResults] renders every candidate of the payload, whatever
  its score. *)
Lemma parseSearchResults_of_candidates (resultText : jsstr) (cs : list Candidate) :
JSON_parse rt resultText = Ok (payload cs) ->
parseSearchResults rt resultText = map (scored_line rt) cs.
Proof.
intros Hparse. unfold parseSearchResults. rewrite Hparse. cbn [rbind].
rewrite results_of_payload. cbn [rbind as_array].
assert (H : map_result (format_result rt) (map candidate_value cs)
            = Ok (map (scored_line rt) cs)).
{ clear Hparse. induction cs as [|c cs IH]; [reflexivity|].
  cbn [map map_result]. rewrite IH. reflexivity. }
now rewrite H.
Qed.

(** A score of 0.25 renders as 25.0 percent and one of 0.5 as 50.0. *)
Lemma scored_line_percentages :
toFixed1 rt (PrimFloat.mul 0.25 100) = lit "25.0"
/\ toFixed1 rt (PrimFloat.mul 0.5 100) = lit "50.0".
Proof. split; reflexivity. Qed.

(** What the turn-start handler returns on a prompt of more than ten
  characters when the handshake succeeds and the search replies with
  the JSON text of a candidate list: nothing when no candidate passes
  the threshold, and otherwise the header followed by the scored line of
  every candidate of the reply. *)
Lemma before_agent_start_recall (w : World) (event : StartEvent)
  (p resultText : jsstr) (cs : list Candidate) :
sound (session w) ->
prompt event = VStr p -> 10 < length p ->
fst (connect rt sdk w) = Ok tt ->
(forall history,
    on_callTool sdk history (lit "smart_search") (search_args p)
    = Ok {| mcp_content := Some [McpText resultText]; mcp_isError := None |}) ->
JSON_parse rt resultText = Ok (payload cs) ->
fst (before_agent_start rt sdk event w)
= Ok (if existsb relevant cs
      then Some (context_header ++ join [10%N] (map (scored_line rt) cs))
      else None).
Proof.
intros Hsound Hprompt Hlen Hconnect Hreply Hparse.
pose proof (connect_sound rt sdk w Hsound) as Hsound1.
unfold before_agent_start, try_catch, bind at 1.
destruct (connect rt sdk w) as [r w1] eqn:Hc. cbn [fst snd] in *. subst r.
apply connect_success in Hc. rewrite Hprompt.
assert (Hp : has_prompt rt (VStr p) = true).
{ destruct p; [simpl in Hlen; lia | reflexivity]. }
unfold bind at 1, log at 1, emit at 1. rewrite Hp. cbv zeta. cbn [ToString].
apply Nat.ltb_lt in Hlen. rewrite Hlen.
unfold bind at 1, log at 1, emit at 1. unfold bind at 1.
rewrite callTool_connected by assumption. cbv zeta. cbn [session trace].
rewrite Hreply. cbn [map convert_block content isError text].
unfold bind at 1, lift at 1. rewrite Hparse.
unfold bind at 1, lift at 1. rewrite results_of_payload.
unfold bind at 1, lift at 1. rewrite meaningful_of_candidates.
rewrite length_map, (parseSearchResults_of_candidates _ _ Hparse).
assert (Hex : (0 <? length (filter relevant cs)) = existsb relevant cs).
{ clear. induction cs as [|c cs IH]; [reflexivity|]. cbn [filter existsb].
  destruct (relevant c); [reflexivity | exact IH]. }
rewrite Hex. destruct (existsb relevant cs); reflexivity.
Qed.
End WithSdk.
End HookFacts.

(* ------------------------------------------------------------------ *)
Module HookClaims.
Import Js Client Plugin Spec JsFacts ClientFacts AnalyzerFacts HookFacts.





(** On that server the handler returns all the same, and the session
    keeps its client. *)
Lemma agent_end_on_unclosable_server :
  exists w',
    agent_end Sample.plain_runtime Terms.unclosable_server Sample.one_message_end
      (Terms.connected_world Terms.unclosable_server)
    = (Ok tt, w')
    /\ isConnected (session w') = true
    /\ client (session w') = Some the_client
    /\ trace w'
       = trace (Terms.connected_world Terms.unclosable_server)
         ++ [skipping_capture; Invoked_disconnect; Sdk_close;
             agent_end_warning Sample.spawn_failure; Invoked_disconnect;
             Sdk_close].
Proof. eexists. repeat split. Qed.

(** C3 (amended). On every turn-start event whose prompt is absent, empty
    or at most ten characters long, the handler calls no tool and returns
    no instruction; it enters [connect()] first all the same, before it
    looks at the prompt. *)
Theorem before_agent_start_short_prompt (rt : Runtime) (sdk : Sdk) (w : World)
    (event : StartEvent) :
  short_prompt (prompt event) ->
  exists w',
    before_agent_start rt sdk event w = (Ok None, w')
    /\ exists delta,
        trace w' = trace w ++ Invoked_connect :: delta
        /\ forall e, In e delta -> is_any_tool_call e = false.
Proof.
  intros Hshort. unfold before_agent_start, try_catch, bind at 1.
  destruct (connect_adds rt sdk w) as [delta [Htrace Hdelta]].
  destruct (connect rt sdk w) as [[[]|err] w1]; cbn [snd] in Htrace.
  - assert (Hskip :
      (if has_prompt rt (prompt event)
       then
         let userPrompt :=
           match prompt event with
           | VArr xs => join_values rt (lit " ") xs
           | p => ToString rt p
           end in
         if 10 <? length userPrompt then None else Some tt
       else Some tt) = Some tt).
    { destruct Hshort as [->|[s [-> Hlen]]]; [reflexivity|].
      destruct (has_prompt rt (VStr s)); [|reflexivity].
      cbv zeta. cbn [ToString].
      apply Nat.ltb_ge in Hlen. now rewrite Hlen. }
    unfold bind, log, emit. cbn [session trace].
    destruct (has_prompt rt (prompt event)).
    + cbv zeta in Hskip |- *.
      destruct (10 <? length _); [discriminate Hskip|].
      unfold ret. eexists. split; [reflexivity|]. cbn [trace].
      rewrite Htrace, <- app_assoc. eexists. split; [reflexivity|].
      intros e Hin. apply in_app_or in Hin as [Hin|[<-|[]]]; [auto | reflexivity].
    + unfold ret. eexists. split; [reflexivity|]. cbn [trace].
      rewrite Htrace, <- app_assoc. eexists. split; [reflexivity|].
      intros e Hin. apply in_app_or in Hin as [Hin|[<-|[]]]; [auto | reflexivity].
  - unfold bind, log, emit, ret. cbn [session trace].
    eexists. split; [reflexivity|]. cbn [trace].
    rewrite Htrace, <- app_assoc. eexists. split; [reflexivity|].
    intros e Hin. apply in_app_or in Hin as [Hin|[<-|[]]]; [auto | reflexivity].
Qed.

(** The theorem of C3 on the prompt ["hi"]. *)
Lemma before_agent_start_short_prompt_witness :
  exists w',
    before_agent_start Sample.plain_runtime (Sample.server (Sample.text_reply []))
      Sample.hi_prompt (initial Sample.stdio_config)
    = (Ok None, w').
Proof.
  destruct (before_agent_start_short_prompt Sample.plain_runtime
              (Sample.server (Sample.text_reply [])) (initial Sample.stdio_config)
              Sample.hi_prompt)
    as [w' [Hrun _]].
  - right. exists (lit "hi"). split; [reflexivity | vm_compute; lia].
  - exists w'. exact Hrun.
Defined.

(** C3 as stated fails: on the prompt ["hi"] the handler connects a new
    session to the server before it returns. *)
Lemma before_agent_start_connects_on_short_prompt :
  ~ short_prompt_skips_recall Sample.plain_runtime
      (Sample.server (Sample.text_reply [])) (initial Sample.stdio_config)
      Sample.hi_prompt.
Proof.
  intros H. destruct H as [_ [Hconnect _]].
  - right. exists (lit "hi"). split; [reflexivity | vm_compute; lia].
  - specialize (Hconnect Invoked_connect). vm_compute in Hconnect.
    assert (E : true = false) by (apply Hconnect; left; reflexivity).
    discriminate E.
Qed.

(** On the prompt ["hi"] the session ends up connected. *)
Lemma before_agent_start_leaves_connected :
  isConnected
    (session (snd (before_agent_start Sample.plain_runtime
                     (Sample.server (Sample.text_reply [])) Sample.hi_prompt
                     (initial Sample.stdio_config))))
  = true.
Proof. reflexivity. Qed.

(** C1, at the failing input: a reply with one candidate at score 0.25
    and one at 0.001. The filter keeps the first candidate only and the
    handler logs that it injects one memory, but the instruction it
    returns has a scored line for each of the two candidates. In general,
    on a prompt of more than ten characters, a successful handshake and a
    reply that parses to a candidate list, the handler returns no
    instruction when no candidate exceeds 0.01, and otherwise one
    instruction with the scored line of every candidate of the reply. *)
Theorem before_agent_start_injects_every_candidate :
  (let run := before_agent_start Sample.mixed_runtime
                (Sample.server (Sample.text_reply Sample.reply_text))
                Sample.phone_prompt (initial Sample.stdio_config) in
   fst run
   = Ok (Some (lit "[Athena Memory] Relevant context from past sessions:"
                 ++ [10%N] ++ lit "[25.0%] session-12: Sam's number is +15550100"
                 ++ [10%N] ++ lit "[0.1%] session-3: small talk about the weather"))
   /\ meaningful Sample.mixed_runtime
        (VArr (map candidate_value Sample.mixed_candidates))
      = Ok (map candidate_value (filter relevant Sample.mixed_candidates))
   /\ length (filter relevant Sample.mixed_candidates) = 1
   /\ In (Logged info (lit "memory-athena: injecting 1 memories"))
        (trace (snd run)))
  /\ forall rt sdk w event p resultText cs,
       sound (session w) ->
       prompt event = VStr p -> 10 < length p ->
       fst (connect rt sdk w) = Ok tt ->
       (forall history,
           on_callTool sdk history (lit "smart_search") (search_args p)
           = Ok {| mcp_content := Some [McpText resultText];
                   mcp_isError := None |}) ->
       JSON_parse rt resultText = Ok (payload cs) ->
       (existsb relevant cs = false ->
        fst (before_agent_start rt sdk event w) = Ok None)
       /\ (existsb relevant cs = true ->
           fst (before_agent_start rt sdk event w)
           = Ok (Some (context_header ++ join [10%N] (map (scored_line rt) cs)))).
Proof.
  split.
  - vm_compute. repeat split. tauto.
  - intros rt sdk w event p resultText cs Hsound Hprompt Hlen Hconnect Hreply Hparse.
    rewrite (before_agent_start_recall rt sdk w event p resultText cs
               Hsound Hprompt Hlen Hconnect Hreply Hparse).
    split; intros ->; reflexivity.
Qed.

End HookClaims.

(* ------------------------------------------------------------------ *)
Module ClientProperties.
Import Js Client Spec JsFacts ClientFacts HookFacts.

Lemma has_prefix_app (p t : jsstr) : has_prefix p (p ++ t) = true.
Proof.
  induction p as [|x p IH]; [reflexivity|]. simpl. now rewrite N.eqb_refl, IH.
Qed.

Lemma endsWith_app (s suffix : jsstr) : endsWith (s ++ suffix) suffix = true.
Proof. unfold endsWith. rewrite rev_app_distr. apply has_prefix_app. Qed.

Section WithSdk.
Variable rt : Runtime.
Variable sdk : Sdk.

(** X1. Once [disconnect()] has returned, the session holds no handle and
    is not connected, [callTool] throws the not-connected error, and a
    second [disconnect()] returns without reaching the SDK and without
    changing the session. *)
Theorem disconnect_then_nothing_is_left (w w1 : World) (name : jsstr) (args : value) :
  disconnect sdk w = (Ok tt, w1) ->
  session w1 = released (session w)
  /\ isConnected (session w1) = false
  /\ holds_no_handle (session w1)
  /\ callTool rt sdk name args w1
     = (Throw NotConnectedError,
        {| session := session w1; trace := trace w1 ++ [Invoked_callTool name args] |})
  /\ disconnect sdk w1
     = (Ok tt, {| session := session w1; trace := trace w1 ++ [Invoked_disconnect] |}).
Proof.
  intros H. rewrite disconnect_spec in H. cbv zeta in H. cbn [session trace] in H.
  assert (Hs : session w1 = released (session w)).
  { destruct (client (session w)); [destruct (on_close sdk _)|];
      try discriminate H; now injection H as <-. }
  split; [exact Hs|]. split; [now rewrite Hs|]. split; [now rewrite Hs|]. split.
  - apply callTool_disconnected. now rewrite Hs.
  - rewrite disconnect_spec. cbv zeta. rewrite Hs. reflexivity.
Qed.

(** X2. When [close()] of the SDK faults, [disconnect()] throws that very
    fault and resets nothing: the session keeps its client, its transport
    and its connected flag. *)
Theorem disconnect_propagates_close_fault (w : World) (c : SdkClient) (fault : exn) :
  client (session w) = Some c ->
  on_close sdk (trace w ++ [Invoked_disconnect]) = Some fault ->
  disconnect sdk w
  = (Throw fault,
     {| session := session w;
        trace := (trace w ++ [Invoked_disconnect]) ++ [Sdk_close] |}).
Proof.
  intros Hc Hf. rewrite disconnect_spec. cbv zeta. cbn [session trace].
  now rewrite Hc, Hf.
Qed.

(** X3. Once [connect()] has returned on a session, the session is
    connected and has its client, and a second [connect()] returns at once:
    it reaches the SDK with nothing and changes nothing in the session. *)
Theorem connect_twice (w w1 : World) :
  reachable rt sdk w ->
  connect rt sdk w = (Ok tt, w1) ->
  isConnected (session w1) = true
  /\ client (session w1) <> None
  /\ connect rt sdk w1
     = (Ok tt, {| session := session w1; trace := trace w1 ++ [Invoked_connect] |}).
Proof.
  intros Hr Hc. pose proof (connect_success rt sdk w w1 Hc) as Hcon.
  assert (Hsound : sound (session w1)).
  { change w1 with (snd (Ok tt, w1)). rewrite <- Hc.
    apply connect_sound, reachable_sound with (rt := rt) (sdk := sdk), Hr. }
  split; [exact Hcon|]. split; [now apply Hsound|].
  unfold connect, bind at 1, emit. unfold bind at 1, this. cbn [session trace].
  unfold isConnected in Hcon. now rewrite Hcon.
Qed.

(** X4. The transport [connectStdio] hands to the SDK: the command is
    never empty, the arguments are [-m athena.mcp_server], and the module
    search path ends in [/src]; it is the working directory itself when
    that already ends in [/src], and the working directory followed by
    [/src] otherwise. The working directory is the configured project
    directory, and [process.cwd()] when none is configured. *)
Theorem connectStdio_module_search_path (w : World) :
  exists command cwd PYTHONPATH,
    trace (snd (connectStdio rt sdk w))
    = trace w ++ [Sdk_connect the_client
                    (StdioClientTransport command
                       [lit "-m"; lit "athena.mcp_server"] cwd PYTHONPATH)]
    /\ command <> []
    /\ endsWith PYTHONPATH (lit "/src") = true
    /\ (endsWith cwd (lit "/src") = true -> PYTHONPATH = cwd)
    /\ (endsWith cwd (lit "/src") = false -> PYTHONPATH = cwd ++ lit "/src")
    /\ (forall dir, cfg_athenaProjectDir (config (session w)) = Some dir ->
                    dir <> [] -> cwd = dir)
    /\ (cfg_athenaProjectDir (config (session w)) = None
        \/ cfg_athenaProjectDir (config (session w)) = Some [] ->
        cwd = process_cwd rt).
Proof.
  rewrite connectStdio_spec. cbv zeta. unfold stdio_transport. cbv zeta.
  set (cwd := or_default (cfg_athenaProjectDir (config (session w))) (process_cwd rt)).
  exists (or_default (cfg_pythonPath (config (session w))) (lit "python3")), cwd.
  eexists. split.
  - destruct (on_connect sdk _ _ _); reflexivity.
  - split.
    + destruct (cfg_pythonPath (config (session w))) as [[|c p]|]; discriminate.
    + destruct (endsWith cwd (lit "/src")) eqn:E.
      * repeat split; try assumption; try discriminate.
        -- intros dir Hdir Hne. unfold cwd. rewrite Hdir.
           destruct dir; [contradiction | reflexivity].
        -- intros [Hdir|Hdir]; unfold cwd; now rewrite Hdir.
      * repeat split; try discriminate; try apply endsWith_app.
        -- intros dir Hdir Hne. unfold cwd. rewrite Hdir.
           destruct dir; [contradiction | reflexivity].
        -- intros [Hdir|Hdir]; unfold cwd; now rewrite Hdir.
Qed.

(** X5. On a connected session, [callTool] turns the reply of the SDK
    into a result block by block: as many blocks, in the same order, a
    text block with its text unchanged and any other block as its
    [JSON.stringify] rendering, and the error flag of the reply. *)
Theorem callTool_converts_blocks (w : World) (name : jsstr) (args : value)
    (blocks : list McpBlock) (flag : option bool) :
  reachable rt sdk w -> isConnected (session w) = true ->
  on_callTool sdk (trace w ++ [Invoked_callTool name args]) name args
  = Ok {| mcp_content := Some blocks; mcp_isError := flag |} ->
  exists r,
    fst (callTool rt sdk name args w) = Ok r
    /\ isError r = flag
    /\ length (content r) = length blocks
    /\ (forall i t, nth_error blocks i = Some (McpText t) ->
                    nth_error (content r) i = Some {| text := t |})
    /\ (forall i b, nth_error blocks i = Some (McpOther b) ->
                    nth_error (content r) i = Some {| text := JSON_stringify rt b |}).
Proof.
  intros Hr Hc Hreply. apply reachable_sound in Hr.
  rewrite (callTool_connected rt sdk w name args Hr Hc). cbv zeta. cbn [trace fst].
  rewrite Hreply. eexists. split; [reflexivity|]. cbn [isError content].
  split; [reflexivity|]. split; [apply length_map|].
  split; intros i x Hx; rewrite nth_error_map, Hx; reflexivity.
Qed.
End WithSdk.

(** The theorem X1 on a session that was connected to a server. *)
Lemma disconnect_then_nothing_is_left_witness :
  exists w1,
    disconnect (Sample.server (Sample.text_reply []))
      (snd (connect Sample.plain_runtime (Sample.server (Sample.text_reply []))
              (initial Sample.stdio_config)))
    = (Ok tt, w1)
    /\ holds_no_handle (session w1).
Proof.
  set (srv := Sample.server (Sample.text_reply [])).
  set (w := snd (connect Sample.plain_runtime srv (initial Sample.stdio_config))).
  assert (E : disconnect srv w = (Ok tt, snd (disconnect srv w))) by reflexivity.
  exists (snd (disconnect srv w)). split; [exact E|].
  exact (proj1 (proj2 (proj2
           (disconnect_then_nothing_is_left Sample.plain_runtime srv w
              (snd (disconnect srv w)) [] VNull E)))).
Defined.

(** The theorem X2 on a connected session whose server faults on close. *)
Lemma disconnect_propagates_close_fault_witness :
  fst (disconnect Terms.unclosable_server
         (Terms.connected_world Terms.unclosable_server))
  = Throw Sample.spawn_failure.
Proof.
  rewrite (disconnect_propagates_close_fault Terms.unclosable_server
             (Terms.connected_world Terms.unclosable_server)
             the_client Sample.spawn_failure eq_refl eq_refl).
  reflexivity.
Defined.

(** The theorem X3 on a new session and a server that accepts. *)
Lemma connect_twice_witness :
  isConnected
    (session (snd (connect Sample.plain_runtime (Sample.server (Sample.text_reply []))
                     (initial Sample.stdio_config))))
  = true.
Proof.
  exact (proj1 (connect_twice Sample.plain_runtime
                  (Sample.server (Sample.text_reply []))
                  (initial Sample.stdio_config) _ (reach_new _ _ _) eq_refl)).
Defined.

(** The theorem X5 on a reply of one text block. *)
Lemma callTool_converts_blocks_witness :
  exists r,
    fst (callTool Sample.plain_runtime (Sample.server (Sample.text_reply (lit "ok")))
           (lit "health_check") (VObj [])
           (snd (connect Sample.plain_runtime
                   (Sample.server (Sample.text_reply (lit "ok")))
                   (initial Sample.stdio_config))))
    = Ok r
    /\ length (content r) = 1.
Proof.
  destruct (callTool_converts_blocks Sample.plain_runtime
              (Sample.server (Sample.text_reply (lit "ok")))
              (snd (connect Sample.plain_runtime
                      (Sample.server (Sample.text_reply (lit "ok")))
                      (initial Sample.stdio_config)))
              (lit "health_check") (VObj []) [McpText (lit "ok")] None)
    as [r [Hr [_ [Hlen _]]]].
  - apply reach_connect, reach_new.
  - reflexivity.
  - reflexivity.
  - exists r. split; [exact Hr | exact Hlen].
Defined.

End ClientProperties.

(* ------------------------------------------------------------------ *)
Module ConfigProperties.
Import Js Config Spec JsFacts ConfigFacts.

Lemma match_name_open (s : jsstr) : ~ In 125%N s -> match_name s = None.
Proof.
  induction s as [|c s IH]; [reflexivity|]. intros Hnot. simpl.
  destruct (c =? 125)%N; [reflexivity|].
  destruct s as [|d s']; [reflexivity|].
  assert (Hd : (d =? 125)%N = false).
  { apply N.eqb_neq. intros ->. apply Hnot. right. now left. }
  rewrite Hd. rewrite IH; [reflexivity|]. intros H. apply Hnot. now right.
Qed.

Lemma match_reference_open (s : jsstr) : ~ In 125%N s -> match_reference s = None.
Proof.
  destruct s as [|c [|d s']]; try reflexivity. intros Hnot. simpl.
  destruct ((c =? 36) && (d =? 123))%N; [|reflexivity].
  apply match_name_open. intros H. apply Hnot. right. now right.
Qed.

Lemma segments_open (s : jsstr) :
  ~ In 125%N s -> segments (length s) s = map Plain s.
Proof.
  induction s as [|c s IH]; [reflexivity|]. intros Hnot.
  cbn [length]. rewrite segments_step, match_reference_open by assumption.
  cbn [map]. f_equal. apply IH. intros H. apply Hnot. now right.
Qed.

Lemma segments_no_dollar (s : jsstr) :
  ~ In 36%N s -> segments (length s) s = map Plain s.
Proof.
  intros H. pose proof (segments_plain s [] H) as E.
  rewrite !app_nil_r in E. exact E.
Qed.

Section WithRuntime.
Variable rt : Runtime.

Lemma resolve_plain (s : jsstr) :
  segments (length s) s = map Plain s -> resolveEnvVars rt s = Ok s.
Proof.
  intros E. unfold resolveEnvVars. rewrite E.
  assert (H : map_result
                (fun seg => match seg with
                            | Plain c => Ok [c]
                            | Reference envVar => replacer rt envVar
                            end) (map Plain s)
              = Ok (map (fun c => [c]) s)).
  { clear. induction s as [|c s IH]; [reflexivity|]. cbn [map map_result].
    rewrite IH. reflexivity. }
  rewrite H. cbn [rbind]. f_equal.
  clear. induction s as [|c s IH]; [reflexivity|]. cbn [map concat app].
  now rewrite IH.
Qed.

(** X6. Whatever the environment holds, [resolveEnvVars] returns a string
    as it is when the string has no dollar sign, and also when it has no
    closing brace: an unclosed [${NAME] is no reference. *)
Theorem resolveEnvVars_keeps_plain_text (s : jsstr) :
  ~ In 36%N s \/ ~ In 125%N s -> resolveEnvVars rt s = Ok s.
Proof.
  intros [H|H]; apply resolve_plain;
    [now apply segments_no_dollar | now apply segments_open].
Qed.

(** X7. A reference [${NAME}] to a variable that is set to a non-empty
    value is replaced by that value and the text around it is kept; the
    value is inserted as it is, whatever it contains. *)
Theorem resolveEnvVars_replaces_reference (pre name post val : jsstr) :
  ~ In 36%N pre -> name <> [] -> ~ In 125%N name -> ~ In 36%N post ->
  val <> [] -> process_env rt name = Some val ->
  resolveEnvVars rt (pre ++ reference name ++ post) = Ok (pre ++ val ++ post).
Proof.
  intros Hpre Hne Hname Hpost Hval Henv.
  destruct val as [|c v]; [congruence|].
  apply resolveEnvVars_interpolates; try assumption.
  apply resolve_plain. now apply segments_no_dollar.
Qed.

(** X8. On a settings object with keys the schema does not know, [parse]
    throws before it reads any value: the error names exactly the unknown
    keys, separated by a comma and a space, in the order of
    [Object.keys]: the keys that are array indices first, in ascending
    order, then the other keys in the order of the object. On an object
    without such keys that is the order in which the object has them. *)
Theorem parse_names_unknown_keys (cfg : list (jsstr * value)) :
  has_unrecognized_key cfg ->
  parse rt (VObj cfg)
  = Throw (Error (lit "Athena memory config has unknown keys: "
                    ++ join (lit ", ")
                         (filter (fun key => negb (includes allowed_keys key))
                            (index_keys (distinct [] (map fst cfg))
                             ++ name_keys (distinct [] (map fst cfg))))))
  /\ (NoDup (map fst cfg) ->
      (forall key, In key (map fst cfg) -> array_index key = None) ->
      parse rt (VObj cfg)
      = Throw (Error (lit "Athena memory config has unknown keys: "
                        ++ join (lit ", ")
                             (filter (fun key => negb (includes allowed_keys key))
                                (map fst cfg))))).
Proof.
  intros [key [Hin Hbad]].
  assert (Hthrows : parse rt (VObj cfg)
                    = Throw (Error (lit "Athena memory config has unknown keys: "
                                      ++ join (lit ", ")
                                           (filter
                                              (fun key =>
                                                 negb (includes allowed_keys key))
                                              (keys cfg))))).
  { unfold parse, assertAllowedKeys.
    assert (Hf : In key (filter (fun key => negb (includes allowed_keys key))
                           (keys cfg))).
    { apply filter_In. split; [assumption|].
      destruct (includes allowed_keys key) eqn:E; [|reflexivity].
      apply includes_In in E. contradiction. }
    destruct (filter _ (keys cfg)) as [|k ks]; [contradiction|].
    reflexivity. }
  split; [exact Hthrows|].
  intros Hnd Hnone. rewrite Hthrows.
  now rewrite (keys_insertion_order cfg Hnd Hnone).
Qed.
End WithRuntime.

(** The theorem X6 on a Windows-style path with a dollar sign and on a
    URL, with an empty environment. *)
Lemma resolveEnvVars_keeps_plain_text_witness :
  resolveEnvVars Sample.plain_runtime (lit "C:\$data\${athena")
  = Ok (lit "C:\$data\${athena")
  /\ resolveEnvVars Sample.plain_runtime (lit "http://localhost:8765")
     = Ok (lit "http://localhost:8765").
Proof.
  split; apply resolveEnvVars_keeps_plain_text.
  - right. vm_compute. intuition discriminate.
  - left. vm_compute. intuition discriminate.
Defined.

(** The theorem X7 on [${HOME}/athena] with [HOME=/home/user]. *)
Lemma resolveEnvVars_replaces_reference_witness :
  resolveEnvVars (Sample.runtime Sample.no_json Sample.home_env)
    (lit "${HOME}/athena")
  = Ok (lit "/home/user/athena").
Proof.
  apply (resolveEnvVars_replaces_reference
           (Sample.runtime Sample.no_json Sample.home_env)
           [] (lit "HOME") (lit "/athena") (lit "/home/user")).
  - intros [].
  - discriminate.
  - vm_compute. intuition discriminate.
  - vm_compute. intuition discriminate.
  - discriminate.
  - reflexivity.
Defined.

(** The theorem X8 on [{ zeta: 1, 10: 1, 2: 1 }]: the error names [2],
    [10] and [zeta], in this order. *)
Lemma parse_names_unknown_keys_witness :
  parse Sample.plain_runtime (VObj Sample.cfg_numeric_keys)
  = Throw (Error (lit "Athena memory config has unknown keys: 2, 10, zeta")).
Proof.
  assert (H : has_unrecognized_key Sample.cfg_numeric_keys).
  { exists (lit "zeta"). split; [vm_compute; auto|].
    intros Hin. simpl in Hin.
    repeat (destruct Hin as [Hin|Hin]; [discriminate Hin|]). exact Hin. }
  rewrite (proj1 (parse_names_unknown_keys Sample.plain_runtime
                    Sample.cfg_numeric_keys H)).
  reflexivity.
Defined.

End ConfigProperties.

(* ------------------------------------------------------------------ *)
Module AnalyzerProperties.
Import Js Plugin Spec Terms JsFacts AnalyzerFacts.

(** X9. [hasEnoughExchanges] is true exactly when at least two entries
    are objects of role user; the other entries do not count, and more
    messages before or after never turn a true into a false. *)
Theorem hasEnoughExchanges_counts_user_messages (messages : list value) :
  (hasEnoughExchanges messages = true <-> 2 <= user_messages messages)
  /\ hasEnoughExchanges messages
     = hasEnoughExchanges (filter is_user_message messages)
  /\ (forall more,
        hasEnoughExchanges messages = true ->
        hasEnoughExchanges (messages ++ more) = true
        /\ hasEnoughExchanges (more ++ messages) = true).
Proof.
  rewrite !hasEnoughExchanges_counts. split; [apply Nat.leb_le|]. split.
  - f_equal. unfold user_messages. f_equal.
    induction messages as [|m rest IH]; [reflexivity|]. cbn [filter].
    destruct (is_user_message m) eqn:E; [|exact IH].
    cbn [filter]. rewrite E. now f_equal.
  - intros more H. apply Nat.leb_le in H.
    rewrite !hasEnoughExchanges_counts. unfold user_messages in *.
    rewrite !filter_app, !length_app. split; apply Nat.leb_le; lia.
Qed.

Lemma texts_loop (messages : list value) (texts : list jsstr) :
  fold_left
    (fun texts msg =>
       if negb (is_object msg) then texts
       else
         match member msg (lit "content") with
         | VStr content => texts ++ [content]
         | VArr content =>
             fold_left
               (fun texts block =>
                  match is_text_block block with
                  | Some t => texts ++ [t]
                  | None => texts
                  end) content texts
         | _ => texts
         end)
    messages texts
  = texts ++ flat_map texts_of messages.
Proof.
  revert texts. induction messages as [|msg rest IH]; intros texts.
  - simpl. now rewrite app_nil_r.
  - cbn [fold_left flat_map]. rewrite IH. unfold texts_of at 2.
    destruct (is_object msg); cbn [negb]; [|reflexivity].
    destruct (member msg (lit "content")) as [| |b|x|s|blocks|props];
      try reflexivity.
    + now rewrite <- app_assoc.
    + rewrite app_assoc. f_equal. clear. revert texts.
      induction blocks as [|block blocks IH]; intros texts.
      * simpl. now rewrite app_nil_r.
      * cbn [fold_left flat_map]. rewrite IH.
        destruct (is_text_block block); [now rewrite <- app_assoc | reflexivity].
Qed.

(** X10. [extractMessageTexts] works message by message: the texts of a
    concatenation are the texts of its parts in order; an entry that is
    not an object contributes nothing; a string content contributes
    itself; and a [null] among the blocks of a message is skipped, where
    [generateSummary] and [extractKeyFacts] throw. *)
Theorem extractMessageTexts_message_by_message (messages more : list value) :
  extractMessageTexts (messages ++ more)
  = extractMessageTexts messages ++ extractMessageTexts more
  /\ extractMessageTexts messages = flat_map texts_of messages
  /\ (forall msg, is_object msg = false ->
        extractMessageTexts (messages ++ msg :: more)
        = extractMessageTexts (messages ++ more))
  /\ (forall props s,
        field (lit "content") props = VStr s ->
        extractMessageTexts (messages ++ [VObj props])
        = extractMessageTexts messages ++ [s])
  /\ (forall props pre post,
        field (lit "content") props = VArr (pre ++ VNull :: post) ->
        extractMessageTexts [VObj props]
        = extractMessageTexts [VObj [(lit "content", VArr (pre ++ post))]]).
Proof.
  assert (E : forall l, extractMessageTexts l = flat_map texts_of l).
  { intros l. unfold extractMessageTexts. now rewrite texts_loop. }
  split; [now rewrite !E, flat_map_app|]. split; [apply E|]. split.
  - intros msg Hno. rewrite !E, !flat_map_app. cbn [flat_map].
    unfold texts_of at 2. now rewrite Hno.
  - split.
    + intros props s Hs. rewrite !E, flat_map_app. cbn [flat_map].
      unfold texts_of at 2.
      cbn [is_object truthy typeof_object andb member]. now rewrite Hs.
    + intros props pre post Hb. rewrite !E. cbn [flat_map]. unfold texts_of.
      cbn [is_object truthy typeof_object andb member]. rewrite Hb.
      change (field (lit "content") [(lit "content", VArr (pre ++ post))])
        with (VArr (pre ++ post)).
      now rewrite !flat_map_app.
Qed.

Lemma summary_loop_bounded (rt : Runtime) (messages : list value)
    (st st' : jsstr * jsstr) :
  fold_left (fun acc msg => rbind acc (fun st => summary_step rt st msg))
    messages (Ok st) = Ok st' ->
  length (fst st) <= 80 /\ length (snd st) <= 80 ->
  length (fst st') <= 80 /\ length (snd st') <= 80.
Proof.
  revert st. induction messages as [|msg rest IH]; intros st H Hst.
  - simpl in H. now injection H as <-.
  - cbn [fold_left rbind] in H.
    destruct (summary_step rt st msg) as [st1|e] eqn:E;
      [|rewrite fold_thrown in H; discriminate H].
    apply (IH st1 H). unfold summary_step in E.
    destruct (negb (is_object msg)); [now injection E as <-|].
    destruct (negb (role_is_user msg)); [now injection E as <-|].
    destruct (summary_text rt (member msg (lit "content"))) as [text|e];
      [|discriminate E].
    cbn [rbind] in E.
    assert (E' : st1 = st
                 \/ st1 = (match fst st with [] => firstn 80 text | f => f end,
                           firstn 80 text)).
    { destruct text; [left | right]; cbv beta iota zeta in E; congruence. }
    destruct E' as [->| ->]; [exact Hst|]. cbn [fst snd].
    split; [|apply firstn_le_length].
    destruct Hst as [Hfst _].
    destruct (fst st); [apply firstn_le_length | exact Hfst].
Qed.

(** X11. Whatever [generateSummary] returns is at most 165 characters
    long: two parts of at most 80 characters and a separator of five. *)
Theorem generateSummary_is_short (rt : Runtime) (messages : list value)
    (summary : jsstr) :
  generateSummary rt messages = Ok summary -> length summary <= 165.
Proof.
  unfold generateSummary. intros H. apply rbind_ok in H as [[f l] [Hloop H]].
  apply summary_loop_bounded in Hloop as [Hf Hl]; [|simpl; lia].
  cbn [fst snd] in Hf, Hl.
  destruct f as [|c f]; [injection H as <-; vm_compute; lia|].
  cbv beta iota zeta in H. destruct (str_eqb (c :: f) l).
  - assert (E : summary = c :: f) by congruence. rewrite E. lia.
  - assert (E : summary = (c :: f) ++ separator ++ l) by congruence.
    rewrite E, !length_app. change (length separator) with 5. lia.
Qed.

(** The theorem X11 on the conversation of Sam. *)
Lemma generateSummary_is_short_witness :
  length (lit "My name is Sam" ++ separator ++ lit "Remember to call Sam") <= 165.
Proof.
  apply (generateSummary_is_short Sample.plain_runtime Sample.sam_messages).
  reflexivity.
Defined.

Lemma match_lit_takes (i : bool) (l s m rest : jsstr) :
  Regex.match_lit i l s = Some (m, rest) -> s = m ++ rest /\ length m = length l.
Proof.
  revert s m rest. induction l as [|x l IH]; intros s m rest H.
  - simpl in H. injection H as <- <-. auto.
  - destruct s as [|y s]; [discriminate H|]. simpl in H.
    destruct (Regex.canonicalize i x =? Regex.canonicalize i y)%N; [|discriminate H].
    destruct (Regex.match_lit i l s) as [[m1 r1]|] eqn:E; [|discriminate H].
    injection H as <- <-. destruct (IH _ _ _ E) as [-> Hlen].
    simpl. auto.
Qed.

Lemma shortest_le (alternatives : list jsstr) (l : jsstr) :
  In l alternatives -> shortest alternatives <= length l.
Proof.
  induction alternatives as [|a rest IH]; [contradiction|].
  intros [->|Hin]; cbn [shortest]; destruct rest as [|b rest']; try lia.
  - contradiction.
  - specialize (IH Hin). lia.
Qed.

(** A match at the head of [s] is a prefix of [s] and takes at least the
    characters its atoms ask for. *)
Lemma match_here_takes (i : bool) (atoms : list Regex.atom) (s m : jsstr) :
  Regex.match_here i atoms s = Some m ->
  (exists rest, s = m ++ rest) /\ min_length atoms <= length m.
Proof.
  revert s m. induction atoms as [|a atoms IH]; intros s m H.
  - simpl in H. injection H as <-. split; [now exists s | simpl; lia].
  - destruct a as [l|alternatives|min class]; cbn [Regex.match_here min_length] in *.
    + destruct (Regex.match_lit i l s) as [[m1 r1]|] eqn:E; [|discriminate H].
      destruct (Regex.match_here i atoms r1) as [m'|] eqn:E'; [|discriminate H].
      injection H as <-. apply match_lit_takes in E as [-> Hlen].
      destruct (IH _ _ E') as [[rest ->] Hmin]. split.
      * exists rest. now rewrite <- app_assoc.
      * rewrite length_app. lia.
    + assert (Hin : exists l, In l alternatives /\
                (exists rest, s = m ++ rest)
                /\ length l + min_length atoms <= length m).
      { induction alternatives as [|l alts IHalts]; [discriminate H|].
        destruct (Regex.match_lit i l s) as [[m1 r1]|] eqn:E.
        - destruct (Regex.match_here i atoms r1) as [m'|] eqn:E'.
          + injection H as <-. apply match_lit_takes in E as [-> Hlen].
            destruct (IH _ _ E') as [[rest ->] Hmin].
            exists l. split; [now left|]. split.
            * exists rest. now rewrite <- app_assoc.
            * rewrite length_app. lia.
          + destruct (IHalts H) as [l' [Hl' Hrest]]. exists l'. split; [now right | exact Hrest].
        - destruct (IHalts H) as [l' [Hl' Hrest]]. exists l'. split; [now right | exact Hrest]. }
      destruct Hin as [l [Hl [Hrest Hlen]]]. split; [exact Hrest|].
      pose proof (shortest_le alternatives l Hl). lia.
    + match type of H with
      | ?rep s 0 = _ =>
          assert (Hrep : forall s count m,
                    rep s count = Some m ->
                    (exists rest, s = m ++ rest)
                    /\ min + min_length atoms <= count + length m)
      end.
      { clear s m H. induction s as [|c s IHs]; intros count m H.
        - cbn in H. destruct (min <=? count) eqn:Hc; [|discriminate H].
          apply Nat.leb_le in Hc. destruct (IH _ _ H) as [Hrest Hmin].
          split; [exact Hrest | lia].
        - assert (Hstop : (if min <=? count
                           then Regex.match_here i atoms (c :: s) else None) = Some m ->
                          (exists rest, c :: s = m ++ rest)
                          /\ min + min_length atoms <= count + length m).
          { destruct (min <=? count) eqn:Hc; [|discriminate].
            apply Nat.leb_le in Hc. intros H'. destruct (IH _ _ H') as [Hrest Hmin].
            split; [exact Hrest | lia]. }
          cbn beta iota zeta in H. 
          destruct (class c); [|now apply Hstop].
          match type of H with
          | match ?r with _ => _ end = _ => destruct r as [m1|] eqn:E
          end; [|now apply Hstop].
          injection H as <-. destruct (IHs _ _ E) as [[rest ->] Hmin].
          split; [now exists rest | simpl; lia]. }
      destruct (Hrep s 0 m H) as [Hrest Hmin]. split; [exact Hrest | lia].
Qed.

Lemma match_occurs (p : Regex.pattern) (text m : jsstr) :
  Regex.match_ p text = Some m ->
  occurs_in m text /\ min_length (Regex.atoms p) <= length m.
Proof.
  induction text as [|c text IH]; cbn [Regex.match_].
  - destruct (Regex.match_here _ _ []) as [m'|] eqn:E; [|discriminate].
    intros H. injection H as <-. apply match_here_takes in E as [[rest Hrest] Hmin].
    split; [exists [], rest; exact Hrest | exact Hmin].
  - destruct (Regex.match_here _ _ (c :: text)) as [m'|] eqn:E.
    + intros H. injection H as <-. apply match_here_takes in E as [[rest Hrest] Hmin].
      split; [exists [], rest; exact Hrest | exact Hmin].
    + intros H. destruct (IH H) as [[pre [post ->]] Hmin].
      split; [exists (c :: pre), post; reflexivity | exact Hmin].
Qed.

Lemma patterns_take_a_character (p : Regex.pattern) :
  In p patterns -> 1 <= min_length (Regex.atoms p).
Proof.
  unfold patterns. intros H.
  repeat (destruct H as [<-|H]; [vm_compute; lia|]). contradiction.
Qed.

Lemma first_matches_occur (text f : jsstr) :
  In f (first_matches text) -> occurs_in f text /\ f <> [].
Proof.
  unfold first_matches. intros H. apply in_flat_map in H as [p [Hp Hf]].
  destruct (Regex.match_ p text) as [m|] eqn:E; [|contradiction].
  destruct Hf as [<-|[]]. apply match_occurs in E as [Hocc Hmin].
  split; [exact Hocc|]. pose proof (patterns_take_a_character p Hp).
  intros ->. simpl in Hmin. lia.
Qed.

Lemma unique_loop_In (facts set : list jsstr) (x : jsstr) :
  In x (fold_left
          (fun set fact => if existsb (str_eqb fact) set then set else set ++ [fact])
          facts set)
  <-> In x set \/ In x facts.
Proof.
  revert set. induction facts as [|fact rest IH]; intros set; cbn [fold_left].
  - simpl. tauto.
  - rewrite IH. destruct (existsb (str_eqb fact) set) eqn:E.
    + apply existsb_exists in E as [y [Hy Heq]]. apply str_eqb_eq in Heq. subst y.
      simpl. split; [tauto|]. intros [H|[<-|H]]; auto.
    + rewrite in_app_iff. simpl. tauto.
Qed.

Lemma unique_In (facts : list jsstr) (x : jsstr) : In x (unique facts) <-> In x facts.
Proof. unfold unique. rewrite unique_loop_In. simpl. tauto. Qed.

Lemma firstn_subset {A} (n : nat) (l : list A) (x : A) :
  In x (firstn n l) -> In x l.
Proof.
  revert l. induction n as [|n IH]; intros [|y l]; simpl; try tauto.
  intros [->|H]; auto.
Qed.

Lemma returns_no_null_block (rt : Runtime) (messages : list value) (facts : list jsstr) :
  extractKeyFacts rt messages = Ok facts -> no_null_block messages.
Proof.
  intros H msg blocks Hin Huser Hcontent Hnull.
  destruct (extractKeyFacts_throws rt messages msg blocks Hin Huser Hcontent Hnull)
    as [e He].
  congruence.
Qed.

(** X12. Every fact [extractKeyFacts] returns is a non-empty run of
    consecutive characters of the text of some user message of the list:
    a raw piece of what the user wrote, never of what another role
    wrote. *)
Theorem extractKeyFacts_facts_are_user_text (rt : Runtime)
    (messages : list value) (facts : list jsstr) (fact : jsstr) :
  extractKeyFacts rt messages = Ok facts -> In fact facts ->
  fact <> []
  /\ exists msg,
      In msg messages /\ is_user_message msg = true
      /\ occurs_in fact (content_text rt (lit " ") (member msg (lit "content"))).
Proof.
  intros H Hin. pose proof (returns_no_null_block rt messages facts H) as Hnull.
  rewrite (extractKeyFacts_returns rt messages Hnull) in H.
  assert (E : facts = firstn 5 (unique (candidate_facts rt messages)))
    by congruence.
  rewrite E in Hin. apply firstn_subset in Hin.
  apply (proj1 (unique_In _ _)) in Hin. unfold candidate_facts in Hin.
  apply in_flat_map in Hin as [msg [Hmsg Hf]].
  apply filter_In in Hmsg as [Hmsg Huser].
  apply first_matches_occur in Hf as [Hocc Hne].
  split; [exact Hne|]. exists msg. auto.
Qed.

(** The theorem X12 on the conversation of Sam and its fact ["My name"]. *)
Lemma extractKeyFacts_facts_are_user_text_witness :
  occurs_in (lit "My name") (lit "My name is Sam")
  \/ occurs_in (lit "My name") (lit "Remember to call Sam").
Proof.
  destruct (extractKeyFacts_facts_are_user_text Sample.plain_runtime
              Sample.sam_messages [lit "My name"; lit "Remember "] (lit "My name")
              eq_refl (or_introl eq_refl))
    as [_ [msg [Hin [Huser Hocc]]]].
  simpl in Hin. destruct Hin as [<-|[<-|[<-|[]]]].
  - left. exact Hocc.
  - vm_compute in Huser. discriminate Huser.
  - right. exact Hocc.
Defined.



Lemma map_result_length {A B} (f : A -> result B) (xs : list A) (ys : list B) :
  map_result f xs = Ok ys -> length ys = length xs.
Proof.
  revert ys. induction xs as [|x xs IH]; intros ys H.
  - simpl in H. now injection H as <-.
  - cbn [map_result] in H. apply rbind_ok in H as [y [_ H]].
    apply rbind_ok in H as [ys' [Hys H]]. injection H as <-.
    simpl. f_equal. now apply IH.
Qed.

(** X14. [parseSearchResults] never throws: it returns either the text it
    was given, alone, or one line for each element of the results array
    of the parsed text; when the text does not parse, it is the text
    alone, and when the parsed value has no results, it is no line at
    all. *)
Theorem parseSearchResults_lines (rt : Runtime) (resultText : jsstr) :
  (parseSearchResults rt resultText = [resultText]
   \/ exists parsed items,
       JSON_parse rt resultText = Ok parsed
       /\ results_of parsed = Ok (VArr items)
       /\ length (parseSearchResults rt resultText) = length items)
  /\ (forall e, JSON_parse rt resultText = Throw e ->
                parseSearchResults rt resultText = [resultText])
  /\ (forall props,
        JSON_parse rt resultText = Ok (VObj props) ->
        truthy (member (field (lit "results") props) (lit "results")) = false ->
        parseSearchResults rt resultText = []).
Proof.
  unfold parseSearchResults. split; [|split].
  - destruct (JSON_parse rt resultText) as [parsed|e]; cbn [rbind]; [|now left].
    destruct (results_of parsed) as [results|e] eqn:R; cbn [rbind]; [|now left].
    destruct results as [| |b|x|s|items|props]; cbn [as_array rbind]; try now left.
    destruct (map_result (format_result rt) items) as [lines|e] eqn:M; [|now left].
    right. exists parsed, items. repeat split; try assumption.
    now apply map_result_length in M.
  - intros e ->. reflexivity.
  - intros props -> Hfalsy. cbn [rbind]. unfold results_of. cbn [get rbind].
    now rewrite Hfalsy.
Qed.

End AnalyzerProperties.

(* ------------------------------------------------------------------ *)
Module HookProperties.
Import Js Client Plugin Spec Terms JsFacts ClientFacts AnalyzerFacts HookFacts.

Lemma winds_down_quiet (delta : list Event) :
  forallb winds_down delta = true ->
  forall e, In e delta -> is_any_tool_call e = false /\ is_connect e = false.
Proof.
  intros H e He. rewrite forallb_forall in H. specialize (H e He).
  destruct e; simpl in *; auto; discriminate.
Qed.

Section WithSdk.
Variable rt : Runtime.
Variable sdk : Sdk.

(** The [catch] block of [agent_end] returns: it logs the warning, enters
    [disconnect()] and swallows what [close()] may throw. *)
Lemma catch_block (err : exn) (w1 : World) :
  exists s delta,
    bind (log warn (agent_end_error err))
      (fun _ => try_catch (disconnect sdk) (fun _ => ret tt)) w1
    = (Ok tt, {| session := s;
                 trace := trace w1
                          ++ Logged warn (agent_end_error err)
                          :: Invoked_disconnect :: delta |})
    /\ forallb winds_down delta = true
    /\ ((forall history, on_close sdk history = None) ->
        s = released (session w1)).
Proof.
  unfold bind, log, emit, try_catch, ret. rewrite disconnect_spec. cbv zeta.
  cbn [session trace].
  destruct (client (session w1)) as [c|]; [destruct (on_close sdk _) eqn:Hclose|].
  - exists (session w1), [Sdk_close]. rewrite <- !app_assoc.
    repeat split. intros Hall. rewrite Hall in Hclose. discriminate Hclose.
  - exists (released (session w1)), [Sdk_close]. rewrite <- !app_assoc.
    repeat split.
  - exists (released (session w1)), []. rewrite <- !app_assoc. repeat split.
Qed.

(** A handler of the shape of [agent_end]: steps, then [disconnect()],
    then log lines, in a [try] whose [catch] is the one of [agent_end]. It
    returns, and after the steps it only winds down. *)
Lemma finally_disconnect (pre post : M unit) (w : World) :
  (forall w0, exists l,
      post w0 = (Ok tt, {| session := session w0; trace := trace w0 ++ l |})
      /\ forallb winds_down l = true) ->
  exists w' delta,
    try_catch (bind pre (fun _ => bind (disconnect sdk) (fun _ => post)))
      (fun err =>
         bind (log warn (agent_end_error err))
           (fun _ => try_catch (disconnect sdk) (fun _ => ret tt))) w
    = (Ok tt, w')
    /\ trace w' = trace (snd (pre w)) ++ delta
    /\ In Invoked_disconnect delta
    /\ forallb winds_down delta = true
    /\ (forall e, fst (pre w) = Throw e ->
        exists rest, delta = Logged warn (agent_end_error e) :: rest)
    /\ ((forall history, on_close sdk history = None) ->
        session w' = released (session (snd (pre w)))).
Proof.
  intros Hpost. unfold try_catch at 1, bind at 1.
  destruct (pre w) as [[[]|e] w1]; cbn [fst snd].
  - unfold bind at 1. rewrite disconnect_spec. cbv zeta. cbn [session trace].
    destruct (client (session w1)) as [c|]; [destruct (on_close sdk _) eqn:Hclose|].
    + destruct (catch_block e {| session := session w1;
                                 trace := (trace w1 ++ [Invoked_disconnect])
                                          ++ [Sdk_close] |})
        as [s [delta [-> [Hdelta Hs]]]].
      cbn [session trace]. eexists. eexists. split; [reflexivity|].
      cbn [trace session]. rewrite <- !app_assoc. cbn [app].
      split; [reflexivity|]. split; [now left|]. split; [exact Hdelta|].
      split; [discriminate|]. intros Hall. now apply Hs.
    + destruct (Hpost {| session := released (session w1);
                         trace := (trace w1 ++ [Invoked_disconnect])
                                  ++ [Sdk_close] |})
        as [l [-> Hl]].
      cbn [session trace]. eexists. eexists. split; [reflexivity|].
      cbn [trace session]. rewrite <- !app_assoc. cbn [app].
      split; [reflexivity|]. split; [now left|]. split; [exact Hl|].
      split; [discriminate | reflexivity].
    + destruct (Hpost {| session := released (session w1);
                         trace := trace w1 ++ [Invoked_disconnect] |})
        as [l [-> Hl]].
      cbn [session trace]. eexists. eexists. split; [reflexivity|].
      cbn [trace session]. rewrite <- !app_assoc. cbn [app].
      split; [reflexivity|]. split; [now left|]. split; [exact Hl|].
      split; [discriminate | reflexivity].
  - destruct (catch_block e w1) as [s [delta [-> [Hdelta Hs]]]].
    eexists. eexists. split; [reflexivity|]. cbn [trace session].
    split; [reflexivity|]. split; [right; now left|]. split; [exact Hdelta|].
    split; [|exact Hs]. intros e' He'. injection He' as <-. now eexists.
Qed.

Lemma callTool_adds (w : World) (name : jsstr) (args : value) :
  exists delta,
    trace (snd (callTool rt sdk name args w))
    = trace w ++ Invoked_callTool name args :: delta
    /\ (delta = [] \/ delta = [Sdk_callTool name args]).
Proof.
  run. cbn [session trace].
  destruct (client (session w)) as [c|]; [destruct (connected (session w))|].
  - destruct (on_callTool sdk _ _ _) as [[[blocks|] flag]|fault];
      cbn [fst snd trace]; rewrite <- app_assoc;
      (eexists; split; [reflexivity | now right]).
  - exists []. split; [reflexivity | now left].
  - exists []. split; [reflexivity | now left].
Qed.

(** The three shapes of [agent_end]. *)
Lemma agent_end_idle (event : EndEvent) (w : World) :
  success event = false \/ messages event = None \/ messages event = Some [] ->
  agent_end rt sdk event w
  = try_catch (bind (ret tt) (fun _ => bind (disconnect sdk) (fun _ => ret tt)))
      (fun err =>
         bind (log warn (agent_end_error err))
           (fun _ => try_catch (disconnect sdk) (fun _ => ret tt))) w.
Proof.
  intros H. unfold agent_end.
  assert (E : match success event, messages event with
              | true, Some (msg :: rest) => false
              | _, _ => true
              end = true).
  { destruct H as [->|[->| ->]]; [reflexivity | |]; now destruct (success event). }
  destruct (success event); [destruct (messages event) as [[|msg rest]|]|];
    try discriminate E;
    unfold try_catch, bind, ret;
    destruct (disconnect sdk w) as [[[]|e] w1]; reflexivity.
Qed.

Lemma agent_end_skip (event : EndEvent) (msgs : list value) (w : World) :
  success event = true -> messages event = Some msgs -> msgs <> [] ->
  hasEnoughExchanges msgs = false ->
  agent_end rt sdk event w
  = try_catch
      (bind (log info (lit "memory-athena: skipping capture (not enough exchanges)"))
         (fun _ => bind (disconnect sdk) (fun _ => ret tt)))
      (fun err =>
         bind (log warn (agent_end_error err))
           (fun _ => try_catch (disconnect sdk) (fun _ => ret tt))) w.
Proof.
  intros Hs Hm Hne He. unfold agent_end. rewrite Hs, Hm.
  destruct msgs as [|msg rest]; [congruence|]. rewrite He. cbn [negb].
  unfold try_catch, bind, ret, log, emit.
  destruct (disconnect sdk _) as [[[]|e] w1]; reflexivity.
Qed.

Lemma agent_end_capture (event : EndEvent) (msgs : list value) (w : World) :
  success event = true -> messages event = Some msgs ->
  hasEnoughExchanges msgs = true ->
  agent_end rt sdk event w
  = try_catch
      (bind (capture rt sdk msgs)
         (fun _ => bind (disconnect sdk)
                     (fun _ => log info (lit "memory-athena: disconnected"))))
      (fun err =>
         bind (log warn (agent_end_error err))
           (fun _ => try_catch (disconnect sdk) (fun _ => ret tt))) w.
Proof.
  intros Hs Hm He. unfold agent_end, capture. rewrite Hs, Hm.
  destruct msgs as [|msg rest]; [discriminate He|]. rewrite He. cbn [negb].
  unfold try_catch, bind, lift.
  destruct (generateSummary rt (msg :: rest)) as [summary|e]; [|reflexivity].
  destruct (extractKeyFacts rt (msg :: rest)) as [facts|e]; [|reflexivity].
  unfold log, emit.
  destruct (callTool rt sdk _ _ _) as [[r|e] w1]; [|reflexivity].
  destruct (isError r) as [[|]|]; reflexivity.
Qed.

(** [capture] leaves the session as it is and connects nothing. *)
Lemma capture_adds (msgs : list value) (w : World) :
  session (snd (capture rt sdk msgs w)) = session w
  /\ exists delta,
      trace (snd (capture rt sdk msgs w)) = trace w ++ delta
      /\ forall e, In e delta -> is_connect e = false.
Proof.
  destruct (capture rt sdk msgs w) as [res w'] eqn:Hrun. cbn [snd].
  assert (Hstop : forall e : exn,
             (@Throw unit e, w) = (res, w') ->
             session w' = session w
             /\ exists delta,
                 trace w' = trace w ++ delta
                 /\ forall e, In e delta -> is_connect e = false).
  { intros e H. injection H as <- <-. split; [reflexivity|]. exists [].
    rewrite app_nil_r. split; [reflexivity | intros ? []]. }
  unfold capture, bind, lift in Hrun.
  destruct (generateSummary rt msgs) as [summary|e]; [|now apply (Hstop e)].
  destruct (extractKeyFacts rt msgs) as [facts|e]; [|now apply (Hstop e)].
  unfold log at 1, emit at 1 in Hrun.
  match type of Hrun with
  | context [callTool rt sdk ?name ?args ?w0] =>
      pose proof (callTool_session rt sdk w0 name args) as Hsess;
      destruct (callTool_adds w0 name args) as [d [Hd Hcases]];
      destruct (callTool rt sdk name args w0) as [[r|e] w1]
  end; cbn [fst snd session trace] in *.
  - assert (Hnote : forall l m,
               log l m w1 = (res, w') ->
               session w' = session w
               /\ exists delta,
                   trace w' = trace w ++ delta
                   /\ forall e, In e delta -> is_connect e = false).
    { intros l m H. unfold log, emit in H. injection H as <- <-.
      cbn [session trace].
      split; [exact Hsess|]. rewrite Hd, <- !app_assoc. eexists.
      split; [reflexivity|]. intros e He. cbn [app] in He.
      destruct He as [<-|[<-|He]]; try reflexivity.
      apply in_app_iff in He as [He|[<-|[]]]; [|reflexivity].
      destruct Hcases as [->| ->]; [destruct He | destruct He as [<-|[]]].
      reflexivity. }
    destruct (isError r) as [[|]|]; now apply Hnote in Hrun.
  - injection Hrun as <- <-.
    split; [exact Hsess|]. rewrite Hd, <- !app_assoc. eexists.
    split; [reflexivity|]. intros e0 He. cbn [app] in He.
    destruct He as [<-|[<-|He]]; try reflexivity.
    destruct Hcases as [->| ->]; [destruct He | destruct He as [<-|[]]].
    reflexivity.
Qed.



Lemma post_logs (l : Level) (m : jsstr) (w0 : World) :
  exists delta,
    log l m w0 = (Ok tt, {| session := session w0; trace := trace w0 ++ delta |})
    /\ forallb winds_down delta = true.
Proof. exists [Logged l m]. split; reflexivity. Qed.

Lemma post_nothing (w0 : World) :
  exists delta,
    ret tt w0 = (Ok tt, {| session := session w0; trace := trace w0 ++ delta |})
    /\ forallb winds_down delta = true.
Proof. exists []. rewrite app_nil_r. destruct w0. split; reflexivity. Qed.

(** X15. [agent_end] never throws, whatever the event, the session and
    the server: it returns having entered [disconnect()], it connects
    nothing, and when [close()] of the SDK does not fault the session ends
    disconnected, without a handle. *)
Theorem agent_end_always_disconnects (event : EndEvent) (w : World) :
  exists w' delta,
    agent_end rt sdk event w = (Ok tt, w')
    /\ trace w' = trace w ++ delta
    /\ In Invoked_disconnect delta
    /\ (forall e, In e delta -> is_connect e = false)
    /\ ((forall history, on_close sdk history = None) ->
        session w' = released (session w)
        /\ isConnected (session w') = false
        /\ holds_no_handle (session w')).
Proof.
  assert (Hshape : exists pre post : M unit,
             agent_end rt sdk event w
             = try_catch (bind pre (fun _ => bind (disconnect sdk) (fun _ => post)))
                 (fun err =>
                    bind (log warn (agent_end_error err))
                      (fun _ => try_catch (disconnect sdk) (fun _ => ret tt))) w
             /\ (forall w0, exists l,
                    post w0 = (Ok tt, {| session := session w0;
                                         trace := trace w0 ++ l |})
                    /\ forallb winds_down l = true)
             /\ session (snd (pre w)) = session w
             /\ exists delta,
                 trace (snd (pre w)) = trace w ++ delta
                 /\ forall e, In e delta -> is_connect e = false).
  { destruct (success event) eqn:Hs;
      [destruct (messages event) as [[|msg rest]|] eqn:Hm|].
    - exists (ret tt), (ret tt). split; [apply agent_end_idle; auto|].
      split; [apply post_nothing|]. split; [reflexivity|].
      exists []. rewrite app_nil_r. split; [reflexivity | intros ? []].
    - destruct (hasEnoughExchanges (msg :: rest)) eqn:He.
      + exists (capture rt sdk (msg :: rest)),
          (log info (lit "memory-athena: disconnected")).
        split; [now apply (agent_end_capture event (msg :: rest))|].
        split; [apply post_logs | apply capture_adds].
      + exists (log info (lit "memory-athena: skipping capture (not enough exchanges)")),
          (ret tt).
        split; [now apply (agent_end_skip event (msg :: rest))|].
        split; [apply post_nothing|]. split; [reflexivity|].
        eexists. split; [reflexivity|]. intros e [<-|[]]. reflexivity.
    - exists (ret tt), (ret tt). split; [apply agent_end_idle; auto|].
      split; [apply post_nothing|]. split; [reflexivity|].
      exists []. rewrite app_nil_r. split; [reflexivity | intros ? []].
    - exists (ret tt), (ret tt). split; [apply agent_end_idle; auto|].
      split; [apply post_nothing|]. split; [reflexivity|].
      exists []. rewrite app_nil_r. split; [reflexivity | intros ? []]. }
  destruct Hshape as [pre [post [-> [Hpost [Hsess [d [Hd Hquiet]]]]]]].
  destruct (finally_disconnect pre post w Hpost)
    as [w' [delta [-> [Ht [Hin [Hdown [_ Hrel]]]]]]].
  exists w', (d ++ delta). split; [reflexivity|].
  split; [now rewrite Ht, Hd, app_assoc|].
  split; [apply in_app_iff; now right|]. split.
  - intros e He. apply in_app_iff in He as [He|He]; [now apply Hquiet|].
    now apply (winds_down_quiet delta Hdown).
  - intros Hall. rewrite (Hrel Hall), Hsess. repeat split.
Qed.

(** X16. At the end of a turn that failed, or that carries no message
    list or an empty one, [agent_end] only disconnects: it calls no tool
    and connects nothing. *)
Theorem agent_end_without_conversation (event : EndEvent) (w : World) :
  success event = false \/ messages event = None \/ messages event = Some [] ->
  exists w' delta,
    agent_end rt sdk event w = (Ok tt, w')
    /\ trace w' = trace w ++ delta
    /\ In Invoked_disconnect delta
    /\ (forall e, In e delta ->
        is_any_tool_call e = false /\ is_connect e = false).
Proof.
  intros Hidle. rewrite (agent_end_idle event w Hidle).
  destruct (finally_disconnect (ret tt) (ret tt) w post_nothing)
    as [w' [delta [-> [Ht [Hin [Hdown _]]]]]].
  exists w', delta. split; [reflexivity|]. split; [exact Ht|].
  split; [exact Hin | now apply winds_down_quiet].
Qed.



(** X19. A [null] among the blocks of a user message makes
    [generateSummary] throw, and [agent_end] then saves nothing: it logs
    the error as a warning, disconnects and returns, having called no
    tool. *)
Theorem agent_end_drops_capture_on_null_block (event : EndEvent)
    (msgs : list value) (msg : value) (blocks : list value) (w : World) :
  success event = true -> messages event = Some msgs ->
  2 <= user_messages msgs ->
  In msg msgs -> is_user_message msg = true ->
  member msg (lit "content") = VArr blocks -> In VNull blocks ->
  exists e w' delta,
    generateSummary rt msgs = Throw e
    /\ agent_end rt sdk event w = (Ok tt, w')
    /\ trace w' = trace w ++ Logged warn (agent_end_error e) :: delta
    /\ In Invoked_disconnect delta
    /\ (forall ev, In ev (Logged warn (agent_end_error e) :: delta) ->
        is_any_tool_call ev = false).
Proof.
  intros Hs Hm Hcount Hin Huser Hcontent Hnull.
  assert (He : hasEnoughExchanges msgs = true).
  { rewrite hasEnoughExchanges_counts. now apply Nat.leb_le. }
  destruct (generateSummary_throws rt msgs msg blocks Hin Huser Hcontent Hnull)
    as [e Hthrows].
  exists e. rewrite (agent_end_capture event msgs w Hs Hm He).
  destruct (finally_disconnect (capture rt sdk msgs)
              (log info (lit "memory-athena: disconnected")) w
              (post_logs info _))
    as [w' [delta [-> [Ht [Hdis [Hdown [Hthrown _]]]]]]].
  assert (Hrun : capture rt sdk msgs w = (Throw e, w)).
  { unfold capture, bind, lift. now rewrite Hthrows. }
  rewrite Hrun in Ht, Hthrown. cbn [fst snd] in Ht, Hthrown.
  destruct (Hthrown e eq_refl) as [rest ->].
  exists w', rest. split; [exact Hthrows|]. split; [reflexivity|].
  split; [exact Ht|].
  split; [destruct Hdis as [Hdis|Hdis]; [discriminate Hdis | exact Hdis]|].
  intros ev Hev. now apply (winds_down_quiet _ Hdown).
Qed.

Lemma keeps_bind {A B} (m : M A) (k : A -> M B) :
  keeps_session m -> (forall a, keeps_session (k a)) -> keeps_session (bind m k).
Proof.
  intros Hm Hk w. unfold bind. specialize (Hm w).
  destruct (m w) as [[a|e] w1]; cbn [snd] in *; [rewrite Hk|]; exact Hm.
Qed.

Lemma keeps_try {A} (m : M A) (handler : exn -> M A) :
  keeps_session m -> (forall e, keeps_session (handler e)) ->
  keeps_session (try_catch m handler).
Proof.
  intros Hm Hh w. unfold try_catch. specialize (Hm w).
  destruct (m w) as [[a|e] w1]; cbn [snd] in *; [|rewrite Hh]; exact Hm.
Qed.

Lemma keeps_ret {A} (a : A) : keeps_session (ret a).
Proof. intros w. reflexivity. Qed.

Lemma keeps_lift {A} (r : result A) : keeps_session (lift r).
Proof. intros w. reflexivity. Qed.

Lemma keeps_log (l : Level) (m : jsstr) : keeps_session (log l m).
Proof. intros w. reflexivity. Qed.

Lemma keeps_callTool (name : jsstr) (args : value) :
  keeps_session (callTool rt sdk name args).
Proof. intros w. apply callTool_session. Qed.

(** X20. [before_agent_start] never throws, whatever the event, the
    session and the server, and it never disconnects: it leaves the
    session as its [connect()] left it. When [connect()] throws, it
    returns no instruction and logs the error as a warning. *)
Theorem before_agent_start_never_throws (event : StartEvent) (w : World) :
  exists r w',
    before_agent_start rt sdk event w = (Ok r, w')
    /\ session w' = session (snd (connect rt sdk w))
    /\ (forall e,
          fst (connect rt sdk w) = Throw e ->
          r = None
          /\ trace w'
             = trace (snd (connect rt sdk w))
               ++ [Logged warn (lit "memory-athena: auto-recall failed: "
                                  ++ exn_toString e)]).
Proof.
  unfold before_agent_start.
  match goal with
  | |- context [try_catch (bind (connect rt sdk) ?k) ?h] =>
      set (rest := k); set (handler := h)
  end.
  assert (Hrest : keeps_session (rest tt)).
  { subst rest. cbv beta. apply keeps_bind; [apply keeps_log|]. intros _.
    destruct (has_prompt rt (prompt event)); [|apply keeps_ret]. cbv zeta.
    destruct (10 <? _); [|apply keeps_ret].
    apply keeps_bind; [apply keeps_log|]. intros _.
    apply keeps_bind; [apply keeps_callTool|]. intros searchResult.
    destruct (isError searchResult) as [[|]|],
      (content searchResult) as [|block blocks];
      try apply keeps_ret;
      (apply keeps_bind; [apply keeps_lift|]; intros parsed;
       apply keeps_bind; [apply keeps_lift|]; intros results;
       apply keeps_bind; [apply keeps_lift|]; intros meaningfulResults;
       destruct (0 <? _); [|apply keeps_ret];
       apply keeps_bind; [apply keeps_log|]; intros _; apply keeps_ret). }
  assert (Hhandler : forall e w1,
             handler e w1
             = (Ok None,
                {| session := session w1;
                   trace := trace w1
                            ++ [Logged warn (lit "memory-athena: auto-recall failed: "
                                               ++ exn_toString e)] |})).
  { reflexivity. }
  unfold try_catch, bind at 1.
  destruct (connect rt sdk w) as [[[]|e] w1]; cbn [fst snd].
  - specialize (Hrest w1). destruct (rest tt w1) as [[r|e] w2]; cbn [snd] in Hrest.
    + exists r, w2. split; [reflexivity|]. split; [exact Hrest | discriminate].
    + rewrite Hhandler. eexists. eexists. split; [reflexivity|].
      split; [exact Hrest | discriminate].
  - rewrite Hhandler. eexists. eexists. split; [reflexivity|].
    split; [reflexivity|]. intros e' He'. injection He' as <-. now split.
Qed.

(** The run of [before_agent_start] on a prompt of more than ten
    characters once [connect()] has returned. *)
Lemma recall_run (event : StartEvent) (p : jsstr) (w : World) :
  sound (session w) ->
  prompt event = VStr p -> 10 < length p ->
  fst (connect rt sdk w) = Ok tt ->
  exists r w' delta,
    before_agent_start rt sdk event w = (Ok r, w')
    /\ trace w'
       = trace (snd (connect rt sdk w))
         ++ [Logged info (lit "memory-athena: connected to MCP server");
             Logged info (lit "memory-athena: auto-recall for: "
                            ++ firstn 50 p ++ lit "...");
             Invoked_callTool (lit "smart_search") (search_args p);
             Sdk_callTool (lit "smart_search") (search_args p)]
         ++ delta
    /\ (forall e, In e delta -> exists l m, e = Logged l m)
    /\ (unusable rt
          (on_callTool sdk
             (trace (snd (connect rt sdk w))
              ++ [Logged info (lit "memory-athena: connected to MCP server");
                  Logged info (lit "memory-athena: auto-recall for: "
                                 ++ firstn 50 p ++ lit "...");
                  Invoked_callTool (lit "smart_search") (search_args p)])
             (lit "smart_search") (search_args p)) ->
        r = None).
Proof.
  intros Hsound Hprompt Hlen Hconnect.
  pose proof (connect_sound rt sdk w Hsound) as Hsound1.
  unfold before_agent_start, try_catch, bind at 1.
  destruct (connect rt sdk w) as [r0 w1] eqn:Hc. cbn [fst snd] in *. subst r0.
  apply connect_success in Hc. rewrite Hprompt.
  assert (Hp : has_prompt rt (VStr p) = true).
  { destruct p; [simpl in Hlen; lia | reflexivity]. }
  unfold bind at 1, log at 1, emit at 1. rewrite Hp. cbv zeta. cbn [ToString].
  apply Nat.ltb_lt in Hlen. rewrite Hlen.
  unfold bind at 1, log at 1, emit at 1. unfold bind at 1.
  rewrite callTool_connected by assumption. cbv zeta. cbn [session trace].
  rewrite <- !app_assoc. cbn [app].
  assert (Hdone : forall (r : option jsstr) (delta : list Event),
             (forall e, In e delta -> exists l m, e = Logged l m) ->
             (unusable rt
                (on_callTool sdk
                   (trace w1
                    ++ [Logged info (lit "memory-athena: connected to MCP server");
                        Logged info (lit "memory-athena: auto-recall for: "
                                       ++ firstn 50 p ++ lit "...");
                        Invoked_callTool (lit "smart_search") (search_args p)])
                   (lit "smart_search") (search_args p)) ->
              r = None) ->
             exists r' w' delta',
               (Ok r,
                {| session := session w1;
                   trace := trace w1
                     ++ [Logged info (lit "memory-athena: connected to MCP server");
                         Logged info (lit "memory-athena: auto-recall for: "
                                        ++ firstn 50 p ++ lit "...");
                         Invoked_callTool (lit "smart_search") (search_args p);
                         Sdk_callTool (lit "smart_search") (search_args p)]
                     ++ delta |}) = (Ok r', w')
               /\ trace w'
                  = trace w1
                    ++ [Logged info (lit "memory-athena: connected to MCP server");
                        Logged info (lit "memory-athena: auto-recall for: "
                                       ++ firstn 50 p ++ lit "...");
                        Invoked_callTool (lit "smart_search") (search_args p);
                        Sdk_callTool (lit "smart_search") (search_args p)]
                    ++ delta'
               /\ (forall e, In e delta' -> exists l m, e = Logged l m)
               /\ (unusable rt
                     (on_callTool sdk
                        (trace w1
                         ++ [Logged info (lit "memory-athena: connected to MCP server");
                             Logged info (lit "memory-athena: auto-recall for: "
                                            ++ firstn 50 p ++ lit "...");
                             Invoked_callTool (lit "smart_search") (search_args p)])
                        (lit "smart_search") (search_args p)) ->
                   r' = None)).
  { intros r delta Hlogs Hnone. exists r. eexists. exists delta.
    split; [reflexivity|]. split; [reflexivity|]. split; assumption. }
  assert (Hnil : forall e : Event, In e [] -> exists l m, e = Logged l m).
  { intros e []. }
  assert (Hone : forall l m (e : Event),
             In e [Logged l m] -> exists l' m', e = Logged l' m').
  { intros l m e [<-|[]]. now eexists; eexists. }
  cbn [app].
  destruct (on_callTool sdk _ _ _) as [[[blocks|] flag]|fault] eqn:Hreply;
    cbn [isError content].
  - destruct flag as [[|]|];
      [ apply (Hdone None []); [exact Hnil | reflexivity] | |];
      (destruct blocks as [|block blocks]; cbn [map];
       [ apply (Hdone None []); [exact Hnil | reflexivity] |]);
      cbn [text]; unfold bind at 1, lift at 1;
      (destruct (JSON_parse rt _) as [parsed|e] eqn:Hparse;
       [| unfold bind, log, emit, ret; cbn [session trace];
          rewrite <- !app_assoc; cbn [app];
          apply (Hdone None [_]); [apply Hone | reflexivity] ]);
      unfold bind at 1, lift at 1;
      (destruct (results_of parsed) as [results|e];
       [| unfold bind, log, emit, ret; cbn [session trace];
          rewrite <- !app_assoc; cbn [app];
          apply (Hdone None [_]); [apply Hone | reflexivity] ]);
      unfold bind at 1, lift at 1;
      (destruct (meaningful rt results) as [meaningfulResults|e];
       [| unfold bind, log, emit, ret; cbn [session trace];
          rewrite <- !app_assoc; cbn [app];
          apply (Hdone None [_]); [apply Hone | reflexivity] ]);
      (destruct (0 <? length meaningfulResults);
       [| apply (Hdone None []); [exact Hnil | reflexivity] ]);
      unfold bind, log, emit, ret; cbn [session trace];
      rewrite <- !app_assoc; cbn [app];
      (apply (Hdone (Some _) [_]); [apply Hone|]);
      cbn [unusable mcp_isError mcp_content];
      (intros [Hflag|[e He]]; [discriminate Hflag | congruence]).
  - apply (Hdone None []); [exact Hnil | reflexivity].
  - apply (Hdone None []); [exact Hnil | reflexivity].
Qed.

(** X21. On a prompt of more than ten characters, once connected,
    [before_agent_start] searches once, with the whole prompt as the
    query, at most 3 results, and neither strict filtering nor reranking;
    after the search it calls nothing and only logs. *)
Theorem before_agent_start_searches_once (event : StartEvent) (p : jsstr)
    (w : World) :
  sound (session w) ->
  prompt event = VStr p -> 10 < length p ->
  fst (connect rt sdk w) = Ok tt ->
  exists r w' delta,
    before_agent_start rt sdk event w = (Ok r, w')
    /\ trace w'
       = trace (snd (connect rt sdk w))
         ++ [Logged info (lit "memory-athena: connected to MCP server");
             Logged info (lit "memory-athena: auto-recall for: "
                            ++ firstn 50 p ++ lit "...");
             Invoked_callTool (lit "smart_search")
               (VObj [(lit "query", VStr p); (lit "limit", VNum 3);
                      (lit "strict", VBool false); (lit "rerank", VBool false)]);
             Sdk_callTool (lit "smart_search")
               (VObj [(lit "query", VStr p); (lit "limit", VNum 3);
                      (lit "strict", VBool false); (lit "rerank", VBool false)])]
         ++ delta
    /\ (forall e, In e delta -> exists l m, e = Logged l m).
Proof.
  intros Hsound Hprompt Hlen Hconnect.
  destruct (recall_run event p w Hsound Hprompt Hlen Hconnect)
    as [r [w' [delta [Hrun [Ht [Hlogs _]]]]]].
  exists r, w', delta. split; [exact Hrun|]. split; [exact Ht | exact Hlogs].
Qed.

(** X22. A reply to the search that cannot be used gives no instruction
    and no exception: when the SDK faults, when the reply is flagged as an
    error or has no content, or when the text of its first block is not
    JSON, [before_agent_start] returns nothing to prepend. *)
Theorem before_agent_start_discards_unusable_reply (event : StartEvent)
    (p : jsstr) (w : World) (reply : result McpResult) :
  sound (session w) ->
  prompt event = VStr p -> 10 < length p ->
  fst (connect rt sdk w) = Ok tt ->
  (forall history,
      on_callTool sdk history (lit "smart_search") (search_args p) = reply) ->
  unusable rt reply ->
  fst (before_agent_start rt sdk event w) = Ok None.
Proof.
  intros Hsound Hprompt Hlen Hconnect Hreply Hunusable.
  destruct (recall_run event p w Hsound Hprompt Hlen Hconnect)
    as [r [w' [delta [Hrun [_ [_ Hnone]]]]]].
  rewrite Hrun. cbn [fst]. f_equal. apply Hnone. now rewrite Hreply.
Qed.

End WithSdk.



(** The theorem X16 at the end of a failed turn, on a connected
    session. *)
Lemma agent_end_without_conversation_witness :
  exists w',
    agent_end Sample.plain_runtime (Sample.server (Sample.text_reply []))
      {| success := false; messages := Some Sample.sam_messages |}
      (connected_world (Sample.server (Sample.text_reply [])))
    = (Ok tt, w')
    /\ In Invoked_disconnect (trace w').
Proof.
  destruct (agent_end_without_conversation Sample.plain_runtime
              (Sample.server (Sample.text_reply []))
              {| success := false; messages := Some Sample.sam_messages |}
              (connected_world (Sample.server (Sample.text_reply [])))
              (or_introl eq_refl))
    as [w' [delta [Hrun [Ht [Hin _]]]]].
  exists w'. split; [exact Hrun|]. rewrite Ht. apply in_app_iff. now right.
Defined.



(** The theorem X19 at the end of a turn whose first user message has the
    block list [[null]]. *)
Lemma agent_end_drops_capture_on_null_block_witness :
  exists e w',
    agent_end Sample.plain_runtime (Sample.server (Sample.text_reply []))
      null_block_end (connected_world (Sample.server (Sample.text_reply [])))
    = (Ok tt, w')
    /\ In (Logged warn (agent_end_error e)) (trace w').
Proof.
  destruct (agent_end_drops_capture_on_null_block Sample.plain_runtime
              (Sample.server (Sample.text_reply [])) null_block_end
              (Sample.null_block_message ++ Sample.one_user_message)
              (Sample.message "user" (VArr [VNull])) [VNull]
              (connected_world (Sample.server (Sample.text_reply []))))
    as [e [w' [delta [_ [Hrun [Ht _]]]]]].
  - reflexivity.
  - reflexivity.
  - vm_compute. lia.
  - now left.
  - reflexivity.
  - reflexivity.
  - now left.
  - exists e, w'. split; [exact Hrun|]. rewrite Ht.
    apply in_app_iff. right. now left.
Defined.

(** The theorem X21 on the prompt about the phone number, on a new
    session. *)
Lemma before_agent_start_searches_once_witness :
  exists r w',
    before_agent_start Sample.plain_runtime Sample.faulty_server
      Sample.phone_prompt (initial Sample.stdio_config)
    = (Ok r, w')
    /\ In (Sdk_callTool (lit "smart_search")
             (search_args (lit "What's my phone number?")))
         (trace w').
Proof.
  destruct (before_agent_start_searches_once Sample.plain_runtime
              Sample.faulty_server Sample.phone_prompt
              (lit "What's my phone number?") (initial Sample.stdio_config))
    as [r [w' [delta [Hrun [Ht _]]]]].
  - intros H. discriminate H.
  - reflexivity.
  - vm_compute. lia.
  - reflexivity.
  - exists r, w'. split; [exact Hrun|]. rewrite Ht.
    apply in_app_iff. right. apply in_app_iff. left. right. right. right.
    now left.
Defined.

(** The theorem X22 on a server that faults on every tool call. *)
Lemma before_agent_start_discards_unusable_reply_witness :
  fst (before_agent_start Sample.plain_runtime Sample.faulty_server
         Sample.phone_prompt (initial Sample.stdio_config))
  = Ok None.
Proof.
  apply (before_agent_start_discards_unusable_reply Sample.plain_runtime
           Sample.faulty_server Sample.phone_prompt
           (lit "What's my phone number?") (initial Sample.stdio_config)
           (Throw (Error (lit "Request timed out")))).
  - intros H. discriminate H.
  - reflexivity.
  - vm_compute. lia.
  - reflexivity.
  - intros history. reflexivity.
  - exact I.
Defined.

End HookProperties.

(* ------------------------------------------------------------------ *)
Module ToolProperties.
Import Js Client Tools Spec Terms JsFacts ClientFacts HookFacts.

Lemma destructure_object (first : jsstr) (params : value) :
  params <> VUndefined -> params <> VNull -> destructure first params = Ok params.
Proof. intros Hu Hn. destruct params; try reflexivity; congruence. Qed.

Section WithSdk.
Variable rt : Runtime.
Variable sdk : Sdk.

(** What the five tools share, on a connected session. *)
Lemma call_connected (name : jsstr) (args : value) (w : World) :
  sound (session w) -> isConnected (session w) = true ->
  calls_once rt sdk (call rt sdk name args) name args w.
Proof.
  intros Hsound Hconn. unfold calls_once, call, ensure_connected.
  unfold bind at 1, bind at 1, this. rewrite Hconn. unfold ret at 1.
  unfold bind. rewrite callTool_connected by assumption. cbv zeta.
  cbn [session trace]. unfold ret. rewrite <- app_assoc. cbn [app].
  eexists. split; [reflexivity|]. split.
  - intros blocks flag ->. cbn [respond response_content response_isError
                                details content isError].
    now rewrite map_map.
  - intros fault ->. split; reflexivity.
Qed.

(** What the five tools share, on a session that is not connected. *)
Lemma call_disconnected (name : jsstr) (args : value) (w : World) :
  sound (session w) -> isConnected (session w) = false ->
  connects_first rt sdk (call rt sdk name args) name args w.
Proof.
  intros Hsound Hconn. split.
  - intros e w1 Hc. unfold call, ensure_connected, bind at 1, bind at 1, this.
    rewrite Hconn, Hc. split; [reflexivity|].
    now apply (connect_failure rt sdk w e w1).
  - intros w1 Hc.
    pose proof (connect_sound rt sdk w Hsound) as Hsound1.
    pose proof (connect_success rt sdk w w1 Hc) as Hconn1.
    rewrite Hc in Hsound1. cbn [snd] in Hsound1.
    split; [exact Hconn1|].
    unfold call, ensure_connected, bind at 1, bind at 1, this.
    rewrite Hconn, Hc.
    unfold bind. rewrite callTool_connected by assumption. cbv zeta.
    cbn [session trace]. unfold ret. rewrite <- app_assoc. cbn [app].
    eexists. reflexivity.
Qed.

(** With parameters in hand, the three tools that take parameters are
    the call of their tool of the server. *)
Lemma execute_with_params (params : value) (w : World) :
  params <> VUndefined -> params <> VNull ->
  search_execute rt sdk params w
  = call rt sdk (lit "smart_search") (smart_search_args params) w
  /\ save_execute rt sdk params w
     = call rt sdk (lit "quicksave") (quicksave_args params) w
  /\ recall_session_execute rt sdk params w
     = call rt sdk (lit "recall_session") (recall_session_args params) w.
Proof.
  intros Hu Hn. repeat split.
  - unfold search_execute, bind at 1, lift.
    now rewrite destructure_object by assumption.
  - unfold save_execute, bind at 1, lift.
    now rewrite destructure_object by assumption.
  - unfold recall_session_execute, bind at 1, lift.
    now rewrite destructure_object by assumption.
Qed.

(** X23. On a connected session, each of the five tools calls its own
    tool of the server, once, without connecting again, and never throws:
    [search] calls [smart_search], [save] calls [quicksave],
    [recall_session] calls [recall_session], [list_paths] calls
    [list_memory_paths] and [health] calls [health_check], each with the
    arguments built from its parameters. A reply comes back with its
    blocks as text, its error flag, and the texts joined by line feeds as
    [details]; a fault of the SDK comes back as an error response whose
    details are ["Error: "] and the fault. *)
Theorem execute_on_connected_session (params : value) (w : World) :
  sound (session w) -> isConnected (session w) = true ->
  (params <> VUndefined -> params <> VNull ->
   calls_once rt sdk (search_execute rt sdk params) (lit "smart_search")
     (VObj [(lit "query", member params (lit "query"));
            (lit "limit", with_default params (lit "limit") (VNum 10));
            (lit "strict", with_default params (lit "strict") (VBool false));
            (lit "rerank", with_default params (lit "rerank") (VBool false))]) w
   /\ calls_once rt sdk (save_execute rt sdk params) (lit "quicksave")
        (VObj [(lit "summary", member params (lit "summary"));
               (lit "bullets",
                if truthy (member params (lit "bullets"))
                then member params (lit "bullets") else VNull)]) w
   /\ calls_once rt sdk (recall_session_execute rt sdk params)
        (lit "recall_session")
        (VObj [(lit "lines", with_default params (lit "lines") (VNum 50))]) w)
  /\ calls_once rt sdk (list_paths_execute rt sdk) (lit "list_memory_paths")
       (VObj []) w
  /\ calls_once rt sdk (health_execute rt sdk) (lit "health_check") (VObj []) w.
Proof.
  intros Hsound Hconn. split; [|split].
  - intros Hu Hn.
    destruct (execute_with_params params w Hu Hn) as [Hsearch [Hsave Hrecall]].
    unfold calls_once. rewrite Hsearch, Hsave, Hrecall.
    split; [|split].
    + apply (call_connected (lit "smart_search") (smart_search_args params) w
               Hsound Hconn).
    + apply (call_connected (lit "quicksave") (quicksave_args params) w
               Hsound Hconn).
    + apply (call_connected (lit "recall_session") (recall_session_args params) w
               Hsound Hconn).
  - apply (call_connected (lit "list_memory_paths") (VObj []) w Hsound Hconn).
  - apply (call_connected (lit "health_check") (VObj []) w Hsound Hconn).
Qed.

(** X24. On a session that is not connected, each of the five tools
    connects first. When [connect()] throws, the tool throws the same
    connection error and has called nothing; when it returns, the tool
    calls its own tool of the server, once, on the connected session:
    [search] calls [smart_search], [save] calls [quicksave],
    [recall_session] calls [recall_session], [list_paths] calls
    [list_memory_paths] and [health] calls [health_check]. *)
Theorem execute_connects_first (params : value) (w : World) :
  sound (session w) -> isConnected (session w) = false ->
  (params <> VUndefined -> params <> VNull ->
   connects_first rt sdk (search_execute rt sdk params) (lit "smart_search")
     (VObj [(lit "query", member params (lit "query"));
            (lit "limit", with_default params (lit "limit") (VNum 10));
            (lit "strict", with_default params (lit "strict") (VBool false));
            (lit "rerank", with_default params (lit "rerank") (VBool false))]) w
   /\ connects_first rt sdk (save_execute rt sdk params) (lit "quicksave")
        (VObj [(lit "summary", member params (lit "summary"));
               (lit "bullets",
                if truthy (member params (lit "bullets"))
                then member params (lit "bullets") else VNull)]) w
   /\ connects_first rt sdk (recall_session_execute rt sdk params)
        (lit "recall_session")
        (VObj [(lit "lines", with_default params (lit "lines") (VNum 50))]) w)
  /\ connects_first rt sdk (list_paths_execute rt sdk) (lit "list_memory_paths")
       (VObj []) w
  /\ connects_first rt sdk (health_execute rt sdk) (lit "health_check")
       (VObj []) w.
Proof.
  intros Hsound Hconn. split; [|split].
  - intros Hu Hn.
    destruct (execute_with_params params w Hu Hn) as [Hsearch [Hsave Hrecall]].
    unfold connects_first. rewrite Hsearch, Hsave, Hrecall.
    split; [|split].
    + apply (call_disconnected (lit "smart_search") (smart_search_args params) w
               Hsound Hconn).
    + apply (call_disconnected (lit "quicksave") (quicksave_args params) w
               Hsound Hconn).
    + apply (call_disconnected (lit "recall_session")
               (recall_session_args params) w Hsound Hconn).
  - apply (call_disconnected (lit "list_memory_paths") (VObj []) w Hsound Hconn).
  - apply (call_disconnected (lit "health_check") (VObj []) w Hsound Hconn).
Qed.

(** X25. The three tools that take parameters throw a [TypeError] when
    they are called with [undefined] or [null] for them, before anything
    else: the session is not touched, nothing connects and nothing is
    called. *)
Theorem execute_rejects_missing_params (params : value) (w : World) :
  params = VUndefined \/ params = VNull ->
  (exists msg, search_execute rt sdk params w = (Throw (TypeError msg), w))
  /\ (exists msg, save_execute rt sdk params w = (Throw (TypeError msg), w))
  /\ (exists msg,
        recall_session_execute rt sdk params w = (Throw (TypeError msg), w)).
Proof.
  intros [->| ->]; repeat split; eexists; reflexivity.
Qed.

(** X26. A search with a query and nothing else asks the server for at
    most 10 results, without strict filtering or reranking; a save
    without bullets, or with a falsy value for them, sends [null] for
    them; a recall without a number of lines asks for 50. *)
Theorem execute_fills_in_defaults (props : list (jsstr * value)) (w : World) :
  sound (session w) -> isConnected (session w) = true ->
  (lookup (lit "limit") props = None ->
   lookup (lit "strict") props = None ->
   lookup (lit "rerank") props = None ->
   In (Sdk_callTool (lit "smart_search")
         (VObj [(lit "query", field (lit "query") props);
                (lit "limit", VNum 10);
                (lit "strict", VBool false);
                (lit "rerank", VBool false)]))
     (trace (snd (search_execute rt sdk (VObj props) w))))
  /\ (truthy (field (lit "bullets") props) = false ->
      In (Sdk_callTool (lit "quicksave")
            (VObj [(lit "summary", field (lit "summary") props);
                   (lit "bullets", VNull)]))
        (trace (snd (save_execute rt sdk (VObj props) w))))
  /\ (lookup (lit "lines") props = None ->
      In (Sdk_callTool (lit "recall_session") (VObj [(lit "lines", VNum 50)]))
        (trace (snd (recall_session_execute rt sdk (VObj props) w)))).
Proof.
  intros Hsound Hconn.
  assert (Hcall : forall name args,
             In (Sdk_callTool name args) (trace (snd (call rt sdk name args w)))).
  { intros name args.
    unfold call, ensure_connected, bind at 1, bind at 1, this.
    rewrite Hconn. unfold ret at 1. unfold bind.
    rewrite callTool_connected by assumption. cbv zeta. cbn [snd trace].
    apply in_app_iff. right. now left. }
  assert (Hdefault : forall k d,
             lookup k props = None -> with_default (VObj props) k d = d).
  { intros k d Hk. unfold with_default. cbn [member]. unfold field.
    now rewrite Hk. }
  split; [|split].
  - intros Hl Hs Hr.
    change (search_execute rt sdk (VObj props) w)
      with (call rt sdk (lit "smart_search") (smart_search_args (VObj props)) w).
    unfold smart_search_args. rewrite !Hdefault by assumption. apply Hcall.
  - intros Hb.
    change (save_execute rt sdk (VObj props) w)
      with (call rt sdk (lit "quicksave") (quicksave_args (VObj props)) w).
    unfold quicksave_args. cbn [member]. cbv zeta. rewrite Hb. apply Hcall.
  - intros Hl.
    change (recall_session_execute rt sdk (VObj props) w)
      with (call rt sdk (lit "recall_session")
              (recall_session_args (VObj props)) w).
    unfold recall_session_args. rewrite !Hdefault by assumption. apply Hcall.
Qed.

Lemma prefixed_injective (prefix : jsstr) (xs : list jsstr) :
  NoDup xs -> NoDup (map (fun suffix => prefix ++ suffix) xs).
Proof.
  induction 1 as [|x xs Hx Hxs IH]; cbn [map]; constructor; [|exact IH].
  intros Hin. apply in_map_iff in Hin as [y [Hy Hin]].
  apply app_inv_head in Hy. now subst y.
Qed.

(** X27. Without a configuration, or with an empty one, [register] sets
    up the defaults: transport stdio, the tools [athena_search],
    [athena_save], [athena_recall_session], [athena_list_paths] and
    [athena_health]. A configuration that is not an object makes it throw
    before anything is registered. *)
Theorem register_without_config (pluginConfig : value) :
  (truthy pluginConfig = false \/ pluginConfig = VObj [] ->
   register rt pluginConfig
   = Ok (defaults rt, new (client_config (defaults rt)),
         [lit "athena_search"; lit "athena_save"; lit "athena_recall_session";
          lit "athena_list_paths"; lit "athena_health"]))
  /\ (truthy pluginConfig = true ->
      (forall cfg, pluginConfig <> VObj cfg) ->
      register rt pluginConfig
      = Throw (Error (lit "Athena memory config required"))).
Proof.
  split.
  - intros [H| ->]; unfold register; [rewrite H|]; reflexivity.
  - intros Ht Hno. unfold register. rewrite Ht.
    destruct pluginConfig; try reflexivity. now destruct (Hno props).
Qed.

(** X28. Whatever [register] sets up, the five tool names are the
    configured prefix followed by the five suffixes, they are distinct
    whatever the prefix, and the client it creates is given the parsed
    transport, interpreter, directory and URL and is not connected. *)
Theorem register_tool_names (pluginConfig : value)
    (cfg : Config.AthenaMemoryConfig) (client : AthenaClient)
    (names : list jsstr) :
  register rt pluginConfig = Ok (cfg, client, names) ->
  names = map (fun suffix => Config.toolPrefix cfg ++ suffix) tool_suffixes
  /\ length names = 5
  /\ NoDup names
  /\ (forall name, In name names -> has_prefix (Config.toolPrefix cfg) name = true)
  /\ isConnected client = false
  /\ holds_no_handle client
  /\ config client
     = {| cfg_transport := Config.transport cfg;
          cfg_pythonPath := Some (Config.pythonPath cfg);
          cfg_athenaProjectDir := Some (Config.athenaProjectDir cfg);
          cfg_sseUrl := Some (Config.sseUrl cfg) |}
  /\ (forall props prefix,
        pluginConfig = VObj props ->
        field (lit "toolPrefix") props = VStr prefix ->
        Config.toolPrefix cfg = prefix).
Proof.
  unfold register. intros H. apply rbind_ok in H as [cfg' [Hparse H]].
  injection H as <- <- <-. split; [reflexivity|]. split; [reflexivity|].
  split.
  - apply prefixed_injective. unfold tool_suffixes.
    repeat constructor; simpl; intuition discriminate.
  - split.
    + intros name Hname. apply in_map_iff in Hname as [suffix [<- _]].
      apply ClientProperties.has_prefix_app.
    + split; [reflexivity|]. split; [split; reflexivity|].
      split; [reflexivity|]. intros props prefix -> Hprefix.
      cbn [truthy] in Hparse. unfold Config.parse in Hparse.
      apply rbind_ok in Hparse as [u [_ Hparse]].
      cbv zeta in Hparse.
      apply rbind_ok in Hparse as [pythonPath [_ Hparse]].
      apply rbind_ok in Hparse as [athenaProjectDir [_ Hparse]].
      apply rbind_ok in Hparse as [sseUrl [_ Hparse]].
      injection Hparse as <-. cbn [Config.toolPrefix]. now rewrite Hprefix.
Qed.

End WithSdk.

(** The theorem X23 on the health tool and a server that answers "ok". *)
Lemma execute_on_connected_session_witness :
  exists r w',
    health_execute Sample.plain_runtime (Sample.server (Sample.text_reply (lit "ok")))
      (connected_world (Sample.server (Sample.text_reply (lit "ok"))))
    = (Ok r, w')
    /\ In (Sdk_callTool (lit "health_check") (VObj [])) (trace w')
    /\ details r = lit "ok".
Proof.
  destruct (execute_on_connected_session Sample.plain_runtime
              (Sample.server (Sample.text_reply (lit "ok"))) VUndefined
              (connected_world (Sample.server (Sample.text_reply (lit "ok")))))
    as [_ [_ [r [Hrun [Hreply _]]]]].
  - intros _. discriminate.
  - reflexivity.
  - eexists. eexists. split; [exact Hrun|]. split.
    + cbn [trace]. apply in_app_iff. right. right. now left.
    + destruct (Hreply [McpText (lit "ok")] None eq_refl) as [_ [_ ->]].
      reflexivity.
Defined.

(** The theorem X24 on the search tool and a server whose handshake
    fails. *)
Lemma execute_connects_first_witness :
  fst (search_execute Sample.plain_runtime Sample.unreachable_server
         (VObj [(lit "query", VStr (lit "phone"))])
         (initial Sample.stdio_config))
  = Throw (ConnectionError Sample.spawn_failure).
Proof.
  destruct (execute_connects_first Sample.plain_runtime Sample.unreachable_server
              (VObj [(lit "query", VStr (lit "phone"))])
              (initial Sample.stdio_config))
    as [Hparams _].
  - intros H. discriminate H.
  - reflexivity.
  - destruct Hparams as [[Hfails _] _]; [discriminate | discriminate |].
    destruct (Hfails (ConnectionError Sample.spawn_failure)
                (snd (connect Sample.plain_runtime Sample.unreachable_server
                        (initial Sample.stdio_config))) eq_refl)
      as [-> _].
    reflexivity.
Defined.

(** The theorem X25 on [undefined] and a new session. *)
Lemma execute_rejects_missing_params_witness :
  exists msg,
    save_execute Sample.plain_runtime Sample.faulty_server VUndefined
      (initial Sample.stdio_config)
    = (Throw (TypeError msg), initial Sample.stdio_config).
Proof.
  destruct (execute_rejects_missing_params Sample.plain_runtime
              Sample.faulty_server VUndefined (initial Sample.stdio_config)
              (or_introl eq_refl))
    as [_ [Hsave _]].
  exact Hsave.
Defined.

(** The theorem X26 on a search for "phone". *)
Lemma execute_fills_in_defaults_witness :
  In (Sdk_callTool (lit "smart_search")
        (VObj [(lit "query", VStr (lit "phone")); (lit "limit", VNum 10);
               (lit "strict", VBool false); (lit "rerank", VBool false)]))
    (trace (snd (search_execute Sample.plain_runtime
                   (Sample.server (Sample.text_reply []))
                   (VObj [(lit "query", VStr (lit "phone"))])
                   (connected_world (Sample.server (Sample.text_reply [])))))).
Proof.
  destruct (execute_fills_in_defaults Sample.plain_runtime
              (Sample.server (Sample.text_reply []))
              [(lit "query", VStr (lit "phone"))]
              (connected_world (Sample.server (Sample.text_reply []))))
    as [Hsearch _].
  - intros _. discriminate.
  - reflexivity.
  - now apply Hsearch.
Defined.

(** The theorem X28 on a registration without configuration. *)
Lemma register_tool_names_witness :
  NoDup [lit "athena_search"; lit "athena_save"; lit "athena_recall_session";
         lit "athena_list_paths"; lit "athena_health"].
Proof.
  destruct (register_tool_names Sample.plain_runtime VUndefined
              (defaults Sample.plain_runtime)
              (new (client_config (defaults Sample.plain_runtime)))
              [lit "athena_search"; lit "athena_save"; lit "athena_recall_session";
               lit "athena_list_paths"; lit "athena_health"] eq_refl)
    as [_ [_ [Hdistinct _]]].
  exact Hdistinct.
Defined.

End ToolProperties.
